(** * Mushroom segmentation: a shallow embedding of the detection pipeline

    The development follows [mushroom_segmentation/config/settings.py] and
    [mushroom_segmentation/core/segmentation.py], and around them
    [utils/validators.py], [utils/io_handler.py], [core/visualization.py]
    and [__main__.py].

    - Python [int] is [Z]; Python [float] (and NumPy's [float64]) is IEEE-754
      binary64, taken from the Standard Library's executable specification
      [SpecFloat] (precision 53, [emax] 1024).
    - An exception is a value of [exn]; a computation that may raise returns a
      [result].
    - Images are row lists of 8-bit samples, distance maps are row lists of
      floats.
    - OpenCV and scikit-image are libraries outside the repository.  The
      primitives whose documented meaning is elementary ([cv2.threshold],
      [cv2.erode], [cv2.dilate], [cv2.morphologyEx], [cv2.bitwise_and],
      [np.unique], [np.ones]) are written out; the others
      ([cv2.GaussianBlur], [cv2.cvtColor], the CLAHE object,
      [cv2.distanceTransform]) are fields of a record the pipeline is
      parameterised by, and the peak finder is an argument of the pipeline.
    - The file system, the windows and the process environment are a state
      outside the program; the calls that change it are kept in a log. *)

From Stdlib Require Import ZArith List Bool Lia Floats.SpecFloat.
From Stdlib Require Import Sorting.Sorted.
From Stdlib Require Strings.String Strings.Ascii DecimalString DecimalZ DecimalPos.
Import ListNotations.

Local Open Scope Z_scope.

(** ** Python: exceptions, results, integers and floats *)

Module Py.

Inductive exn : Type :=
| ZeroDivisionError
| ValueError
| OverflowError
| IndexError
| ValidationError
| cv2_error.

Inductive result (A : Type) : Type :=
| Ok (a : A)
| Raise (e : exn).
Arguments Ok {A} a.
Arguments Raise {A} e.

Definition bind {A B : Type} (r : result A) (k : A -> result B) : result B :=
  match r with
  | Ok a => k a
  | Raise e => Raise e
  end.

(** binary64 *)
Definition prec : Z := 53.
Definition emax : Z := 1024.

Definition float : Type := spec_float.

Definition fadd : float -> float -> float := SFadd prec emax.
Definition fmul : float -> float -> float := SFmul prec emax.
Definition fdiv : float -> float -> float := SFdiv prec emax.
Definition fsqrt : float -> float := SFsqrt prec emax.
Definition fle (x y : float) : bool := SFleb x y.
Definition flt (x y : float) : bool := SFltb x y.
Definition feq (x y : float) : bool := SFeqb x y.

(** [float(n)] for an [int] [n]: the nearest binary64, [OverflowError]
    beyond the largest finite float. *)
Definition float_of_int (n : Z) : result float :=
  match binary_normalize prec emax n 0 false with
  | S754_infinity _ => Raise OverflowError
  | x => Ok x
  end.

(** An integer as an unrounded (sign, mantissa, exponent 0) triple. *)
Definition exact_int (n : Z) : float :=
  match n with
  | Z0 => S754_zero false
  | Zpos p => S754_finite false p 0
  | Zneg p => S754_finite true p 0
  end.

(** [a / b] on two [int]s: true division, the correctly rounded quotient
    of the two integers. *)
Definition int_truediv (a b : Z) : result float :=
  if b =? 0 then Raise ZeroDivisionError
  else match fdiv (exact_int a) (exact_int b) with
       | S754_infinity _ => Raise OverflowError
       | q => Ok q
       end.

(** [n + x] for an [int] [n] and a [float] [x]. *)
Definition int_add_float (n : Z) (x : float) : result float :=
  bind (float_of_int n) (fun fn => Ok (fadd fn x)).

(** [int(x)]: truncation toward zero; NaN and the infinities raise. *)
Definition int_of_float (x : float) : result Z :=
  match x with
  | S754_zero _ => Ok 0
  | S754_nan => Raise ValueError
  | S754_infinity _ => Raise OverflowError
  | S754_finite s m e =>
      let a := match e with
               | Zneg k => Z.shiftr (Zpos m) (Zpos k)
               | _ => Z.shiftl (Zpos m) e
               end in
      Ok (if s then - a else a)
  end.


(** [n // d] and [n % d] on [int]s with a positive literal divisor. *)
Definition floordiv (n d : Z) : Z := n / d.
Definition pymod (n d : Z) : Z := n mod d.

End Py.

Export Py.

Declare Scope py_scope.
Delimit Scope py_scope with py.
Notation "x <- c1 ;; c2" := (Py.bind c1 (fun x => c2))
  (at level 61, c1 at next level, right associativity) : py_scope.
Open Scope py_scope.

(** Float literals used below. *)
Definition f0 : float := S754_zero false.
Definition f1 : float := S754_finite false 4503599627370496 (-52).

(** ** config/settings.py *)

Module Settings.

(** The validated configuration object. *)
Record t : Type := mk {
  back_threshold : Z;
  threshold : Z;
  min_diameter : Z;
  peaks_rel_threshold : float;
  gaussian_kernel_size : Z;
  clahe_clip_limit : float;
  clahe_tile_size : Z;
  morphology_kernel_size : Z;
  center_color : Z * Z * Z;
  radius1_color : Z * Z * Z;
  radius2_color : Z * Z * Z;
  line_thickness : Z
}.

(** What a construction is given: for every field either a configured
    value or nothing, in which case the declared default is taken. *)
Record configured : Type := mk_configured {
  back_threshold_in : option Z;
  threshold_in : option Z;
  min_diameter_in : option Z;
  peaks_rel_threshold_in : option float;
  gaussian_kernel_size_in : option Z;
  clahe_clip_limit_in : option float;
  clahe_tile_size_in : option Z;
  morphology_kernel_size_in : option Z;
  center_color_in : option (Z * Z * Z);
  radius1_color_in : option (Z * Z * Z);
  radius2_color_in : option (Z * Z * Z);
  line_thickness_in : option Z
}.

Definition nothing_configured : configured :=
  mk_configured None None None None None None None None None None None None.

(** [validate_odd_kernel_size]: "Ensure kernel sizes are odd numbers." *)
Definition validate_odd_kernel_size (v : Z) : Z :=
  if pymod v 2 =? 0 then v + 1 else v.

(** [Field(default=d, ge=.., le=..)] on an [int] field followed by the
    field's validators: a configured value is checked against the bounds
    and then handed to the validator; the default is taken as it is. *)
Definition int_field (default : Z) (ge le : option Z) (validator : Z -> Z)
    (given : option Z) : result Z :=
  match given with
  | None => Ok default
  | Some v =>
      if (match ge with Some lo => lo <=? v | None => true end)
         && (match le with Some hi => v <=? hi | None => true end)
      then Ok (validator v)
      else Raise ValidationError
  end.

Definition float_field (default : float) (ge le : option float)
    (given : option float) : result float :=
  match given with
  | None => Ok default
  | Some v =>
      if (match ge with Some lo => fle lo v | None => true end)
         && (match le with Some hi => fle v hi | None => true end)
      then Ok v
      else Raise ValidationError
  end.

Definition color_field (default : Z * Z * Z) (given : option (Z * Z * Z))
    : result (Z * Z * Z) :=
  Ok (match given with Some c => c | None => default end).

Definition no_validator (v : Z) : Z := v.

(** [0.1] and [2.0] as binary64. *)
Definition default_peaks_rel_threshold : float :=
  S754_finite false 7205759403792794 (-56).
Definition default_clahe_clip_limit : float :=
  S754_finite false 4503599627370496 (-51).

(** [Settings(...)]: the fields in their declared order. *)
Definition init (c : configured) : result t :=
  bt <- int_field 100 (Some 0) (Some 255) no_validator (back_threshold_in c) ;;
  th <- int_field 150 (Some 0) (Some 255) no_validator (threshold_in c) ;;
  md <- int_field 30 (Some 1) None no_validator (min_diameter_in c) ;;
  pr <- float_field default_peaks_rel_threshold (Some f0) (Some f1)
          (peaks_rel_threshold_in c) ;;
  gk <- int_field 5 None None validate_odd_kernel_size
          (gaussian_kernel_size_in c) ;;
  cl <- float_field default_clahe_clip_limit (Some f0) None
          (clahe_clip_limit_in c) ;;
  ct <- int_field 8 (Some 1) None no_validator (clahe_tile_size_in c) ;;
  mk_ <- int_field 3 (Some 1) None validate_odd_kernel_size
          (morphology_kernel_size_in c) ;;
  cc <- color_field (255, 0, 0) (center_color_in c) ;;
  c1 <- color_field (0, 255, 0) (radius1_color_in c) ;;
  c2 <- color_field (0, 0, 255) (radius2_color_in c) ;;
  lt <- int_field 2 (Some 1) None no_validator (line_thickness_in c) ;;
  Ok (mk bt th md pr gk cl ct mk_ cc c1 c2 lt).

(** The declared ranges of the fields the pipeline reads ([ge], [le]). *)
Definition in_declared_ranges (s : t) : Prop :=
  0 <= back_threshold s <= 255 /\
  0 <= threshold s <= 255 /\
  1 <= min_diameter s /\
  fle f0 (peaks_rel_threshold s) = true /\
  fle (peaks_rel_threshold s) f1 = true /\
  fle f0 (clahe_clip_limit s) = true /\
  1 <= clahe_tile_size s /\
  1 <= morphology_kernel_size s.

End Settings.

(** ** Arrays *)

(** A single-channel 8-bit image, a three-channel (BGR) image, a float map. *)
Definition image : Type := list (list Z).
Definition bgr_image : Type := list (list (Z * Z * Z)).
Definition dmap : Type := list (list float).

(** A peak is a (row, column) pair; a circle is [(x, y, radius1, radius2)]. *)
Definition peak : Type := (Z * Z)%type.
Definition circle : Type := (Z * Z * Z * Z)%type.

Definition radius1 (c : circle) : Z := let '(_, _, r1, _) := c in r1.
Definition radius2 (c : circle) : Z := let '(_, _, _, r2) := c in r2.

Fixpoint mapi_from {A B : Type} (f : Z -> A -> B) (i : Z) (l : list A) : list B :=
  match l with
  | [] => []
  | a :: l' => f i a :: mapi_from f (i + 1) l'
  end.

Definition mapi {A B : Type} (f : Z -> A -> B) (l : list A) : list B :=
  mapi_from f 0 l.

(** The rows' lengths: two arrays of equal [dims] have the same dimensions. *)
Definition dims {A : Type} (a : list (list A)) : list nat := map (@length A) a.

(** The sample at row [i], column [j], when it lies inside the array. *)
Definition sample {A : Type} (a : list (list A)) (i j : Z) : option A :=
  if (0 <=? i) && (0 <=? j) then
    match nth_error a (Z.to_nat i) with
    | Some row => nth_error row (Z.to_nat j)
    | None => None
    end
  else None.

Module np.

(** [np.ones((rows, cols), np.uint8)] *)
Definition ones (rows cols : Z) : result image :=
  if (rows <? 0) || (cols <? 0) then Raise ValueError
  else Ok (repeat (repeat 1 (Z.to_nat cols)) (Z.to_nat rows)).

Fixpoint insert_unique (v : Z) (l : list Z) : list Z :=
  match l with
  | [] => [v]
  | w :: l' =>
      if v <? w then v :: l
      else if v =? w then l
      else w :: insert_unique v l'
  end.

(** [np.unique(a)]: the sorted distinct values of the flattened array. *)
Definition unique (a : image) : list Z :=
  fold_right insert_unique [] (concat a).

(** An index along an axis of length [n]: negative indices count from the
    end, anything else out of range raises [IndexError]. *)
Definition index (n : nat) (i : Z) : result nat :=
  if (0 <=? i) && (i <? Z.of_nat n) then Ok (Z.to_nat i)
  else if (- Z.of_nat n <=? i) && (i <? 0) then Ok (Z.to_nat (i + Z.of_nat n))
  else Raise IndexError.

(** [a[y, x]] on a two-dimensional array whose rows have the length of
    the first. *)
Definition get2 {A : Type} (a : list (list A)) (y x : Z) : result A :=
  i <- index (length a) y ;;
  j <- index (length (hd [] a)) x ;;
  match nth_error a i with
  | Some row => match nth_error row j with
                | Some v => Ok v
                | None => Raise IndexError
                end
  | None => Raise IndexError
  end.

End np.

(** ** OpenCV *)

Module cv2.

Inductive color_code : Type := COLOR_BGR2GRAY.
Inductive distance_type : Type := DIST_L2.
Inductive morph_op : Type := MORPH_OPEN.
Inductive threshold_type : Type := THRESH_BINARY.

(** [cv2.threshold(src, thresh, maxval, cv2.THRESH_BINARY)], the
    destination image: [maxval] where [src > thresh], 0 elsewhere. *)
Definition threshold (src : image) (thresh maxval : Z) (_ : threshold_type)
    : image :=
  map (map (fun v => if thresh <? v then maxval else 0)) src.

(** The offsets, relative to the anchor at the kernel's centre, of the
    non-zero entries of a structuring element; an empty kernel stands for
    the 3x3 rectangle. *)
Definition kernel_offsets (kernel : image) : list (Z * Z) :=
  let kernel := match kernel with
                | [] => repeat (repeat 1 3%nat) 3%nat
                | _ => kernel
                end in
  let ay := Z.of_nat (length kernel) / 2 in
  let ax := Z.of_nat (length (hd [] kernel)) / 2 in
  concat (mapi (fun i row =>
    concat (mapi (fun j v => if v =? 0 then [] else [(i - ay, j - ax)]) row))
    kernel).

(** One pass of erosion or dilation: [op] folded over the samples under
    the structuring element that lie inside the image, starting from the
    border value ([255] for erosion, [0] for dilation: samples outside the
    image never win). *)
Definition morph_sample (op : Z -> Z -> Z) (border : Z) (src : image)
    (offsets : list (Z * Z)) (i j : Z) : Z :=
  fold_left (fun acc d =>
               match sample src (i + fst d) (j + snd d) with
               | Some v => op acc v
               | None => acc
               end) offsets border.

Definition morph_pass (op : Z -> Z -> Z) (border : Z) (kernel : image)
    (src : image) : image :=
  mapi (fun i row =>
          mapi (fun j _ => morph_sample op border src (kernel_offsets kernel) i j)
               row) src.

Fixpoint repeat_pass (n : nat) (f : image -> image) (src : image) : image :=
  match n with
  | O => src
  | S n' => repeat_pass n' f (f src)
  end.

(** [cv2.erode(src, kernel, iterations=n)], [cv2.dilate(...)] *)
Definition erode (src kernel : image) (iterations : Z) : image :=
  repeat_pass (Z.to_nat iterations) (morph_pass Z.min 255 kernel) src.

Definition dilate (src kernel : image) (iterations : Z) : image :=
  repeat_pass (Z.to_nat iterations) (morph_pass Z.max 0 kernel) src.

(** [cv2.morphologyEx(src, cv2.MORPH_OPEN, kernel, iterations=n)]:
    erosion, then dilation. *)
Definition morphologyEx (src : image) (_ : morph_op) (kernel : image)
    (iterations : Z) : image :=
  dilate (erode src kernel iterations) kernel iterations.

Definition same_dims (a b : image) : bool :=
  if list_eq_dec Nat.eq_dec (dims a) (dims b) then true else false.

(** [cv2.bitwise_and(src1, src2, mask=mask)]: the bitwise conjunction
    where the mask is non-zero, 0 elsewhere. *)
Definition bitwise_and (src1 src2 mask : image) : result image :=
  if same_dims src1 src2 && same_dims src1 mask then
    Ok (mapi (fun i row =>
                mapi (fun j v =>
                        match sample src2 i j, sample mask i j with
                        | Some w, Some m => if m =? 0 then 0 else Z.land v w
                        | _, _ => 0
                        end) row) src1)
  else Raise cv2_error.

(** The part of OpenCV the pipeline is parameterised by.  A CLAHE object
    is created from a clip limit and a tile grid, keeps buffers of its own
    between calls, and [apply] returns the equalised image together with
    the object as the call leaves it. *)
Record external : Type := {
  CLAHE : Type;
  createCLAHE : float -> Z * Z -> CLAHE;
  CLAHE_apply : CLAHE -> image -> result image * CLAHE;
  CLAHE_getClipLimit : CLAHE -> float;
  CLAHE_getTilesGridSize : CLAHE -> Z * Z;
  GaussianBlur : bgr_image -> Z * Z -> Z -> result bgr_image;
  cvtColor : bgr_image -> color_code -> result image;
  distanceTransform : image -> distance_type -> Z -> result dmap
}.

End cv2.

(** ** core/segmentation.py *)

Module MushroomSegmenter.

Section WithLibraries.

Variable cv : cv2.external.

(** [skimage.feature.corner_peaks(image, min_distance=..,
    threshold_rel=.., indices=True)] *)
Variable corner_peaks : dmap -> Z -> float -> result (list peak).

(** The object: [self.settings] and [self._clahe]. *)
Record t : Type := mk {
  settings : Settings.t;
  _clahe : cv2.CLAHE cv
}.

(** A method that may raise and may leave the object changed. *)
Definition method (A : Type) : Type := t -> result A * t.

Definition ret {A : Type} (a : A) : method A := fun self => (Ok a, self).

Definition and_then {A B : Type} (m : method A) (k : A -> method B) : method B :=
  fun self =>
    match m self with
    | (Ok a, self') => k a self'
    | (Raise e, self') => (Raise e, self')
    end.

(** A method that only reads the object. *)
Definition reading {A : Type} (f : t -> result A) : method A :=
  fun self => (f self, self).

Notation "x <~ c1 ;; c2" := (and_then c1 (fun x => c2))
  (at level 61, c1 at next level, right associativity).

(** [__init__] *)
Definition __init__ (settings : Settings.t) : t :=
  mk settings
     (cv2.createCLAHE cv (Settings.clahe_clip_limit settings)
        (Settings.clahe_tile_size settings, Settings.clahe_tile_size settings)).

(** [self._clahe.apply(image)] *)
Definition _clahe_apply (img : image) : method image :=
  fun self =>
    let (r, clahe') := cv2.CLAHE_apply cv (_clahe self) img in
    (r, mk (settings self) clahe').

(** [_preprocess_image] *)
Definition _preprocess_image (img : bgr_image) : method image :=
  blurred <~ reading (fun self =>
    cv2.GaussianBlur cv img
      (Settings.gaussian_kernel_size (settings self),
       Settings.gaussian_kernel_size (settings self)) 0) ;;
  gray <~ reading (fun _ => cv2.cvtColor cv blurred cv2.COLOR_BGR2GRAY) ;;
  normalized <~ _clahe_apply gray ;;
  ret normalized.

(** [_remove_background] *)
Definition _remove_background (self : t) (img : image) : result image :=
  let binary :=
    cv2.threshold img (Settings.back_threshold (settings self)) 255
      cv2.THRESH_BINARY in
  kernel <- np.ones (Settings.morphology_kernel_size (settings self))
              (Settings.morphology_kernel_size (settings self)) ;;
  let iterations :=
    Z.max 1 (floordiv (Settings.min_diameter (settings self)) 3) in
  let opened := cv2.morphologyEx binary cv2.MORPH_OPEN kernel iterations in
  let dilated := cv2.dilate opened kernel 5 in
  Ok dilated.

(** [_compute_distance_transform] *)
Definition _compute_distance_transform (self : t) (img : image)
    : result dmap :=
  let binary :=
    if 2 <? Z.of_nat (length (np.unique img)) then
      cv2.threshold img (Settings.threshold (settings self)) 255
        cv2.THRESH_BINARY
    else img in
  cv2.distanceTransform cv binary cv2.DIST_L2 3.

(** [_find_local_maxima] *)
Definition _find_local_maxima (self : t) (distance_map : dmap)
    : result (list peak) :=
  corner_peaks distance_map
    (Settings.min_diameter (settings self))
    (Settings.peaks_rel_threshold (settings self)).

(** The body of the [for peak in peaks] loop, from the circles collected
    so far to the circles after this peak. *)
Definition extract_step (self : t) (coeff : float)
    (dist_map equalized_dist_map : dmap)
    (circles : list circle) (p : peak) : result (list circle) :=
  let '(y, x) := p in
  d1 <- np.get2 dist_map y x ;;
  radius1 <- int_of_float (fmul d1 coeff) ;;
  d2 <- np.get2 equalized_dist_map y x ;;
  radius2 <- int_of_float (fmul d2 coeff) ;;
  if floordiv (Settings.min_diameter (settings self)) 2 <=? radius1
  then Ok (circles ++ [(x, y, radius1, radius2)])
  else Ok circles.

Fixpoint for_each {A B : Type} (body : B -> A -> result B) (l : list A)
    (acc : B) : result B :=
  match l with
  | [] => Ok acc
  | a :: l' => acc' <- body acc a ;; for_each body l' acc'
  end.

(** The compensation coefficient
    [1 + (threshold - back_threshold) / (255 - back_threshold)]. *)
Definition compensation_coefficient (self : t) : result float :=
  q <- int_truediv
         (Settings.threshold (settings self)
          - Settings.back_threshold (settings self))
         (255 - Settings.back_threshold (settings self)) ;;
  int_add_float 1 q.

(** [_extract_circles] *)
Definition _extract_circles (self : t) (peaks : list peak)
    (dist_map equalized_dist_map : dmap) : result (list circle) :=
  coeff <- compensation_coefficient self ;;
  for_each (extract_step self coeff dist_map equalized_dist_map) peaks [].

(** [segment] *)
Definition segment (img : bgr_image) : method (list circle) :=
  preprocessed <~ _preprocess_image img ;;
  foreground_mask <~ reading (fun self =>
    _remove_background self preprocessed) ;;
  masked_image <~ reading (fun _ =>
    cv2.bitwise_and preprocessed preprocessed foreground_mask) ;;
  dist_map <~ reading (fun self =>
    _compute_distance_transform self masked_image) ;;
  equalized_image <~ _clahe_apply masked_image ;;
  equalized_dist_map <~ reading (fun self =>
    _compute_distance_transform self equalized_image) ;;
  peaks <~ reading (fun self =>
    _find_local_maxima self equalized_dist_map) ;;
  circles <~ reading (fun self =>
    _extract_circles self peaks dist_map equalized_dist_map) ;;
  ret circles.

(** A run of [segment] either stops at a stage that raises, or goes through
    every stage and returns what [_extract_circles] returns. *)
Inductive run (img : bgr_image) (self : t) : result (list circle) -> Prop :=
| run_stopped (e : exn) :
    fst (segment img self) = Raise e -> run img self (Raise e)
| run_extracted (self1 self2 : t) (preprocessed foreground_mask
      masked_image equalized_image : image) (dist_map equalized_dist_map : dmap)
      (peaks : list peak) :
    settings self1 = settings self ->
    settings self2 = settings self ->
    _preprocess_image img self = (Ok preprocessed, self1) ->
    _remove_background self1 preprocessed = Ok foreground_mask ->
    cv2.bitwise_and preprocessed preprocessed foreground_mask = Ok masked_image ->
    _compute_distance_transform self1 masked_image = Ok dist_map ->
    _clahe_apply masked_image self1 = (Ok equalized_image, self2) ->
    _compute_distance_transform self2 equalized_image = Ok equalized_dist_map ->
    _find_local_maxima self2 equalized_dist_map = Ok peaks ->
    run img self (_extract_circles self2 peaks dist_map equalized_dist_map).

End WithLibraries.

Arguments mk {cv} _ _.
Arguments settings {cv} _.
Arguments _clahe {cv} _.
Arguments ret {cv A} _ _.
Arguments and_then {cv A B} _ _ _.
Arguments reading {cv A} _ _.
Arguments _clahe_apply {cv} _ _.
Arguments _preprocess_image {cv} _ _.
Arguments _remove_background {cv} _ _.
Arguments _compute_distance_transform {cv} _ _.
Arguments _find_local_maxima {cv} _ _ _.
Arguments extract_step {cv} _ _ _ _ _ _.
Arguments compensation_coefficient {cv} _.
Arguments _extract_circles {cv} _ _ _ _.
Arguments segment {cv} _ _ _.
Arguments run {cv} _ _ _ _.

End MushroomSegmenter.

(** ** The peak finder *)

Module skimage.

Definition dist2 (p q : peak) : Z :=
  (fst p - fst q) * (fst p - fst q) + (snd p - snd q) * (snd p - snd q).

(** [p] and [q] are closer than [r] pixels (Euclidean, for [0 <= r]). *)
Definition closer_than (r : Z) (p q : peak) : bool :=
  dist2 p q <? r * r.

(** Every sample with its (row, column), in row-major order. *)
Definition positions (m : dmap) : list (peak * float) :=
  concat (mapi (fun i row => mapi (fun j v => ((i, j), v)) row) m).

(** [max(distance_map)] *)
Definition amax (m : dmap) : float :=
  match concat m with
  | [] => f0
  | v :: l => fold_left (fun acc w => if flt acc w then w else acc) l v
  end.

Definition all_zero (m : dmap) : bool :=
  forallb (forallb (fun v => feq v f0)) m.

(** No sample within the radius is higher. *)
Definition local_maximum (m : dmap) (r : Z) (pv : peak * float) : bool :=
  forallb (fun qw => negb (closer_than r (fst pv) (fst qw))
                     || negb (flt (snd pv) (snd qw)))
          (positions m).

(** Highest value first; equal values stay in row-major order. *)
Fixpoint insert_by_value (x : peak * float) (l : list (peak * float))
    : list (peak * float) :=
  match l with
  | [] => [x]
  | y :: l' => if flt (snd x) (snd y) then y :: insert_by_value x l'
               else x :: l
  end.

Definition by_value (l : list (peak * float)) : list (peak * float) :=
  fold_right insert_by_value [] l.

(** Non-maximum suppression: a candidate is kept unless a peak kept
    before it is closer than [r]. *)
Fixpoint suppress (r : Z) (candidates kept : list peak) : list peak :=
  match candidates with
  | [] => kept
  | p :: rest =>
      if forallb (fun q => negb (closer_than r p q)) kept
      then suppress r rest (kept ++ [p])
      else suppress r rest kept
  end.

(** Modelled from the spec: [skimage.feature.corner_peaks] is library code
    outside the repository; this is the Peak Finder of the specification's
    section 4.4.  A peak is a sample that no sample within [min_distance]
    exceeds and whose value is at least [threshold_rel * max(image)];
    among candidates closer than [min_distance] the highest is kept, the
    first in row-major order on equal values; peaks come in the order of
    discovery; an all-zero map has no peak. *)
Definition corner_peaks (image : dmap) (min_distance : Z)
    (threshold_rel : float) : result (list peak) :=
  if all_zero image then Ok []
  else
    let threshold := fmul threshold_rel (amax image) in
    let candidates :=
      filter (fun pv => fle threshold (snd pv)
                        && local_maximum image min_distance pv)
             (positions image) in
    Ok (suppress min_distance (map fst (by_value candidates)) []).

End skimage.

(** ** A small executable backend

    It stands in for OpenCV where the pipeline is run on concrete inputs:
    the blur is the 1x1 kernel only (the identity), the grey conversion is
    the 8-bit fixed-point luma sum, the CLAHE object equalises the global
    histogram and keeps its last look-up table as a buffer, and the
    distance transform is the exact Euclidean one. *)

Module TestBackend.

Record clahe : Type := mk_clahe {
  clip_limit : float;
  tiles : Z * Z;
  lut_buffer : list Z
}.

Definition create (clip : float) (grid : Z * Z) : clahe :=
  mk_clahe clip grid [].

Definition count_le (v : Z) (l : list Z) : Z :=
  Z.of_nat (length (filter (fun w => w <=? v) l)).

(** The equalisation table of an image, on the levels 0..255. *)
Definition equalization_table (img : image) : list Z :=
  let l := concat img in
  let n := Z.of_nat (length l) in
  let lowest := fold_right Z.min 255 l in
  let c0 := count_le lowest l in
  map (fun k => let v := Z.of_nat k in
                if n - c0 =? 0 then v
                else (2 * 255 * (count_le v l - c0) + (n - c0))
                     / (2 * (n - c0)))
      (seq 0 256).

Definition apply (o : clahe) (img : image) : result image * clahe :=
  match concat img with
  | [] => (Raise cv2_error, o)
  | _ =>
      let table := equalization_table img in
      (Ok (map (map (fun v => nth (Z.to_nat v) table 0)) img),
       mk_clahe (clip_limit o) (tiles o) table)
  end.

Definition blur (img : bgr_image) (ksize : Z * Z) (sigma : Z)
    : result bgr_image :=
  if (fst ksize =? 1) && (snd ksize =? 1) then Ok img else Raise cv2_error.

Definition gray (img : bgr_image) (_ : cv2.color_code) : result image :=
  Ok (map (map (fun '(b, g, r) =>
                  Z.shiftr (b * 1868 + g * 9617 + r * 4899 + 8192) 14)) img).

(** The coordinates of the zero samples. *)
Definition zeros (img : image) : list peak :=
  concat (mapi (fun i row =>
            concat (mapi (fun j v => if v =? 0 then [(i, j)] else []) row))
          img).

Definition far_away : float := S754_finite false 4503599627370496 75.

Definition distance (zs : list peak) (i j v : Z) : float :=
  if v =? 0 then f0
  else match zs with
       | [] => far_away
       | z :: zs' =>
           let d2 := fold_right (fun q acc => Z.min (skimage.dist2 (i, j) q) acc)
                       (skimage.dist2 (i, j) z) zs' in
           fsqrt (binary_normalize prec emax d2 0 false)
       end.

Definition distance_transform (img : image) (_ : cv2.distance_type)
    (mask_size : Z) : result dmap :=
  match concat img with
  | [] => Raise cv2_error
  | _ => Ok (mapi (fun i row => mapi (fun j v => distance (zeros img) i j v) row)
               img)
  end.

Definition opencv : cv2.external := {|
  cv2.CLAHE := clahe;
  cv2.createCLAHE := create;
  cv2.CLAHE_apply := apply;
  cv2.CLAHE_getClipLimit := clip_limit;
  cv2.CLAHE_getTilesGridSize := tiles;
  cv2.GaussianBlur := blur;
  cv2.cvtColor := gray;
  cv2.distanceTransform := distance_transform
|}.

(** A grey picture as a BGR image. *)
Definition of_gray (img : image) : bgr_image :=
  map (map (fun v => (v, v, v))) img.

End TestBackend.

(** ** Definitions the statements use *)

(** [1 + (threshold - back_threshold) / (255 - back_threshold)] as a
    function of the two thresholds. *)
Definition coefficient (threshold back_threshold : Z) : result float :=
  q <- int_truediv (threshold - back_threshold) (255 - back_threshold) ;;
  int_add_float 1 q.

(** [0, 1, .., n - 1] *)
Definition range (n : nat) : list Z := map Z.of_nat (seq 0 n).

(** A float that is [+0.0] or finite and positive. *)
Definition plus_zero_or_positive (x : float) : bool :=
  match x with
  | S754_zero false => true
  | S754_finite false _ _ => true
  | _ => false
  end.


(** ** The Circle Extractor in the specification's words

    Section 4.5: one coefficient per run; for each peak [(y, x)] the two
    radii are the rounded products of the maps' values with it; a circle
    [(x, y, radius1, radius2)] is emitted, in the peaks' order, when
    [radius1 >= min_diameter // 2].  The rounding is an argument: the
    specification says [floor], the code calls [int]. *)

Definition circle_of_peak (rounding : float -> result Z) (coeff : float)
    (raw_map equalized_map : dmap) (p : peak) : result circle :=
  let '(y, x) := p in
  d1 <- np.get2 raw_map y x ;;
  r1 <- rounding (fmul d1 coeff) ;;
  d2 <- np.get2 equalized_map y x ;;
  r2 <- rounding (fmul d2 coeff) ;;
  Ok (x, y, r1, r2).

Fixpoint map_result {A B : Type} (f : A -> result B) (l : list A)
    : result (list B) :=
  match l with
  | [] => Ok []
  | a :: l' => b <- f a ;; bs <- map_result f l' ;; Ok (b :: bs)
  end.

Definition extract_circles_spec (rounding : float -> result Z)
    (s : Settings.t) (peaks : list peak) (raw_map equalized_map : dmap)
    : result (list circle) :=
  coeff <- coefficient (Settings.threshold s) (Settings.back_threshold s) ;;
  cs <- map_result (circle_of_peak rounding coeff raw_map equalized_map) peaks ;;
  Ok (filter (fun c => floordiv (Settings.min_diameter s) 2 <=? radius1 c) cs).

(** A sample of a binary mask. *)
Definition binary_sample (v : Z) : Prop := v = 0 \/ v = 255.

(** ** The Distance Mapper's input in the specification's words *)

(** The image holds more than two distinct intensity levels. *)
Definition more_than_two_levels (img : image) : Prop :=
  exists a b c,
    In a (concat img) /\ In b (concat img) /\ In c (concat img) /\
    a <> b /\ a <> c /\ b <> c.

(** Section 4.3: binarised at [threshold] when there are more than two
    levels, taken as it is otherwise. *)
Definition binarized_input (s : Settings.t) (img binary : image) : Prop :=
  (more_than_two_levels img /\
   binary = cv2.threshold img (Settings.threshold s) 255 cv2.THRESH_BINARY) \/
  (~ more_than_two_levels img /\ binary = img).

(** The contract of [cv2.distanceTransform] for the zero samples: the
    distance to the nearest zero sample is 0 there. *)
Definition background_maps_to_zero (cv : cv2.external) : Prop :=
  forall img dt k m,
    cv2.distanceTransform cv img dt k = Ok m ->
    forall i j, sample img i j = Some 0 ->
                exists z, sample m i j = Some z /\ feq z f0 = true.

(** ** Repeated runs *)

(** The contract of a CLAHE object: the image [apply] returns is determined
    by the object's clip limit and tile grid and by the input, whatever its
    buffers hold, and [apply] leaves both parameters as they are. *)
Definition clahe_determined_by_parameters (cv : cv2.external) : Prop :=
  forall (o o' : cv2.CLAHE cv) (img : image),
    cv2.CLAHE_getClipLimit cv o = cv2.CLAHE_getClipLimit cv o' ->
    cv2.CLAHE_getTilesGridSize cv o = cv2.CLAHE_getTilesGridSize cv o' ->
    fst (cv2.CLAHE_apply cv o img) = fst (cv2.CLAHE_apply cv o' img) /\
    cv2.CLAHE_getClipLimit cv (snd (cv2.CLAHE_apply cv o img))
    = cv2.CLAHE_getClipLimit cv o /\
    cv2.CLAHE_getTilesGridSize cv (snd (cv2.CLAHE_apply cv o img))
    = cv2.CLAHE_getTilesGridSize cv o.

(** Two states of a segmenter with the same configuration and the same
    CLAHE parameters. *)
Definition same_configuration {cv : cv2.external}
    (self self' : MushroomSegmenter.t cv) : Prop :=
  MushroomSegmenter.settings self = MushroomSegmenter.settings self' /\
  cv2.CLAHE_getClipLimit cv (MushroomSegmenter._clahe self)
  = cv2.CLAHE_getClipLimit cv (MushroomSegmenter._clahe self') /\
  cv2.CLAHE_getTilesGridSize cv (MushroomSegmenter._clahe self)
  = cv2.CLAHE_getTilesGridSize cv (MushroomSegmenter._clahe self').

(** A method whose result depends on the object through its configuration
    only, and which leaves the configuration as it is. *)
Definition configuration_only {cv : cv2.external} {A : Type}
    (m : MushroomSegmenter.method cv A) : Prop :=
  forall self self',
    same_configuration self self' ->
    fst (m self) = fst (m self') /\
    same_configuration self (snd (m self)) /\
    same_configuration self' (snd (m self')).

(** ** The value of a float, and rounding on integers

    A finite float [(s, m, e)] is the number [(-1)^s * m * 2^e].  At a scale
    [K] with [0 <= e + K] it is the integer [(-1)^s * m * 2^(e + K)]. *)

Definition femin : Z := SpecFloat.emin prec emax.

Definition scaled (K : Z) (x : float) : Z :=
  match x with
  | S754_finite s m e =>
      let v := Z.pos m * 2 ^ (e + K) in if s then - v else v
  | _ => 0
  end.





(** A zero or a finite float in canonical form. *)
Definition finite_canonical (x : float) : bool :=
  match x with
  | S754_zero _ => true
  | S754_finite _ m e => bounded prec emax m e
  | _ => false
  end.

(** ** The coefficients of all configurations

    For a [back_threshold], the coefficients of the thresholds 0..255, each
    with its threshold. *)
Definition coefficient_row (b : Z) : list (Z * result float) :=
  map (fun t => (t, coefficient t b)) (range 256).

(** The exponent of a finite float is at least [lo]. *)
Definition exponent_at_least (lo : Z) (x : float) : bool :=
  match x with
  | S754_finite _ _ e => lo <=? e
  | _ => true
  end.

(** An entry is computed, canonical with an exponent of at least [-64],
    and not negative from [2 * b - 255] on. *)
Definition entry_ok (b : Z) (e : Z * result float) : bool :=
  match snd e with
  | Ok c =>
      finite_canonical c && exponent_at_least (-64) c
      && (if 2 * b - 255 <=? fst e then plus_zero_or_positive c else true)
  | Raise _ => false
  end.

(** From an entry to the next the value grows. *)
Definition step_ok (p : (Z * result float) * (Z * result float)) : bool :=
  match snd (fst p), snd (snd p) with
  | Ok c1, Ok c2 => scaled 64 c1 <? scaled 64 c2
  | _, _ => false
  end.

Definition row_ok (b : Z) : bool :=
  let row := coefficient_row b in
  forallb (entry_ok b) row && forallb step_ok (combine row (tl row)).

(** The value of the coefficient at scale 64, 0 where there is none. *)
Definition coefficient_value (b t : Z) : Z :=
  match coefficient t b with
  | Ok c => scaled 64 c
  | Raise _ => 0
  end.


(** ** Inputs the examples run on *)

Module Examples.


Definition settings_with (back_threshold threshold min_diameter : Z)
    (peaks_rel_threshold : float) : Settings.t :=
  Settings.mk back_threshold threshold min_diameter peaks_rel_threshold
    1 Settings.default_clahe_clip_limit 8 3
    (255, 0, 0) (0, 255, 0) (0, 0, 255) 2.

Definition segmenter (s : Settings.t) : MushroomSegmenter.t TestBackend.opencv :=
  MushroomSegmenter.__init__ TestBackend.opencv s.

(** A 3x3 map that is [centre] in the middle and 0 around it. *)
Definition dot (centre : float) : dmap :=
  [[f0; f0; f0]; [f0; centre; f0]; [f0; f0; f0]].

(** An [n] x [n] grey picture: [v] on the square [lo..hi] x [lo..hi], [bg]
    elsewhere. *)
Definition square (n lo hi : nat) (v bg : Z) : image :=
  map (fun i =>
         map (fun j =>
                if (Nat.leb lo i && Nat.leb i hi && Nat.leb lo j && Nat.leb j hi)%bool
                then v else bg) (seq 0 n)) (seq 0 n).


(** An all-black BGR picture. *)
Definition black (rows cols : nat) : bgr_image :=
  repeat (repeat (0, 0, 0) cols) rows.


(** A configuration that asks for even kernel sizes (4 and 2), and the
    settings [Settings.init] builds from it (5 and 3). *)
Definition even_kernels_configured : Settings.configured :=
  Settings.mk_configured None None None None (Some 4) None None (Some 2)
    None None None None.

Definition even_kernels_constructed : Settings.t :=
  Settings.mk 100 150 30 Settings.default_peaks_rel_threshold 5
    Settings.default_clahe_clip_limit 8 3 (255, 0, 0) (0, 255, 0) (0, 0, 255) 2.

(** The configuration whose only override is [back_threshold = 255]. *)
Definition back_threshold_255 : Settings.configured :=
  Settings.mk_configured (Some 255) None None None None None None None
    None None None None.

End Examples.

(** ** What the constructor accepts *)

(** A configured value satisfies [p]; a field left out always does. *)
Definition given_in {A : Type} (p : A -> bool) (given : option A) : bool :=
  match given with
  | Some v => p v
  | None => true
  end.

(** Every configured value lies within the bounds its field declares
    ([ge], [le]); [gaussian_kernel_size] and the colours declare none. *)
Definition accepted (c : Settings.configured) : bool :=
  given_in (fun v => (0 <=? v) && (v <=? 255)) (Settings.back_threshold_in c)
  && given_in (fun v => (0 <=? v) && (v <=? 255)) (Settings.threshold_in c)
  && given_in (fun v => 1 <=? v) (Settings.min_diameter_in c)
  && given_in (fun v => fle f0 v && fle v f1)
       (Settings.peaks_rel_threshold_in c)
  && given_in (fun v => fle f0 v) (Settings.clahe_clip_limit_in c)
  && given_in (fun v => 1 <=? v) (Settings.clahe_tile_size_in c)
  && given_in (fun v => 1 <=? v) (Settings.morphology_kernel_size_in c)
  && given_in (fun v => 1 <=? v) (Settings.line_thickness_in c).

(** The field of the constructed object is the configured value, or the
    default where none was configured. *)
Definition kept {A : Type} (given : option A) (default constructed : A)
    : Prop :=
  constructed = match given with Some v => v | None => default end.

(** The configuration that sets every field to the value an object
    holds. *)
Definition as_configured (s : Settings.t) : Settings.configured :=
  Settings.mk_configured
    (Some (Settings.back_threshold s)) (Some (Settings.threshold s))
    (Some (Settings.min_diameter s)) (Some (Settings.peaks_rel_threshold s))
    (Some (Settings.gaussian_kernel_size s))
    (Some (Settings.clahe_clip_limit s)) (Some (Settings.clahe_tile_size s))
    (Some (Settings.morphology_kernel_size s))
    (Some (Settings.center_color s)) (Some (Settings.radius1_color s))
    (Some (Settings.radius2_color s)) (Some (Settings.line_thickness s)).

(** ** Peaks and circles *)

(** The peak [(y, x)] a circle [(x, y, radius1, radius2)] is centred at. *)
Definition centre (c : circle) : peak := let '(x, y, _, _) := c in (y, x).

(** [l1] is [l2] with some elements left out, the others in their order. *)
Inductive subsequence {A : Type} : list A -> list A -> Prop :=
| subsequence_nil : subsequence [] []
| subsequence_skip (a : A) (l1 l2 : list A) :
    subsequence l1 l2 -> subsequence l1 (a :: l2)
| subsequence_keep (a : A) (l1 l2 : list A) :
    subsequence l1 l2 -> subsequence (a :: l1) (a :: l2).

(** [(y, x)] indexes inside a two-dimensional array, counting from the
    start or, with a negative index, from the end. *)
Definition inside {A : Type} (a : list (list A)) (p : peak) : bool :=
  (- Z.of_nat (length a) <=? fst p) && (fst p <? Z.of_nat (length a))
  && (- Z.of_nat (length (hd [] a)) <=? snd p)
  && (snd p <? Z.of_nat (length (hd [] a))).

(** The contract of [cv2.distanceTransform] for the dimensions: the map
    has the dimensions of the image. *)
Definition distance_map_has_dims (cv : cv2.external) : Prop :=
  forall img dt k m,
    cv2.distanceTransform cv img dt k = Ok m -> dims m = dims img.

(** The contract of [corner_peaks] for the coordinates: a peak is a
    position of the map, counted from the start. *)
Definition peaks_not_negative
    (corner_peaks : dmap -> Z -> float -> result (list peak)) : Prop :=
  forall m min_distance threshold_rel peaks,
    corner_peaks m min_distance threshold_rel = Ok peaks ->
    Forall (fun p => 0 <= fst p /\ 0 <= snd p) peaks.

(** ** Well-formed input of the extractor *)






(** Two configurations that agree on every field the pipeline reads; the
    colours and the line thickness may differ. *)
Definition same_processing (s s' : Settings.t) : Prop :=
  Settings.back_threshold s = Settings.back_threshold s' /\
  Settings.threshold s = Settings.threshold s' /\
  Settings.min_diameter s = Settings.min_diameter s' /\
  Settings.peaks_rel_threshold s = Settings.peaks_rel_threshold s' /\
  Settings.gaussian_kernel_size s = Settings.gaussian_kernel_size s' /\
  Settings.clahe_clip_limit s = Settings.clahe_clip_limit s' /\
  Settings.clahe_tile_size s = Settings.clahe_tile_size s' /\
  Settings.morphology_kernel_size s = Settings.morphology_kernel_size s'.

(** ** Images in order *)

(** Two images of the same dimensions, the first nowhere brighter. *)
Definition image_le (a b : image) : Prop := Forall2 (Forall2 Z.le) a b.

(** [p] holds of the elements of two lists of the same length, pair by
    pair. *)
Fixpoint forall2b {A B : Type} (p : A -> B -> bool) (l : list A) (l' : list B)
    : bool :=
  match l, l' with
  | [], [] => true
  | a :: l, b :: l' => p a b && forall2b p l l'
  | _, _ => false
  end.

(** [image_le], decided. *)
Definition image_leb (a b : image) : bool := forall2b (forall2b Z.leb) a b.

(** ** The ends of the coefficient's range *)

(** [2.0] *)
Definition f2 : float := S754_finite false 4503599627370496 (-51).

(** Two floats with the same sign, mantissa and exponent. *)
Definition same_float (x y : float) : bool :=
  match x, y with
  | S754_zero s, S754_zero s' => Bool.eqb s s'
  | S754_infinity s, S754_infinity s' => Bool.eqb s s'
  | S754_nan, S754_nan => true
  | S754_finite s m e, S754_finite s' m' e' =>
      Bool.eqb s s' && Pos.eqb m m' && (e =? e')
  | _, _ => false
  end.

(** The computation returns the float [x]. *)
Definition returns_float (x : float) (r : result float) : bool :=
  match r with
  | Ok y => same_float x y
  | Raise _ => false
  end.

(** With [threshold = 255] the coefficient is [2.0]. *)
Definition coefficient_top (b : Z) : bool :=
  returns_float f2 (coefficient 255 b).

(** ** utils/validators.py: [validate_parameters]

    A Python value is [None], a [bool], an [int], a [float] or a [str]; a
    [dict] with [str] keys is the list of its items in insertion order. *)

Module validators.

Import String.

Inductive value : Type :=
| VNone
| VBool (b : bool)
| VInt (n : Z)
| VFloat (x : float)
| VStr (s : string).

Definition dict : Type := list (string * value).

(** [d.get(key)]: the value at [key], if [key in d]. *)
Fixpoint get (key : string) (d : dict) : option value :=
  match d with
  | [] => None
  | (k, v) :: d' => if String.eqb k key then Some v else get key d'
  end.

(** [d[key] = v]: the item is replaced where it stands, or added at the
    end. *)
Fixpoint set (key : string) (v : value) (d : dict) : dict :=
  match d with
  | [] => [(key, v)]
  | (k, w) :: d' =>
      if String.eqb k key then (k, v) :: d' else (k, w) :: set key v d'
  end.

(** The integer of a value for which [isinstance(value, int)] holds:
    [bool] is a subclass of [int], [True] is 1 and [False] is 0. *)
Definition as_int (v : value) : option Z :=
  match v with
  | VBool b => Some (if b then 1 else 0)
  | VInt n => Some n
  | _ => None
  end.

Definition back_threshold : string := "back_threshold"%string.
Definition threshold : string := "threshold"%string.
Definition min_diameter : string := "min_diameter"%string.
Definition peaks_rel_threshold : string := "peaks_rel_threshold"%string.

(** The body of [for key in ["back_threshold", "threshold"]]. *)
Definition validate_threshold (settings : dict) (validated : dict)
    (key : string) : result dict :=
  match get key settings with
  | Some value =>
      match as_int value with
      | Some n =>
          if (0 <=? n) && (n <=? 255) then Ok (set key value validated)
          else Raise ValueError
      | None => Raise ValueError
      end
  | None => Ok validated
  end.

Definition validate_min_diameter (settings : dict) (validated : dict)
    : result dict :=
  match get min_diameter settings with
  | Some value =>
      match as_int value with
      | Some n =>
          if n <? 1 then Raise ValueError
          else Ok (set min_diameter value validated)
      | None => Raise ValueError
      end
  | None => Ok validated
  end.

(** [isinstance(value, (int, float))], [0 <= value <= 1] and
    [float(value)]. *)
Definition validate_peaks_rel_threshold (settings : dict) (validated : dict)
    : result dict :=
  match get peaks_rel_threshold settings with
  | Some value =>
      match as_int value, value with
      | Some n, _ =>
          if (0 <=? n) && (n <=? 1) then
            x <- float_of_int n ;;
            Ok (set peaks_rel_threshold (VFloat x) validated)
          else Raise ValueError
      | None, VFloat x =>
          if fle f0 x && fle x f1 then
            Ok (set peaks_rel_threshold (VFloat x) validated)
          else Raise ValueError
      | None, _ => Raise ValueError
      end
  | None => Ok validated
  end.

(** [validate_parameters] *)
Definition validate_parameters (settings : dict) : result dict :=
  validated <- MushroomSegmenter.for_each (validate_threshold settings)
                 [back_threshold; threshold] [] ;;
  validated <- validate_min_diameter settings validated ;;
  validated <- validate_peaks_rel_threshold settings validated ;;
  Ok validated.

(** The keys [validate_parameters] looks at, in the order it does. *)
Definition known_keys : list string :=
  [back_threshold; threshold; min_diameter; peaks_rel_threshold].

(** What the function requires of the value at a key it looks at. *)
Definition valid (key : string) (v : value) : bool :=
  if String.eqb key peaks_rel_threshold then
    match as_int v, v with
    | Some n, _ => (0 <=? n) && (n <=? 1)
    | None, VFloat x => fle f0 x && fle x f1
    | None, _ => false
    end
  else if String.eqb key min_diameter then
    match as_int v with
    | Some n => 1 <=? n
    | None => false
    end
  else
    match as_int v with
    | Some n => (0 <=? n) && (n <=? 255)
    | None => false
    end.

(** The value [validate_parameters] stores for a valid value: the value
    itself, but [float(value)] for [peaks_rel_threshold]. *)
Definition stored (key : string) (v : value) : value :=
  if String.eqb key peaks_rel_threshold then
    match as_int v with
    | Some n => VFloat (if n =? 0 then f0 else f1)
    | None => v
    end
  else v.

(** Every known key the dictionary holds has a valid value. *)
Definition all_valid (settings : dict) : bool :=
  forallb (fun key => match get key settings with
                      | Some v => valid key v
                      | None => true
                      end) known_keys.

(** The items [validate_parameters] returns for a dictionary it accepts. *)
Definition selected (settings : dict) : dict :=
  flat_map (fun key => match get key settings with
                       | Some v => [(key, stored key v)]
                       | None => []
                       end) known_keys.

End validators.

(** ** utils/io_handler.py: the text [ResultsExporter.to_csv] writes

    [csv.writer] in its default dialect joins the fields of a row with
    commas and ends the row with a carriage return and a line feed; a field
    that holds no comma, quote or line break is written as it is, an [int]
    as [str] prints it. *)

Module csv.

Import String Ascii.

Definition comma : ascii := Ascii false false true true false true false false.
Definition CR : ascii := Ascii true false true true false false false false.
Definition LF : ascii := Ascii false true false true false false false false.

(** [str(n)] for an [int]: the decimal digits, after a minus sign for a
    negative number. *)
Definition str (n : Z) : string :=
  DecimalString.NilZero.string_of_int (Z.to_int n).

(** [",".join(fields)] *)
Fixpoint join (fields : list string) : string :=
  match fields with
  | [] => EmptyString
  | [f] => f
  | f :: fields' => f ++ String comma (join fields')
  end.

(** [writer.writerow(fields)], as the text added to the file. *)
Definition writerow (fields : list string) : string :=
  join fields ++ String CR (String LF EmptyString).

Definition header_row : list string :=
  ["X"%string; "Y"%string; "Radius_1"%string; "Radius_2"%string].

Definition row_of_circle (c : circle) : list string :=
  let '(x, y, r1, r2) := c in [str x; str y; str r1; str r2].

(** [writer.writerows(circles)] *)
Definition writerows (circles : list circle) : string :=
  String.concat EmptyString (List.map (fun c => writerow (row_of_circle c)) circles).

(** The text of the file [to_csv(circles, path, header)] writes. *)
Definition to_csv_text (circles : list circle) (header : bool) : string :=
  (if header then writerow header_row else EmptyString) ++ writerows circles.

(** *** Reading the file back

    The pieces of a text between the occurrences of a character. *)
Fixpoint split (c : ascii) (s : string) : list string :=
  match s with
  | EmptyString => [EmptyString]
  | String a s' =>
      if Ascii.eqb a c then EmptyString :: split c s'
      else match split c s' with
           | [] => [String a EmptyString]
           | w :: ws => String a w :: ws
           end
  end.

(** A text without its last character, which has to be [c]. *)
Fixpoint chop (c : ascii) (s : string) : option string :=
  match s with
  | EmptyString => None
  | String a EmptyString => if Ascii.eqb a c then Some EmptyString else None
  | String a s' => option_map (String a) (chop c s')
  end.

(** [int(s)] for a decimal numeral. *)
Definition read_int (s : string) : option Z :=
  option_map Z.of_int (DecimalString.NilZero.int_of_string s).

(** A line (without its line feed) read as a row of four integers. *)
Definition read_row (line : string) : option circle :=
  match chop CR line with
  | Some body =>
      match List.map read_int (split comma body) with
      | [Some x; Some y; Some r1; Some r2] => Some (x, y, r1, r2)
      | _ => None
      end
  | None => None
  end.

Fixpoint read_rows (lines : list string) : option (list circle) :=
  match lines with
  | [] => None
  | [last] => if String.eqb last EmptyString then Some [] else None
  | line :: lines' =>
      match read_row line, read_rows lines' with
      | Some c, Some cs => Some (c :: cs)
      | _, _ => None
      end
  end.

(** The circles of a file of rows ended by line feeds, after the header
    row when there is one. *)
Definition read_csv (text : string) (header : bool) : option (list circle) :=
  match split LF text, header with
  | lines, false => read_rows lines
  | first :: lines, true =>
      if String.eqb first (join header_row ++ String CR EmptyString)
      then read_rows lines else None
  | [], true => None
  end.

(** No character of [s] is [c]. *)
Fixpoint without (c : ascii) (s : string) : bool :=
  match s with
  | EmptyString => true
  | String a s' => negb (Ascii.eqb a c) && without c s'
  end.

End csv.

(** ** The application around the pipeline

    [utils/validators.py] (the two path validators),
    [utils/io_handler.py], [core/visualization.py] ([draw_circles],
    [display]) and [__main__.py].

    The file system, the windows and the process environment are outside
    the program: they are a state the calls below read and change, and
    what each call returns for a state is a field of [external].  Every
    call that changes the state is recorded in a log, in the order of the
    calls.  Logging ([logger.debug], [logger.info], [logger.error]) is left
    out. *)

Module host.

Import String.

(** The exceptions of the application: the ones of the pipeline, and the
    ones its input and output code raises or lets through. *)
Inductive exception : Type :=
| Builtin (e : exn)
| FileNotFoundError
| RuntimeError
| OSError.

Inductive outcome (A : Type) : Type :=
| Returned (a : A)
| Raised (e : exception).
Arguments Returned {A} a.
Arguments Raised {A} e.

Record external : Type := {
  (** [pathlib.Path]: [Path(s)], [str(path)], [path.suffix.lower()] *)
  path : Type;
  Path : String.string -> path;
  str : path -> String.string;
  suffix_lower : path -> String.string;
  state : Type;
  (** [path.exists()], [path.is_file()] *)
  path_exists : path -> state -> bool;
  path_is_file : path -> state -> bool;
  (** [path.parent.mkdir(parents=True, exist_ok=True)] *)
  mkdir_parent : path -> state -> outcome unit * state;
  (** [with open(path, "w", newline="") as f:] and the text written *)
  write_file : path -> String.string -> state -> outcome unit * state;
  (** [cv2.imread(filename)]: [None] when the file cannot be read *)
  imread : String.string -> state -> option bgr_image;
  (** [cv2.imwrite(filename, image)] *)
  imwrite : String.string -> bgr_image -> state -> outcome bool * state;
  (** [cv2.circle(image, center, radius, color, thickness)], the image
      after the call *)
  cv2_circle : bgr_image -> Z * Z -> Z -> Z * Z * Z -> Z -> result bgr_image;
  (** [cv2.imshow], [cv2.waitKey], [cv2.destroyAllWindows] *)
  imshow : String.string -> bgr_image -> state -> outcome unit * state;
  waitKey : Z -> state -> outcome Z * state;
  destroyAllWindows : state -> outcome unit * state;
  (** What the environment variables and the [.env] file configure, and
      what they configure with [_env_file=file]. *)
  environ : state -> Settings.configured;
  environ_with_file : String.string -> state -> Settings.configured
}.

Section WithHost.

Variable os : external.
Variable cv : cv2.external.
Variable corner_peaks : dmap -> Z -> float -> result (list peak).

Inductive event : Type :=
| MkdirParent (p : path os)
| WriteFile (p : path os) (text : String.string)
| Imwrite (filename : String.string) (image : bgr_image)
| Imshow (window_name : String.string) (image : bgr_image)
| WaitKey (delay : Z)
| DestroyAllWindows.

Record world : Type := mk_world {
  outside : state os;
  log : list event
}.

(** A computation that may raise and may change the world. *)
Definition io (A : Type) : Type := world -> outcome A * world.

Definition ret {A : Type} (a : A) : io A := fun w => (Returned a, w).

Definition and_then {A B : Type} (m : io A) (k : A -> io B) : io B :=
  fun w =>
    match m w with
    | (Returned a, w') => k a w'
    | (Raised e, w') => (Raised e, w')
    end.

Notation "x <~ c1 ;; c2" := (and_then c1 (fun x => c2))
  (at level 61, c1 at next level, right associativity).

(** A computation of the pipeline, which leaves the world as it is. *)
Definition lift {A : Type} (r : result A) : io A :=
  fun w => (match r with
            | Ok a => Returned a
            | Raise e => Raised (Builtin e)
            end, w).

Definition raise {A : Type} (e : exception) : io A := fun w => (Raised e, w).

(** A call that changes the state, recorded in the log. *)
Definition perform {A : Type} (e : event)
    (call : state os -> outcome A * state os) : io A :=
  fun w =>
    let (r, s) := call (outside w) in
    (r, mk_world s (log w ++ [e])).

(** A call that reads the state. *)
Definition inspect {A : Type} (f : state os -> A) : io A :=
  fun w => (Returned (f (outside w)), w).

(** *** utils/validators.py *)

Definition valid_extensions : list String.string :=
  [".jpg"%string; ".jpeg"%string; ".png"%string; ".bmp"%string;
   ".tiff"%string; ".tif"%string].

(** [validate_image_path] *)
Definition validate_image_path (path : String.string) : io (host.path os) :=
  let path := Path os path in
  found <~ inspect (path_exists os path) ;;
  if negb found then raise FileNotFoundError
  else
    is_file <~ inspect (path_is_file os path) ;;
    if negb is_file then raise (Builtin ValueError)
    else if negb (existsb (String.eqb (suffix_lower os path)) valid_extensions)
    then raise (Builtin ValueError)
    else ret path.

(** [validate_output_path]: whatever the creation of the directory
    raises is turned into [ValueError]. *)
Definition validate_output_path (path : String.string) : io (host.path os) :=
  let path := Path os path in
  fun w =>
    match perform (MkdirParent path) (mkdir_parent os path) w with
    | (Returned _, w') => (Returned path, w')
    | (Raised _, w') => (Raised (Builtin ValueError), w')
    end.

(** *** utils/io_handler.py *)

Definition SUPPORTED_FORMATS : list String.string :=
  [".jpg"%string; ".jpeg"%string; ".png"%string; ".bmp"%string;
   ".tiff"%string; ".tif"%string].

(** [ImageIO.load_image] *)
Definition load_image (path : host.path os) : io bgr_image :=
  if negb (existsb (String.eqb (suffix_lower os path)) SUPPORTED_FORMATS)
  then raise (Builtin ValueError)
  else
    image <~ inspect (imread os (str os path)) ;;
    match image with
    | None => raise RuntimeError
    | Some image => ret image
    end.

(** [ImageIO.save_image] *)
Definition save_image (image : bgr_image) (path : host.path os) : io unit :=
  _ <~ perform (MkdirParent path) (mkdir_parent os path) ;;
  success <~ perform (Imwrite (str os path) image)
               (imwrite os (str os path) image) ;;
  if negb success then raise RuntimeError else ret tt.

(** [ResultsExporter.to_csv] *)
Definition to_csv (circles : list circle) (path : host.path os)
    (header : bool) : io unit :=
  _ <~ perform (MkdirParent path) (mkdir_parent os path) ;;
  perform (WriteFile path (csv.to_csv_text circles header))
    (write_file os path (csv.to_csv_text circles header)).

(** *** config/settings.py in the world: [Settings()] and
    [Settings(_env_file=file)] *)

Definition Settings_from_environment : io Settings.t :=
  fun w => lift (Settings.init (environ os (outside w))) w.

Definition Settings_from_file (file : String.string) : io Settings.t :=
  fun w => lift (Settings.init (environ_with_file os file (outside w))) w.

(** *** core/visualization.py *)

(** [Visualizer.__init__]: [self.settings = settings or Settings()]. *)
Definition Visualizer (settings : option Settings.t) : io Settings.t :=
  match settings with
  | Some s => ret s
  | None => Settings_from_environment
  end.

(** The body of the loop of [draw_circles]. *)
Definition draw_circle (settings : Settings.t) (image : bgr_image)
    (c : circle) : result bgr_image :=
  let '(x, y, radius1, radius2) := c in
  image <- cv2_circle os image (x, y) 3 (Settings.center_color settings) (-1) ;;
  image <- cv2_circle os image (x, y) radius1 (Settings.radius1_color settings)
             (Settings.line_thickness settings) ;;
  cv2_circle os image (x, y) radius2 (Settings.radius2_color settings)
    (Settings.line_thickness settings).

(** [Visualizer.draw_circles], the image it returns.  With [copy] the
    circles are drawn on a copy of the argument and otherwise on the
    argument itself; the image returned holds the same samples. *)
Definition draw_circles (settings : Settings.t) (image : bgr_image)
    (circles : list circle) (copy : bool) : result bgr_image :=
  MushroomSegmenter.for_each (draw_circle settings) circles image.

(** [Visualizer.display] *)
Definition display (image : bgr_image) (window_name : String.string)
    (wait : bool) : io unit :=
  _ <~ perform (Imshow window_name image) (imshow os window_name image) ;;
  if wait then
    _ <~ perform (WaitKey 0) (waitKey os 0) ;;
    perform DestroyAllWindows (destroyAllWindows os)
  else ret tt.

(** *** __main__.py *)

(** The truth value of an optional string: [None] and the empty string
    are false. *)
Definition truthy (s : option String.string) : bool :=
  match s with
  | Some s => negb (String.eqb s String.EmptyString)
  | None => false
  end.

(** The four assignments of [cli] to the attributes of the settings,
    which are not validated. *)
Definition override (s : Settings.t) (back_threshold threshold
    min_diameter : Z) (peaks_threshold : float) : Settings.t :=
  Settings.mk back_threshold threshold min_diameter peaks_threshold
    (Settings.gaussian_kernel_size s) (Settings.clahe_clip_limit s)
    (Settings.clahe_tile_size s) (Settings.morphology_kernel_size s)
    (Settings.center_color s) (Settings.radius1_color s)
    (Settings.radius2_color s) (Settings.line_thickness s).

(** "Load configuration" and "Override with CLI arguments" *)
Definition cli_settings (config : option String.string) (back_threshold
    threshold min_diameter : Z) (peaks_threshold : float) : io Settings.t :=
  settings <~ Settings_from_environment ;;
  settings <~ (if truthy config
               then match config with
                    | Some file => Settings_from_file file
                    | None => ret settings
                    end
               else ret settings) ;;
  ret (override settings back_threshold threshold min_diameter
         peaks_threshold).

(** "Visualization" *)
Definition cli_visualization (image : bgr_image) (results : list circle)
    (visualize : bool) (save_visualization : option String.string)
    : io unit :=
  if visualize || truthy save_visualization then
    visualizer <~ Visualizer None ;;
    annotated_image <~ lift (draw_circles visualizer image results true) ;;
    _ <~ (if truthy save_visualization
          then match save_visualization with
               | Some file => save_image annotated_image (Path os file)
               | None => ret tt
               end
          else ret tt) ;;
    if visualize
    then display annotated_image "Mushroom Segmentation Results"%string true
    else ret tt
  else ret tt.

(** The body of the [try] statement of [cli]. *)
Definition cli_body (input_image output_csv : String.string)
    (visualize : bool) (save_visualization config : option String.string)
    (back_threshold threshold min_diameter : Z) (peaks_threshold : float)
    : io unit :=
  settings <~ cli_settings config back_threshold threshold min_diameter
                peaks_threshold ;;
  input_path <~ validate_image_path input_image ;;
  output_path <~ validate_output_path output_csv ;;
  image <~ load_image input_path ;;
  results <~ lift (fst (MushroomSegmenter.segment corner_peaks image
                          (MushroomSegmenter.__init__ cv settings))) ;;
  _ <~ to_csv results output_path true ;;
  cli_visualization image results visualize save_visualization.

(** How a run of the command ends: it returns, or leaves through
    [sys.exit(status)]. *)
Inductive ending : Type :=
| Completed
| Exited (status : Z).

(** [cli]: [except Exception] turns every exception of the body into
    [sys.exit(1)]. *)
Definition cli (input_image output_csv : String.string) (visualize : bool)
    (save_visualization config : option String.string)
    (back_threshold threshold min_diameter : Z) (peaks_threshold : float)
    : world -> ending * world :=
  fun w =>
    match cli_body input_image output_csv visualize save_visualization config
            back_threshold threshold min_diameter peaks_threshold w with
    | (Returned _, w') => (Completed, w')
    | (Raised _, w') => (Exited 1, w')
    end.

(** The events a computation added to the log of [w]. *)
Definition added (w w' : world) : list event :=
  skipn (List.length (log w)) (log w').

(** The event creates a directory: no file is written, no window shown. *)
Definition creates_directory (e : event) : bool :=
  match e with
  | MkdirParent _ => true
  | _ => false
  end.

(** The event is the writing of a text file. *)
Definition writes_file (e : event) : bool :=
  match e with
  | WriteFile _ _ => true
  | _ => false
  end.

(** Whatever [m] returns, the events it adds to the log satisfy [P]. *)
Definition logs {A : Type} (P : event -> bool) (m : io A) : Prop :=
  forall w, exists events,
    log (snd (m w)) = log w ++ events /\ forallb P events = true.

End WithHost.

Arguments MkdirParent {os} p.
Arguments WriteFile {os} p text.
Arguments Imwrite {os} filename image.
Arguments Imshow {os} window_name image.
Arguments WaitKey {os} delay.
Arguments DestroyAllWindows {os}.
Arguments mk_world {os} outside log.
Arguments outside {os} w.
Arguments log {os} w.
Arguments added {os} w w'.
Arguments creates_directory {os} e.
Arguments writes_file {os} e.
Arguments logs {os A} P m.

End host.

(** ** A small host

    It stands in for the file system and the windows where the command is
    run on a concrete input: one picture can be read, every directory can
    be created, the state is the list of the text files written, drawing
    leaves the image as it is and refuses a negative radius, and the
    environment configures a 1x1 blur. *)

Module TestHost.

Import String Ascii.

Definition picture_file : string := "mushrooms.png"%string.

Definition picture : bgr_image :=
  TestBackend.of_gray (Examples.square 11 4 6 200 0).

(** The part of a name from its last dot on. *)
Fixpoint suffix (s : string) : string :=
  match s with
  | EmptyString => EmptyString
  | String a s' =>
      match suffix s' with
      | EmptyString => if Ascii.eqb a "."%char then s else EmptyString
      | found => found
      end
  end.

Definition environment : Settings.configured :=
  Settings.mk_configured None None None None (Some 1) None None None
    None None None None.

Definition os : host.external := {|
  host.path := string;
  host.Path := fun s => s;
  host.str := fun p => p;
  host.suffix_lower := suffix;
  host.state := list (string * string);
  host.path_exists := fun p _ => String.eqb p picture_file;
  host.path_is_file := fun p _ => String.eqb p picture_file;
  host.mkdir_parent := fun _ files => (host.Returned tt, files);
  host.write_file := fun p text files => (host.Returned tt, (p, text) :: files);
  host.imread := fun s _ =>
    if String.eqb s picture_file then Some picture else None;
  host.imwrite := fun _ _ files => (host.Returned true, files);
  host.cv2_circle := fun image _ radius _ _ =>
    if radius <? 0 then Raise cv2_error else Ok image;
  host.imshow := fun _ _ files => (host.Returned tt, files);
  host.waitKey := fun _ files => (host.Returned 0, files);
  host.destroyAllWindows := fun files => (host.Returned tt, files);
  host.environ := fun _ => environment;
  host.environ_with_file := fun _ _ => environment
|}.

(** The world before anything has happened. *)
Definition start : host.world os := host.mk_world (os := os) [] [].

End TestHost.

(** * Properties *)

Import MushroomSegmenter.

(** ** Results *)

Lemma bind_Ok {A B : Type} (r : result A) (k : A -> result B) (b : B) :
  Py.bind r k = Ok b -> exists a, r = Ok a /\ k a = Ok b.
Proof.
  destruct r as [a | e]; simpl; intros H; [exists a; auto | discriminate].
Qed.

Lemma bind_Raise {A B : Type} (r : result A) (k : A -> result B) (e : exn) :
  Py.bind r k = Raise e ->
  r = Raise e \/ exists a, r = Ok a /\ k a = Raise e.
Proof.
  destruct r as [a | e']; simpl; intros H.
  - right. exists a. split; [reflexivity | exact H].
  - left. congruence.
Qed.

Lemma Ok_inj {A : Type} (a b : A) : Ok a = Ok b -> a = b.
Proof. intros H. injection H as ->. reflexivity. Qed.

Ltac bind_inv H :=
  let a := fresh "a" in
  let Ha := fresh "Ha" in
  apply bind_Ok in H; destruct H as (a & Ha & H).

(** ** Settings *)

Lemma pymod_2_even (v : Z) : (pymod v 2 =? 0) = Z.even v.
Proof.
  unfold pymod. rewrite Zeven_mod. reflexivity.
Qed.

Lemma validate_odd_kernel_size_even (v : Z) :
  Z.even v = true -> Settings.validate_odd_kernel_size v = v + 1.
Proof.
  intros H. unfold Settings.validate_odd_kernel_size.
  rewrite pymod_2_even, H. reflexivity.
Qed.

Lemma validate_odd_kernel_size_odd (v : Z) :
  Z.odd v = true -> Settings.validate_odd_kernel_size v = v.
Proof.
  intros H. unfold Settings.validate_odd_kernel_size.
  rewrite pymod_2_even. rewrite <- Z.negb_odd, H. reflexivity.
Qed.

Lemma validate_odd_kernel_size_is_odd (v : Z) :
  Z.odd (Settings.validate_odd_kernel_size v) = true.
Proof.
  unfold Settings.validate_odd_kernel_size. rewrite pymod_2_even.
  destruct (Z.even v) eqn:E.
  - rewrite Z.odd_add, <- Z.negb_even, E. reflexivity.
  - rewrite <- Z.negb_even, E. reflexivity.
Qed.

Lemma int_field_configured (d : Z) (ge le : option Z) (f : Z -> Z) (v r : Z) :
  Settings.int_field d ge le f (Some v) = Ok r ->
  r = f v /\
  (forall lo, ge = Some lo -> lo <= v) /\ (forall hi, le = Some hi -> v <= hi).
Proof.
  unfold Settings.int_field.
  destruct (_ && _) eqn:E; [| discriminate].
  intros H; injection H as <-.
  apply andb_true_iff in E. destruct E as [E1 E2].
  split; [reflexivity |]. split.
  - intros lo ->. lia.
  - intros hi ->. lia.
Qed.

Lemma int_field_range (d : Z) (ge le : option Z) (given : option Z) (r : Z) :
  Settings.int_field d ge le Settings.no_validator given = Ok r ->
  (forall lo, ge = Some lo -> lo <= d) ->
  (forall hi, le = Some hi -> d <= hi) ->
  (forall lo, ge = Some lo -> lo <= r) /\ (forall hi, le = Some hi -> r <= hi).
Proof.
  destruct given as [v |].
  - intros H _ _. apply int_field_configured in H.
    unfold Settings.no_validator in H. destruct H as (-> & H1 & H2). auto.
  - simpl. intros H; injection H as <-. auto.
Qed.

Lemma float_field_range (d : float) (ge le : option float)
    (given : option float) (r : float) :
  Settings.float_field d ge le given = Ok r ->
  (forall lo, ge = Some lo -> fle lo d = true) ->
  (forall hi, le = Some hi -> fle d hi = true) ->
  (forall lo, ge = Some lo -> fle lo r = true) /\
  (forall hi, le = Some hi -> fle r hi = true).
Proof.
  unfold Settings.float_field. destruct given as [v |].
  - destruct (_ && _) eqn:E; [| discriminate].
    intros H _ _; injection H as <-.
    apply andb_true_iff in E. destruct E as [E1 E2]. split.
    + intros lo ->. exact E1.
    + intros hi ->. exact E2.
  - intros H; injection H as <-. auto.
Qed.

Lemma init_fields (c : Settings.configured) (s : Settings.t) :
  Settings.init c = Ok s ->
  Settings.int_field 100 (Some 0) (Some 255) Settings.no_validator
    (Settings.back_threshold_in c) = Ok (Settings.back_threshold s) /\
  Settings.int_field 150 (Some 0) (Some 255) Settings.no_validator
    (Settings.threshold_in c) = Ok (Settings.threshold s) /\
  Settings.int_field 30 (Some 1) None Settings.no_validator
    (Settings.min_diameter_in c) = Ok (Settings.min_diameter s) /\
  Settings.float_field Settings.default_peaks_rel_threshold (Some f0) (Some f1)
    (Settings.peaks_rel_threshold_in c) = Ok (Settings.peaks_rel_threshold s) /\
  Settings.int_field 5 None None Settings.validate_odd_kernel_size
    (Settings.gaussian_kernel_size_in c) = Ok (Settings.gaussian_kernel_size s) /\
  Settings.float_field Settings.default_clahe_clip_limit (Some f0) None
    (Settings.clahe_clip_limit_in c) = Ok (Settings.clahe_clip_limit s) /\
  Settings.int_field 8 (Some 1) None Settings.no_validator
    (Settings.clahe_tile_size_in c) = Ok (Settings.clahe_tile_size s) /\
  Settings.int_field 3 (Some 1) None Settings.validate_odd_kernel_size
    (Settings.morphology_kernel_size_in c)
    = Ok (Settings.morphology_kernel_size s).
Proof.
  unfold Settings.init. intros H.
  repeat (let a := fresh "a" in let Ha := fresh "Ha" in
          apply bind_Ok in H; destruct H as (a & Ha & H)).
  injection H as <-. simpl. repeat split; assumption.
Qed.

Lemma init_in_declared_ranges (c : Settings.configured) (s : Settings.t) :
  Settings.init c = Ok s -> Settings.in_declared_ranges s.
Proof.
  intros H. apply init_fields in H.
  destruct H as (Hb & Ht & Hm & Hp & _ & Hc & Hs & Hk).
  unfold Settings.in_declared_ranges.
  apply int_field_range in Hb; [| intros ? [= <-]; lia | intros ? [= <-]; lia].
  apply int_field_range in Ht; [| intros ? [= <-]; lia | intros ? [= <-]; lia].
  apply int_field_range in Hm; [| intros ? [= <-]; lia | discriminate].
  apply int_field_range in Hs; [| intros ? [= <-]; lia | discriminate].
  apply float_field_range in Hp;
    [| intros ? [= <-]; reflexivity | intros ? [= <-]; reflexivity].
  apply float_field_range in Hc; [| intros ? [= <-]; reflexivity | discriminate].
  destruct Hb as [Hb1 Hb2], Ht as [Ht1 Ht2], Hm as [Hm _], Hs as [Hs _],
           Hp as [Hp1 Hp2], Hc as [Hc _].
  specialize (Hb1 _ eq_refl). specialize (Hb2 _ eq_refl).
  specialize (Ht1 _ eq_refl). specialize (Ht2 _ eq_refl).
  specialize (Hm _ eq_refl). specialize (Hs _ eq_refl).
  specialize (Hp1 _ eq_refl). specialize (Hp2 _ eq_refl).
  specialize (Hc _ eq_refl).
  repeat split; try assumption.
  destruct (Settings.morphology_kernel_size_in c) as [v |].
  - apply int_field_configured in Hk. destruct Hk as (-> & Hlo & _).
    specialize (Hlo _ eq_refl).
    unfold Settings.validate_odd_kernel_size. destruct (_ =? _); lia.
  - simpl in Hk. injection Hk as <-. lia.
Qed.

(** C9. Constructing the configuration turns an even configured
    [gaussian_kernel_size] or [morphology_kernel_size] [v] into [v + 1] and
    keeps an odd one; either way the constructed size is odd. *)
Theorem kernel_sizes_forced_odd :
  forall (c : Settings.configured) (s : Settings.t),
    Settings.init c = Ok s ->
    (forall v, Settings.gaussian_kernel_size_in c = Some v ->
       (Z.even v = true -> Settings.gaussian_kernel_size s = v + 1) /\
       (Z.odd v = true -> Settings.gaussian_kernel_size s = v) /\
       Z.odd (Settings.gaussian_kernel_size s) = true) /\
    (forall v, Settings.morphology_kernel_size_in c = Some v ->
       (Z.even v = true -> Settings.morphology_kernel_size s = v + 1) /\
       (Z.odd v = true -> Settings.morphology_kernel_size s = v) /\
       Z.odd (Settings.morphology_kernel_size s) = true).
Proof.
  intros c s H. apply init_fields in H.
  destruct H as (_ & _ & _ & _ & Hg & _ & _ & Hk).
  split; intros v Hv.
  - rewrite Hv in Hg. apply int_field_configured in Hg. destruct Hg as [-> _].
    split; [apply validate_odd_kernel_size_even |].
    split; [apply validate_odd_kernel_size_odd |].
    apply validate_odd_kernel_size_is_odd.
  - rewrite Hv in Hk. apply int_field_configured in Hk. destruct Hk as [-> _].
    split; [apply validate_odd_kernel_size_even |].
    split; [apply validate_odd_kernel_size_odd |].
    apply validate_odd_kernel_size_is_odd.
Qed.

Lemma kernel_sizes_forced_odd_witness :
  Settings.init Examples.even_kernels_configured = Ok Examples.even_kernels_constructed /\
  Settings.gaussian_kernel_size Examples.even_kernels_constructed = 4 + 1 /\
  Settings.morphology_kernel_size Examples.even_kernels_constructed = 2 + 1.
Proof.
  split; [reflexivity |].
  pose proof (kernel_sizes_forced_odd Examples.even_kernels_configured
                Examples.even_kernels_constructed eq_refl) as [Hg Hm].
  split.
  - apply (Hg 4 eq_refl). reflexivity.
  - apply (Hm 2 eq_refl). reflexivity.
Defined.

(** ** The orchestrator *)

Section Orchestrator.

Context {cv : cv2.external}.
Variable corner_peaks : dmap -> Z -> float -> result (list peak).

Lemma _clahe_apply_settings (img : image) (self : t cv) :
  settings (snd (_clahe_apply img self)) = settings self.
Proof.
  unfold _clahe_apply. destruct (cv2.CLAHE_apply cv (_clahe self) img). reflexivity.
Qed.

Lemma _preprocess_image_settings (img : bgr_image) (self : t cv) :
  settings (snd (_preprocess_image img self)) = settings self.
Proof.
  unfold _preprocess_image, and_then, reading, ret.
  destruct (cv2.GaussianBlur cv img _ 0) as [blurred |]; [| reflexivity].
  destruct (cv2.cvtColor cv blurred _) as [gray |]; [| reflexivity].
  pose proof (_clahe_apply_settings gray self) as H.
  destruct (_clahe_apply gray self) as [[normalized |] self']; exact H.
Qed.

Ltac stopped :=
  match goal with
  | |- run ?cp ?img ?self (fst (segment ?cp ?img ?self)) =>
      match goal with
      | E : _ = Raise ?e |- _ =>
          let H := fresh "H" in
          enough (H : fst (segment cp img self) = Raise e)
            by (rewrite H; apply run_stopped; exact H)
      | E : _ = (Raise ?e, _) |- _ =>
          let H := fresh "H" in
          enough (H : fst (segment cp img self) = Raise e)
            by (rewrite H; apply run_stopped; exact H)
      end
  end.

Lemma segment_run (img : bgr_image) (self : t cv) :
  run corner_peaks img self (fst (segment corner_peaks img self)).
Proof.
  pose proof (_preprocess_image_settings img self) as Hs1.
  destruct (_preprocess_image img self) as [[preprocessed | e] self1] eqn:E1.
  2:{ stopped. unfold segment, and_then. rewrite E1. reflexivity. }
  simpl in Hs1.
  destruct (_remove_background self1 preprocessed) as [mask | e] eqn:E2.
  2:{ stopped. unfold segment, and_then, reading.
      rewrite E1, E2. reflexivity. }
  destruct (cv2.bitwise_and preprocessed preprocessed mask)
    as [masked | e] eqn:E3.
  2:{ stopped. unfold segment, and_then, reading.
      rewrite E1, E2, E3. reflexivity. }
  destruct (_compute_distance_transform self1 masked) as [dm | e] eqn:E4.
  2:{ stopped. unfold segment, and_then, reading.
      rewrite E1, E2, E3, E4. reflexivity. }
  pose proof (_clahe_apply_settings masked self1) as Hs2.
  destruct (_clahe_apply masked self1) as [[equalized | e] self2] eqn:E5.
  2:{ stopped. unfold segment, and_then, reading.
      rewrite E1, E2, E3, E4, E5. reflexivity. }
  simpl in Hs2.
  destruct (_compute_distance_transform self2 equalized) as [edm | e] eqn:E6.
  2:{ stopped. unfold segment, and_then, reading.
      rewrite E1, E2, E3, E4, E5, E6. reflexivity. }
  destruct (_find_local_maxima corner_peaks self2 edm) as [peaks | e] eqn:E7.
  2:{ stopped. unfold segment, and_then, reading.
      rewrite E1, E2, E3, E4, E5, E6, E7. reflexivity. }
  replace (fst (segment corner_peaks img self))
    with (_extract_circles self2 peaks dm edm).
  - eapply run_extracted; eauto; congruence.
  - unfold segment, and_then, reading, ret.
    rewrite E1, E2, E3, E4, E5, E6, E7.
    destruct (_extract_circles self2 peaks dm edm); reflexivity.
Qed.

End Orchestrator.

(** ** The compensation coefficient *)

Lemma compensation_coefficient_eq {cv : cv2.external} (self : t cv) :
  compensation_coefficient self
  = coefficient (Settings.threshold (settings self))
      (Settings.back_threshold (settings self)).
Proof. reflexivity. Qed.

Lemma coefficient_255 (threshold : Z) :
  coefficient threshold 255 = Raise ZeroDivisionError.
Proof. reflexivity. Qed.

Lemma _extract_circles_255 {cv : cv2.external} (self : t cv)
    (peaks : list peak) (dist_map equalized_dist_map : dmap) :
  Settings.back_threshold (settings self) = 255 ->
  _extract_circles self peaks dist_map equalized_dist_map
  = Raise ZeroDivisionError.
Proof.
  intros H. unfold _extract_circles.
  rewrite compensation_coefficient_eq, H, coefficient_255. reflexivity.
Qed.

(** C10. With [back_threshold = 255], a value the configuration accepts,
    [_extract_circles] raises [ZeroDivisionError] whatever the peaks are
    (also for none), and [segment] raises: that error when the stages
    before the extractor all return. *)
Theorem back_threshold_255_raises :
  forall (cv : cv2.external)
         (corner_peaks : dmap -> Z -> float -> result (list peak))
         (self : t cv) (img : bgr_image),
    Settings.back_threshold (settings self) = 255 ->
    (forall peaks dist_map equalized_dist_map,
        _extract_circles self peaks dist_map equalized_dist_map
        = Raise ZeroDivisionError) /\
    (exists e, fst (segment corner_peaks img self) = Raise e) /\
    (forall self1 self2 preprocessed foreground_mask masked_image
            equalized_image dist_map equalized_dist_map peaks,
        _preprocess_image img self = (Ok preprocessed, self1) ->
        _remove_background self1 preprocessed = Ok foreground_mask ->
        cv2.bitwise_and preprocessed preprocessed foreground_mask
        = Ok masked_image ->
        _compute_distance_transform self1 masked_image = Ok dist_map ->
        _clahe_apply masked_image self1 = (Ok equalized_image, self2) ->
        _compute_distance_transform self2 equalized_image
        = Ok equalized_dist_map ->
        _find_local_maxima corner_peaks self2 equalized_dist_map = Ok peaks ->
        fst (segment corner_peaks img self) = Raise ZeroDivisionError) /\
    (exists s, Settings.init Examples.back_threshold_255 = Ok s /\
               Settings.back_threshold s = 255).
Proof.
  intros cv corner_peaks self img Hb.
  split; [intros; apply _extract_circles_255; exact Hb |].
  split; [| split].
  - destruct (segment_run corner_peaks img self) as [e He | self1 self2 ? ? ? ? ? ? ? Hs1 Hs2].
    + exists e. reflexivity.
    + exists ZeroDivisionError. apply _extract_circles_255. congruence.
  - intros self1 self2 pre mask masked eq dm edm peaks E1 E2 E3 E4 E5 E6 E7.
    unfold segment, and_then, reading, ret.
    rewrite E1, E2, E3, E4, E5, E6, E7.
    pose proof (_clahe_apply_settings masked self1) as Hs2.
    pose proof (_preprocess_image_settings img self) as Hs1.
    rewrite E5 in Hs2. rewrite E1 in Hs1. simpl in Hs1, Hs2.
    rewrite (_extract_circles_255 self2); [reflexivity | congruence].
  - eexists. split; reflexivity.
Qed.

Lemma back_threshold_255_raises_witness :
  (forall peaks dist_map equalized_dist_map,
      _extract_circles
        (Examples.segmenter
           (Examples.settings_with 255 150 30 Settings.default_peaks_rel_threshold))
        peaks dist_map equalized_dist_map
      = Raise ZeroDivisionError) /\
  fst (segment skimage.corner_peaks
         (TestBackend.of_gray (Examples.square 11 4 6 200 0))
         (Examples.segmenter
            (Examples.settings_with 255 150 30
               Settings.default_peaks_rel_threshold)))
  = Raise ZeroDivisionError.
Proof.
  pose proof (back_threshold_255_raises TestBackend.opencv skimage.corner_peaks
                (Examples.segmenter
                   (Examples.settings_with 255 150 30
                      Settings.default_peaks_rel_threshold))
                (TestBackend.of_gray (Examples.square 11 4 6 200 0))
                eq_refl) as (H1 & _ & _ & _).
  split; [exact H1 | vm_compute; reflexivity].
Defined.

(** ** Signs of floats *)

Lemma range_forallb (P : Z -> bool) (n : nat) :
  forallb P (range n) = true ->
  forall z, 0 <= z < Z.of_nat n -> P z = true.
Proof.
  intros H z Hz. unfold range in H. rewrite forallb_forall in H.
  apply H. apply in_map_iff. exists (Z.to_nat z). split; [lia |].
  apply in_seq. lia.
Qed.





(** ** The table of coefficients *)

(** Every row is checked by evaluation. *)
Lemma coefficient_table : forallb row_ok (range 255) = true.
Proof. vm_cast_no_check (@eq_refl bool true). Qed.

Lemma coefficient_row_ok (b : Z) :
  0 <= b < 255 ->
  forallb (entry_ok b) (coefficient_row b) = true /\
  forallb step_ok (combine (coefficient_row b) (tl (coefficient_row b))) = true.
Proof.
  intros Hb.
  assert (Hb' : 0 <= b < Z.of_nat 255) by lia.
  pose proof (range_forallb _ _ coefficient_table b Hb') as H.
  unfold row_ok in H. apply andb_true_iff in H. exact H.
Qed.

Lemma coefficient_entry_ok (b t : Z) :
  0 <= b < 255 -> 0 <= t <= 255 -> entry_ok b (t, coefficient t b) = true.
Proof.
  intros Hb Ht. destruct (coefficient_row_ok b Hb) as [H _].
  rewrite forallb_forall in H. apply H.
  unfold coefficient_row. apply in_map_iff. exists t. split; [reflexivity |].
  unfold range. apply in_map_iff. exists (Z.to_nat t).
  split; [lia | apply in_seq; lia].
Qed.


(** ** The extractor's loop *)







(** ** Rounding never invents a NaN *)








(** ** The test backend keeps the contracts *)

Lemma Forall_mapi_from {A B : Type} (P : B -> Prop) (f : Z -> A -> B)
    (l : list A) :
  (forall i a, In a l -> P (f i a)) -> forall i, Forall P (mapi_from f i l).
Proof.
  induction l as [| a l IH]; intros H i; simpl; constructor.
  - apply H. left. reflexivity.
  - apply IH. intros j b Hb. apply H. right. exact Hb.
Qed.




Lemma example_settings_in_declared_ranges (b t d : Z) :
  0 <= b <= 255 -> 0 <= t <= 255 -> 1 <= d ->
  Settings.in_declared_ranges
    (Examples.settings_with b t d Settings.default_peaks_rel_threshold).
Proof.
  intros Hb Ht Hd. unfold Settings.in_declared_ranges. simpl.
  repeat split; try lia; reflexivity.
Qed.



(** ** The extractor against the specification *)

Lemma extract_step_circle_of_peak {cv : cv2.external} (self : t cv)
    (coeff : float) (dist_map equalized_dist_map : dmap)
    (circles : list circle) (p : peak) :
  extract_step self coeff dist_map equalized_dist_map circles p
  = (c <- circle_of_peak int_of_float coeff dist_map equalized_dist_map p ;;
     Ok (circles
         ++ filter (fun c => floordiv (Settings.min_diameter (settings self)) 2
                             <=? radius1 c) [c])).
Proof.
  destruct p as [y x]. unfold extract_step, circle_of_peak.
  destruct (np.get2 dist_map y x) as [d1 |]; [simpl | reflexivity].
  destruct (int_of_float (fmul d1 coeff)) as [r1 |]; [simpl | reflexivity].
  destruct (np.get2 equalized_dist_map y x) as [d2 |]; [simpl | reflexivity].
  destruct (int_of_float (fmul d2 coeff)) as [r2 |]; [simpl | reflexivity].
  destruct (floordiv _ 2 <=? r1); [reflexivity |].
  rewrite app_nil_r. reflexivity.
Qed.

Lemma for_each_extract_step {cv : cv2.external} (self : t cv) (coeff : float)
    (dist_map equalized_dist_map : dmap) (peaks : list peak) :
  forall circles,
    for_each (extract_step self coeff dist_map equalized_dist_map) peaks circles
    = (cs <- map_result
               (circle_of_peak int_of_float coeff dist_map equalized_dist_map)
               peaks ;;
       Ok (circles
           ++ filter (fun c => floordiv (Settings.min_diameter (settings self)) 2
                               <=? radius1 c) cs)).
Proof.
  induction peaks as [| p peaks IH]; intros circles; simpl.
  - rewrite app_nil_r. reflexivity.
  - rewrite extract_step_circle_of_peak.
    destruct (circle_of_peak int_of_float coeff dist_map equalized_dist_map p)
      as [c |]; [simpl | reflexivity].
    rewrite IH.
    destruct (map_result _ peaks) as [cs |]; [simpl | reflexivity].
    rewrite <- app_assoc.
    destruct (floordiv _ 2 <=? radius1 c); reflexivity.
Qed.

Lemma _extract_circles_spec {cv : cv2.external} (self : t cv)
    (peaks : list peak) (dist_map equalized_dist_map : dmap) :
  _extract_circles self peaks dist_map equalized_dist_map
  = extract_circles_spec int_of_float (settings self) peaks dist_map
      equalized_dist_map.
Proof.
  unfold _extract_circles, extract_circles_spec.
  rewrite compensation_coefficient_eq.
  destruct (coefficient _ _) as [coeff |]; [simpl | reflexivity].
  rewrite for_each_extract_step. reflexivity.
Qed.









(** ** Arrays *)

Lemma mapi_from_length {A B : Type} (f : Z -> A -> B) (l : list A) :
  forall i, length (mapi_from f i l) = length l.
Proof.
  induction l as [| a l IH]; intros i; simpl; [reflexivity |].
  rewrite IH. reflexivity.
Qed.

Lemma mapi_from_nth_error {A B : Type} (f : Z -> A -> B) (l : list A) :
  forall i n,
    nth_error (mapi_from f i l) n
    = option_map (f (i + Z.of_nat n)) (nth_error l n).
Proof.
  induction l as [| a l IH]; intros i n; destruct n as [| n]; simpl;
    try reflexivity.
  - rewrite Z.add_0_r. reflexivity.
  - rewrite IH. replace (i + 1 + Z.of_nat n) with (i + Z.pos (Pos.of_succ_nat n))
      by lia. reflexivity.
Qed.

(** The sample of a map built position by position. *)
Lemma sample_mapi {A B : Type} (g : Z -> Z -> A -> B) (a : list (list A))
    (i j : Z) :
  sample (mapi (fun i row => mapi (fun j v => g i j v) row) a) i j
  = option_map (g i j) (sample a i j).
Proof.
  unfold sample, mapi.
  destruct ((0 <=? i) && (0 <=? j)) eqn:E; [| reflexivity].
  apply andb_true_iff in E. destruct E as [Ei Ej].
  apply Z.leb_le in Ei. apply Z.leb_le in Ej.
  rewrite mapi_from_nth_error.
  destruct (nth_error a (Z.to_nat i)) as [row |]; [simpl | reflexivity].
  rewrite mapi_from_nth_error.
  rewrite !Z.add_0_l, !Z2Nat.id by assumption. reflexivity.
Qed.

Lemma dims_mapi {A B : Type} (g : Z -> Z -> A -> B) (a : list (list A)) :
  dims (mapi (fun i row => mapi (fun j v => g i j v) row) a) = dims a.
Proof.
  unfold dims. unfold mapi at 1. generalize 0.
  induction a as [| row a IH]; intros i; simpl; [reflexivity |].
  unfold mapi at 1. rewrite mapi_from_length, IH. reflexivity.
Qed.

Lemma sample_Forall {A : Type} (P : A -> Prop) (a : list (list A)) (i j : Z)
    (v : A) :
  Forall (Forall P) a -> sample a i j = Some v -> P v.
Proof.
  intros Ha. unfold sample.
  destruct ((0 <=? i) && (0 <=? j)); [| discriminate].
  destruct (nth_error a (Z.to_nat i)) as [row |] eqn:Ei; [| discriminate].
  intros Ej.
  apply nth_error_In in Ei. apply nth_error_In in Ej.
  rewrite Forall_forall in Ha. specialize (Ha row Ei).
  rewrite Forall_forall in Ha. apply Ha. exact Ej.
Qed.

(** ** Thresholding and morphology *)

Lemma threshold_dims (src : image) (thresh maxval : Z)
    (ty : cv2.threshold_type) :
  dims (cv2.threshold src thresh maxval ty) = dims src.
Proof.
  unfold cv2.threshold, dims. rewrite map_map.
  apply map_ext. intros row. apply length_map.
Qed.

Lemma threshold_binary (src : image) (thresh : Z) (ty : cv2.threshold_type) :
  Forall (Forall binary_sample) (cv2.threshold src thresh 255 ty).
Proof.
  unfold cv2.threshold.
  apply Forall_map, Forall_forall. intros row _.
  apply Forall_map, Forall_forall. intros v _.
  unfold binary_sample. destruct (thresh <? v); auto.
Qed.

Section Morphology.

Variable P : Z -> Prop.
Variable op : Z -> Z -> Z.
Variable border : Z.
Hypothesis P_border : P border.
Hypothesis P_op : forall a b, P a -> P b -> P (op a b).

Lemma morph_sample_keeps (src : image) (offsets : list (Z * Z)) (i j : Z) :
  Forall (Forall P) src -> P (cv2.morph_sample op border src offsets i j).
Proof.
  intros Hsrc. unfold cv2.morph_sample.
  generalize border P_border.
  induction offsets as [| d offsets IH]; intros acc Hacc; simpl;
    [exact Hacc |].
  apply IH.
  destruct (sample src (i + fst d) (j + snd d)) as [v |] eqn:E; [| exact Hacc].
  apply P_op; [exact Hacc |]. apply (sample_Forall P src _ _ v Hsrc E).
Qed.

Lemma morph_pass_keeps (kernel src : image) :
  Forall (Forall P) src -> Forall (Forall P) (cv2.morph_pass op border kernel src).
Proof.
  intros Hsrc. unfold cv2.morph_pass, mapi.
  apply Forall_mapi_from. intros i row _.
  apply Forall_mapi_from. intros j v _.
  apply morph_sample_keeps. exact Hsrc.
Qed.

Lemma repeat_pass_keeps (kernel : image) (n : nat) :
  forall src,
    Forall (Forall P) src ->
    Forall (Forall P)
      (cv2.repeat_pass n (cv2.morph_pass op border kernel) src).
Proof.
  induction n as [| n IH]; intros src Hsrc; simpl; [exact Hsrc |].
  apply IH, morph_pass_keeps, Hsrc.
Qed.

Lemma repeat_pass_dims (kernel : image) (n : nat) :
  forall src,
    dims (cv2.repeat_pass n (cv2.morph_pass op border kernel) src) = dims src.
Proof.
  induction n as [| n IH]; intros src; simpl; [reflexivity |].
  rewrite IH. unfold cv2.morph_pass. apply dims_mapi.
Qed.

End Morphology.

Lemma binary_min (a b : Z) :
  binary_sample a -> binary_sample b -> binary_sample (Z.min a b).
Proof. unfold binary_sample. lia. Qed.

Lemma binary_max (a b : Z) :
  binary_sample a -> binary_sample b -> binary_sample (Z.max a b).
Proof. unfold binary_sample. lia. Qed.

Lemma erode_binary (src kernel : image) (n : Z) :
  Forall (Forall binary_sample) src ->
  Forall (Forall binary_sample) (cv2.erode src kernel n).
Proof.
  apply repeat_pass_keeps; [right; reflexivity | apply binary_min].
Qed.

Lemma dilate_binary (src kernel : image) (n : Z) :
  Forall (Forall binary_sample) src ->
  Forall (Forall binary_sample) (cv2.dilate src kernel n).
Proof.
  apply repeat_pass_keeps; [left; reflexivity | apply binary_max].
Qed.

Lemma erode_dims (src kernel : image) (n : Z) :
  dims (cv2.erode src kernel n) = dims src.
Proof. apply repeat_pass_dims. Qed.

Lemma dilate_dims (src kernel : image) (n : Z) :
  dims (cv2.dilate src kernel n) = dims src.
Proof. apply repeat_pass_dims. Qed.

(** C4. For every image and every configuration whose morphology kernel
    size is in its declared range, [_remove_background] returns a mask of
    the image's dimensions whose samples are all 0 or 255. *)
Theorem remove_background_binary :
  forall (cv : cv2.external) (self : t cv) (img : image),
    1 <= Settings.morphology_kernel_size (settings self) ->
    exists mask,
      _remove_background self img = Ok mask /\
      dims mask = dims img /\
      Forall (Forall (fun v => v = 0 \/ v = 255)) mask.
Proof.
  intros cv self img Hk. unfold _remove_background, np.ones.
  assert (E : (Settings.morphology_kernel_size (settings self) <? 0) = false)
    by (apply Z.ltb_ge; lia).
  rewrite E. simpl.
  eexists. split; [reflexivity |]. split.
  - unfold cv2.morphologyEx.
    rewrite !dilate_dims, erode_dims. apply threshold_dims.
  - apply dilate_binary. unfold cv2.morphologyEx.
    apply dilate_binary, erode_binary, threshold_binary.
Qed.

Lemma remove_background_binary_witness :
  exists mask,
    _remove_background
      (Examples.segmenter
         (Examples.settings_with 100 150 2 Settings.default_peaks_rel_threshold))
      (Examples.square 5 1 3 200 7) = Ok mask /\
    dims mask = dims (Examples.square 5 1 3 200 7) /\
    Forall (Forall (fun v => v = 0 \/ v = 255)) mask.
Proof.
  apply (remove_background_binary TestBackend.opencv
           (Examples.segmenter
              (Examples.settings_with 100 150 2
                 Settings.default_peaks_rel_threshold))
           (Examples.square 5 1 3 200 7)).
  simpl. lia.
Defined.

(** ** Distinct levels *)

Lemma insert_unique_In (v x : Z) (l : list Z) :
  In x (np.insert_unique v l) <-> x = v \/ In x l.
Proof.
  induction l as [| w l IH]; simpl.
  - intuition.
  - destruct (v <? w); [simpl; intuition |].
    destruct (v =? w) eqn:E.
    + apply Z.eqb_eq in E. subst w. simpl. intuition.
    + simpl. rewrite IH. intuition.
Qed.

Lemma insert_unique_sorted (v : Z) (l : list Z) :
  StronglySorted Z.lt l -> StronglySorted Z.lt (np.insert_unique v l).
Proof.
  induction l as [| w l IH]; intros Hl; simpl.
  - constructor; constructor.
  - inversion Hl as [| ? ? Hl' Hw]; subst.
    destruct (v <? w) eqn:E1.
    + apply Z.ltb_lt in E1. constructor; [exact Hl |].
      constructor; [exact E1 |].
      rewrite Forall_forall in *. intros x Hx. specialize (Hw x Hx). lia.
    + destruct (v =? w) eqn:E2; [exact Hl |].
      apply Z.ltb_ge in E1. apply Z.eqb_neq in E2.
      constructor; [apply IH; exact Hl' |].
      rewrite Forall_forall in *. intros x Hx.
      apply insert_unique_In in Hx. destruct Hx as [-> | Hx]; [lia | auto].
Qed.

Lemma unique_In (a : image) (x : Z) :
  In x (np.unique a) <-> In x (concat a).
Proof.
  unfold np.unique. induction (concat a) as [| v l IH]; simpl; [tauto |].
  rewrite insert_unique_In, IH. intuition.
Qed.

Lemma unique_sorted (a : image) : StronglySorted Z.lt (np.unique a).
Proof.
  unfold np.unique. induction (concat a) as [| v l IH]; simpl.
  - constructor.
  - apply insert_unique_sorted, IH.
Qed.

Lemma sorted_NoDup (l : list Z) : StronglySorted Z.lt l -> NoDup l.
Proof.
  induction 1 as [| x l Hl IH Hx]; constructor; [| exact IH].
  intros Hin. rewrite Forall_forall in Hx. specialize (Hx x Hin). lia.
Qed.

(** [len(np.unique(image)) > 2] says that the image holds more than two
    distinct levels. *)
Lemma unique_more_than_two (img : image) :
  (2 <? Z.of_nat (length (np.unique img))) = true <-> more_than_two_levels img.
Proof.
  pose proof (sorted_NoDup _ (unique_sorted img)) as Hnd.
  rewrite Z.ltb_lt. split.
  - intros Hlen.
    destruct (np.unique img) as [| a [| b [| c l]]] eqn:E;
      simpl in Hlen; try lia.
    assert (Ha : In a (np.unique img)) by (rewrite E; simpl; auto).
    assert (Hb : In b (np.unique img)) by (rewrite E; simpl; auto).
    assert (Hc : In c (np.unique img)) by (rewrite E; simpl; auto).
    apply unique_In in Ha, Hb, Hc.
    exists a, b, c. repeat (split; [assumption |]).
    inversion Hnd as [| ? ? Hna Hnd']; subst.
    inversion Hnd' as [| ? ? Hnb _]; subst.
    simpl in Hna, Hnb. intuition.
  - intros (a & b & c & Ha & Hb & Hc & Hab & Hac & Hbc).
    apply unique_In in Ha, Hb, Hc.
    assert (Hincl : incl [a; b; c] (np.unique img)).
    { intros x [<- | [<- | [<- | []]]]; assumption. }
    assert (Hnd3 : NoDup [a; b; c]).
    { repeat constructor; simpl; intuition. }
    pose proof (NoDup_incl_length Hnd3 Hincl) as Hlen. simpl in Hlen. lia.
Qed.

(** C5. [_compute_distance_transform] hands [cv2.distanceTransform] the
    image binarised at [threshold] exactly when the image holds more than
    two distinct levels, and the image itself otherwise; in the map it
    returns, every sample that is zero in that input is at distance 0 (the
    contract of [cv2.distanceTransform] for zero samples). *)
Theorem distance_mapper_binarizes :
  forall (cv : cv2.external) (self : t cv) (img : image),
    background_maps_to_zero cv ->
    exists binary,
      binarized_input (settings self) img binary /\
      _compute_distance_transform self img
      = cv2.distanceTransform cv binary cv2.DIST_L2 3 /\
      forall m,
        _compute_distance_transform self img = Ok m ->
        forall i j,
          sample binary i j = Some 0 ->
          exists z, sample m i j = Some z /\ feq z f0 = true.
Proof.
  intros cv self img Hcv. unfold _compute_distance_transform, binarized_input.
  pose proof (unique_more_than_two img) as Hu.
  destruct (2 <? Z.of_nat (length (np.unique img))) eqn:E.
  - exists (cv2.threshold img (Settings.threshold (settings self)) 255
              cv2.THRESH_BINARY).
    split; [left; split; [apply Hu; reflexivity | reflexivity] |].
    split; [reflexivity |].
    intros m Hm. apply (Hcv _ _ _ _ Hm).
  - exists img.
    split; [right; split; [| reflexivity] |].
    + intros H. apply Hu in H. discriminate.
    + split; [reflexivity |]. intros m Hm. apply (Hcv _ _ _ _ Hm).
Qed.

Lemma test_backend_background_maps_to_zero :
  background_maps_to_zero TestBackend.opencv.
Proof.
  intros img dt k m. simpl. unfold TestBackend.distance_transform.
  destruct (concat img); [discriminate |].
  intros H; injection H as <-. intros i j Hs.
  rewrite sample_mapi, Hs. simpl.
  exists f0. split; reflexivity.
Qed.

Lemma distance_mapper_binarizes_witness :
  exists binary,
    binarized_input
      (Examples.settings_with 100 150 2 Settings.default_peaks_rel_threshold)
      (Examples.square 5 1 3 200 7) binary /\
    _compute_distance_transform
      (Examples.segmenter
         (Examples.settings_with 100 150 2 Settings.default_peaks_rel_threshold))
      (Examples.square 5 1 3 200 7)
    = cv2.distanceTransform TestBackend.opencv binary cv2.DIST_L2 3 /\
    forall m,
      _compute_distance_transform
        (Examples.segmenter
           (Examples.settings_with 100 150 2
              Settings.default_peaks_rel_threshold))
        (Examples.square 5 1 3 200 7) = Ok m ->
      forall i j,
        sample binary i j = Some 0 ->
        exists z, sample m i j = Some z /\ feq z f0 = true.
Proof.
  apply (distance_mapper_binarizes TestBackend.opencv
           (Examples.segmenter
              (Examples.settings_with 100 150 2
                 Settings.default_peaks_rel_threshold))
           (Examples.square 5 1 3 200 7)).
  exact test_backend_background_maps_to_zero.
Defined.

(** ** The peak finder *)

Lemma dist2_sym (p q : peak) : skimage.dist2 p q = skimage.dist2 q p.
Proof. unfold skimage.dist2. ring. Qed.

Lemma closer_than_sym (r : Z) (p q : peak) :
  skimage.closer_than r p q = skimage.closer_than r q p.
Proof. unfold skimage.closer_than. rewrite dist2_sym. reflexivity. Qed.

Lemma ForallOrdPairs_snoc {A : Type} (R : A -> A -> Prop) (l : list A) (p : A) :
  ForallOrdPairs R l -> Forall (fun q => R q p) l ->
  ForallOrdPairs R (l ++ [p]).
Proof.
  induction 1 as [| a l Ha Hl IH]; intros Hp; simpl.
  - constructor; constructor.
  - inversion Hp as [| ? ? Hap Hp']; subst.
    constructor; [| apply IH; exact Hp'].
    apply Forall_app. split; [exact Ha | constructor; [exact Hap | constructor]].
Qed.

(** Suppression keeps the kept peaks apart and adds candidates only. *)
Lemma suppress_apart (r : Z) (candidates : list peak) :
  forall kept,
    ForallOrdPairs (fun p q => r * r <= skimage.dist2 p q) kept ->
    ForallOrdPairs (fun p q => r * r <= skimage.dist2 p q)
      (skimage.suppress r candidates kept).
Proof.
  induction candidates as [| p rest IH]; intros kept Hkept; simpl;
    [exact Hkept |].
  destruct (forallb _ kept) eqn:E; [| apply IH; exact Hkept].
  apply IH, ForallOrdPairs_snoc; [exact Hkept |].
  rewrite forallb_forall in E. apply Forall_forall. intros q Hq.
  specialize (E q Hq). apply negb_true_iff in E.
  rewrite closer_than_sym in E. unfold skimage.closer_than in E.
  apply Z.ltb_ge in E. exact E.
Qed.

Lemma suppress_incl (r : Z) (candidates : list peak) :
  forall kept p,
    In p (skimage.suppress r candidates kept) -> In p kept \/ In p candidates.
Proof.
  induction candidates as [| c rest IH]; intros kept p Hp; simpl in *;
    [left; exact Hp |].
  destruct (forallb _ kept); apply IH in Hp.
  - destruct Hp as [Hp | Hp]; [| auto].
    apply in_app_or in Hp. destruct Hp as [Hp | [<- | []]]; auto.
  - destruct Hp; auto.
Qed.

Lemma insert_by_value_In (x y : peak * float) (l : list (peak * float)) :
  In y (skimage.insert_by_value x l) -> y = x \/ In y l.
Proof.
  induction l as [| z l IH]; simpl.
  - intros [<- | []]. left. reflexivity.
  - destruct (flt (snd x) (snd z)); simpl.
    + intros [<- | H]; [auto |]. apply IH in H. tauto.
    + intros [<- | [<- | H]]; auto.
Qed.

Lemma by_value_In (y : peak * float) (l : list (peak * float)) :
  In y (skimage.by_value l) -> In y l.
Proof.
  unfold skimage.by_value. induction l as [| x l IH]; simpl; [tauto |].
  intros H. apply insert_by_value_In in H. destruct H as [-> | H]; auto.
Qed.

Lemma mapi_from_In {A B : Type} (f : Z -> A -> B) (l : list A) (y : B) :
  forall i,
    In y (mapi_from f i l) ->
    exists n a, nth_error l n = Some a /\ y = f (i + Z.of_nat n) a.
Proof.
  induction l as [| a l IH]; intros i; simpl; [tauto |].
  intros [<- | H].
  - exists 0%nat, a. split; [reflexivity |]. rewrite Z.add_0_r. reflexivity.
  - apply IH in H. destruct H as (n & b & Hn & ->).
    exists (S n), b. split; [exact Hn |]. f_equal. lia.
Qed.

(** A listed position holds the value it is listed with. *)
Lemma positions_sample (m : dmap) (i j : Z) (v : float) :
  In ((i, j), v) (skimage.positions m) -> sample m i j = Some v.
Proof.
  unfold skimage.positions, mapi. intros H.
  apply in_concat in H. destruct H as (cells & Hcells & H).
  apply mapi_from_In in Hcells. destruct Hcells as (n & row & Hn & ->).
  apply mapi_from_In in H. destruct H as (k & w & Hk & E).
  injection E as -> -> ->.
  unfold sample. simpl.
  rewrite !Nat2Z.id, Hn, Hk.
  destruct (0 <=? Z.of_nat n) eqn:E1; [| apply Z.leb_gt in E1; lia].
  destruct (0 <=? Z.of_nat k) eqn:E2; [| apply Z.leb_gt in E2; lia].
  reflexivity.
Qed.

(** C3. On every distance map and for every configuration, the peak finder
    returns peaks of which no two are closer than [min_diameter]
    (Euclidean: the squared distance is at least [min_diameter] squared),
    each with a value of at least [peaks_rel_threshold] times the map's
    maximum. *)
Theorem peaks_apart_and_above_threshold :
  forall (cv : cv2.external) (self : t cv) (distance_map : dmap),
    exists peaks,
      _find_local_maxima skimage.corner_peaks self distance_map = Ok peaks /\
      ForallOrdPairs
        (fun p q =>
           Settings.min_diameter (settings self)
           * Settings.min_diameter (settings self) <= skimage.dist2 p q)
        peaks /\
      Forall
        (fun p =>
           exists v,
             sample distance_map (fst p) (snd p) = Some v /\
             fle (fmul (Settings.peaks_rel_threshold (settings self))
                    (skimage.amax distance_map)) v = true)
        peaks.
Proof.
  intros cv self distance_map.
  unfold _find_local_maxima, skimage.corner_peaks.
  destruct (skimage.all_zero distance_map).
  - exists []. repeat split; constructor.
  - eexists. split; [reflexivity |]. split.
    + apply suppress_apart. constructor.
    + apply Forall_forall. intros p Hp.
      apply suppress_incl in Hp. destruct Hp as [[] | Hp].
      apply in_map_iff in Hp. destruct Hp as ([q v] & <- & Hq).
      apply by_value_In, filter_In in Hq. destruct Hq as [Hq Hv].
      apply andb_true_iff in Hv. destruct Hv as [Hv _].
      destruct q as [i j]. exists v. split; [| exact Hv].
      apply positions_sample. exact Hq.
Qed.

(** ** Repeated runs *)

Section Determinism.

Context {cv : cv2.external}.
Hypothesis clahe_contract : clahe_determined_by_parameters cv.

Lemma same_configuration_refl (self : t cv) : same_configuration self self.
Proof. repeat split. Qed.

Lemma same_configuration_sym (self self' : t cv) :
  same_configuration self self' -> same_configuration self' self.
Proof. intros (H1 & H2 & H3). repeat split; congruence. Qed.

Lemma same_configuration_trans (a b c : t cv) :
  same_configuration a b -> same_configuration b c -> same_configuration a c.
Proof.
  intros (H1 & H2 & H3) (K1 & K2 & K3). repeat split; congruence.
Qed.

Lemma configuration_only_ret {A : Type} (a : A) :
  configuration_only (ret (cv := cv) a).
Proof.
  intros self self' H. simpl.
  split; [reflexivity |]. split; apply same_configuration_refl.
Qed.

Lemma configuration_only_reading {A : Type} (f : t cv -> result A) :
  (forall self self', settings self = settings self' -> f self = f self') ->
  configuration_only (reading f).
Proof.
  intros Hf self self' H. unfold reading. simpl.
  split; [apply Hf, H |]. split; apply same_configuration_refl.
Qed.

Lemma configuration_only_and_then {A B : Type} (m : method cv A)
    (k : A -> method cv B) :
  configuration_only m -> (forall a, configuration_only (k a)) ->
  configuration_only (and_then m k).
Proof.
  intros Hm Hk self self' H. unfold and_then.
  destruct (Hm self self' H) as (E & S1 & S2).
  destruct (m self) as [[a | e] s1], (m self') as [[a' | e'] s1'];
    simpl in E, S1, S2; try discriminate.
  - injection E as <-.
    assert (H1 : same_configuration s1 s1').
    { eapply same_configuration_trans; [apply same_configuration_sym, S1 |].
      eapply same_configuration_trans; [exact H | exact S2]. }
    destruct (Hk a s1 s1' H1) as (E' & T1 & T2).
    split; [exact E' |].
    split; eapply same_configuration_trans; eassumption.
  - simpl. split; [congruence | split; assumption].
Qed.

Lemma configuration_only__clahe_apply (img : image) :
  configuration_only (_clahe_apply (cv := cv) img).
Proof.
  intros self self' (Hs & Hc & Ht). unfold _clahe_apply.
  destruct (clahe_contract (_clahe self) (_clahe self') img Hc Ht)
    as (E & C1 & T1).
  destruct (clahe_contract (_clahe self') (_clahe self) img
              (eq_sym Hc) (eq_sym Ht)) as (_ & C2 & T2).
  destruct (cv2.CLAHE_apply cv (_clahe self) img) as [r o1].
  destruct (cv2.CLAHE_apply cv (_clahe self') img) as [r' o1'].
  simpl in *. split; [exact E |].
  unfold same_configuration. simpl. repeat split; congruence.
Qed.

Lemma configuration_only__preprocess_image (img : bgr_image) :
  configuration_only (_preprocess_image (cv := cv) img).
Proof.
  unfold _preprocess_image.
  apply configuration_only_and_then.
  { apply configuration_only_reading. intros self self' ->. reflexivity. }
  intros blurred. apply configuration_only_and_then.
  { apply configuration_only_reading. reflexivity. }
  intros gray. apply configuration_only_and_then.
  { apply configuration_only__clahe_apply. }
  intros normalized. apply configuration_only_ret.
Qed.

Variable corner_peaks : dmap -> Z -> float -> result (list peak).

Lemma configuration_only_segment (img : bgr_image) :
  configuration_only (segment (cv := cv) corner_peaks img).
Proof.
  unfold segment.
  apply configuration_only_and_then;
    [apply configuration_only__preprocess_image | intros preprocessed].
  apply configuration_only_and_then;
    [apply configuration_only_reading; intros self self' E;
     unfold _remove_background; rewrite E; reflexivity
    | intros foreground_mask].
  apply configuration_only_and_then;
    [apply configuration_only_reading; reflexivity | intros masked_image].
  apply configuration_only_and_then;
    [apply configuration_only_reading; intros self self' E;
     unfold _compute_distance_transform; rewrite E; reflexivity
    | intros dist_map].
  apply configuration_only_and_then;
    [apply configuration_only__clahe_apply | intros equalized_image].
  apply configuration_only_and_then;
    [apply configuration_only_reading; intros self self' E;
     unfold _compute_distance_transform; rewrite E; reflexivity
    | intros equalized_dist_map].
  apply configuration_only_and_then;
    [apply configuration_only_reading; intros self self' E;
     unfold _find_local_maxima; rewrite E; reflexivity
    | intros peaks].
  apply configuration_only_and_then;
    [apply configuration_only_reading; intros self self' E;
     unfold _extract_circles, compensation_coefficient, extract_step;
     rewrite E; reflexivity
    | intros circles].
  apply configuration_only_ret.
Qed.

End Determinism.

(** C7. Two runs of [segment] on the same image with the same configuration
    return the same result, circle for circle and in the same order: a
    second run on the segmenter as the first run left it, and a run on any
    segmenter of the same configuration.  The CLAHE object's output is
    assumed to depend on its parameters and its input only. *)
Theorem segment_deterministic :
  forall (cv : cv2.external)
         (corner_peaks : dmap -> Z -> float -> result (list peak))
         (self : t cv) (img : bgr_image),
    clahe_determined_by_parameters cv ->
    fst (segment corner_peaks img (snd (segment corner_peaks img self)))
    = fst (segment corner_peaks img self) /\
    forall self',
      same_configuration self self' ->
      fst (segment corner_peaks img self') = fst (segment corner_peaks img self).
Proof.
  intros cv corner_peaks self img Hcv.
  pose proof (configuration_only_segment Hcv corner_peaks img) as H.
  split.
  - destruct (H self self (same_configuration_refl self)) as (_ & S & _).
    destruct (H self _ S) as (E & _). symmetry. exact E.
  - intros self' S. destruct (H self self' S) as (E & _). symmetry. exact E.
Qed.

Lemma test_backend_clahe_determined :
  clahe_determined_by_parameters TestBackend.opencv.
Proof.
  intros o o' img Hc Ht. simpl in *. unfold TestBackend.apply.
  destruct (concat img); simpl; auto.
Qed.

Lemma segment_deterministic_witness :
  fst (segment skimage.corner_peaks
         (TestBackend.of_gray (Examples.square 11 4 6 200 0))
         (snd (segment skimage.corner_peaks
                 (TestBackend.of_gray (Examples.square 11 4 6 200 0))
                 (Examples.segmenter
                    (Examples.settings_with 100 150 2
                       Settings.default_peaks_rel_threshold)))))
  = fst (segment skimage.corner_peaks
           (TestBackend.of_gray (Examples.square 11 4 6 200 0))
           (Examples.segmenter
              (Examples.settings_with 100 150 2
                 Settings.default_peaks_rel_threshold))).
Proof.
  exact (proj1 (segment_deterministic TestBackend.opencv skimage.corner_peaks
                  (Examples.segmenter
                     (Examples.settings_with 100 150 2
                        Settings.default_peaks_rel_threshold))
                  (TestBackend.of_gray (Examples.square 11 4 6 200 0))
                  test_backend_clahe_determined)).
Defined.

(** ** Binary digits *)

Lemma digits2_pos_size (m : positive) : digits2_pos m = Pos.size m.
Proof. induction m; simpl; congruence. Qed.

Lemma Zdigits2_bounds (m : positive) :
  2 ^ (Zdigits2 (Z.pos m) - 1) <= Z.pos m < 2 ^ Zdigits2 (Z.pos m).
Proof.
  change (Zdigits2 (Z.pos m)) with (Z.pos (digits2_pos m)).
  rewrite digits2_pos_size.
  pose proof (Pos.size_gt m) as Hgt. pose proof (Pos.size_le m) as Hle.
  assert (E : Z.pos (2 ^ Pos.size m) = 2 ^ Z.pos (Pos.size m))
    by (rewrite Pos2Z.inj_pow; reflexivity).
  split.
  - assert (Z.pos (2 ^ Pos.size m) <= Z.pos m~0) by (apply Pos2Z.pos_le_pos, Hle).
    rewrite E in H.
    replace (2 ^ Z.pos (Pos.size m)) with (2 * 2 ^ (Z.pos (Pos.size m) - 1)) in H.
    + lia.
    + rewrite <- Z.pow_succ_r by lia. f_equal. lia.
  - rewrite <- E. apply Pos2Z.pos_lt_pos, Hgt.
Qed.





(** ** Rounding to nearest, ties to even, on integers *)

Lemma pow2_pos (k : Z) : 0 <= k -> 0 < 2 ^ k.
Proof. intros. apply Z.pow_pos_nonneg; lia. Qed.









Lemma prec_eq : prec = 53.
Proof. reflexivity. Qed.

Lemma femin_eq : femin = -1074.
Proof. reflexivity. Qed.




(** ** The shift of [SpecFloat] is a division that remembers its remainder *)







(** ** [binary_round_aux] rounds to nearest *)




Lemma fexp_eq (x : Z) : fexp prec emax x = Z.max (x - prec) femin.
Proof. reflexivity. Qed.





(** ** Truncated products are monotone *)




Lemma canonical_exponent (s : bool) (m : positive) (e : Z) :
  finite_canonical (S754_finite s m e) = true -> femin <= e.
Proof.
  unfold finite_canonical, bounded, canonical_mantissa.
  intros H. apply andb_true_iff in H. destruct H as [H _].
  apply Z.eqb_eq in H. rewrite fexp_eq in H. lia.
Qed.



(** ** The coefficient grows with the threshold *)

Lemma scaled_rescale (K K' : Z) (x : float) :
  exponent_at_least (- K) x = true -> K <= K' ->
  scaled K' x = scaled K x * 2 ^ (K' - K).
Proof.
  intros He HK. destruct x as [s | s | | s m e]; try reflexivity.
  unfold exponent_at_least in He. apply Z.leb_le in He.
  unfold scaled.
  replace (e + K') with ((e + K) + (K' - K)) by lia.
  rewrite Z.pow_add_r by lia. destruct s; ring.
Qed.

Lemma combine_seq_step (len : nat) :
  forall a n,
    (a <= n < a + len)%nat ->
    In (n, S n) (combine (seq a (S len)) (seq (S a) len)).
Proof.
  induction len as [| len IH]; intros a n Hn; [lia |].
  cbn [seq combine].
  destruct (Nat.eq_dec a n) as [-> | Hne]; [left; reflexivity |].
  right. apply (IH (S a) n). lia.
Qed.

Lemma map_tl {A B : Type} (f : A -> B) (l : list A) :
  tl (map f l) = map f (tl l).
Proof. destruct l; reflexivity. Qed.

Lemma combine_map {A B : Type} (f : A -> B) (l1 l2 : list A) :
  combine (map f l1) (map f l2)
  = map (fun p => (f (fst p), f (snd p))) (combine l1 l2).
Proof.
  revert l2. induction l1 as [| a l1 IH]; intros [| b l2]; simpl;
    try reflexivity.
  rewrite IH. reflexivity.
Qed.

Lemma coefficient_step_ok (b t : Z) :
  0 <= b < 255 -> 0 <= t < 255 ->
  step_ok ((t, coefficient t b), (t + 1, coefficient (t + 1) b)) = true.
Proof.
  intros Hb Ht. destruct (coefficient_row_ok b Hb) as [_ H].
  rewrite forallb_forall in H. apply H.
  unfold coefficient_row, range.
  rewrite map_map, map_tl, combine_map.
  apply in_map_iff. exists (Z.to_nat t, S (Z.to_nat t)). split.
  - cbn [fst snd]. rewrite Nat2Z.inj_succ, Z2Nat.id by lia. reflexivity.
  - change (tl (seq 0 256)) with (seq 1 255).
    apply (combine_seq_step 255 0%nat). lia.
Qed.

Lemma coefficient_value_step (b t : Z) :
  0 <= b < 255 -> 0 <= t < 255 ->
  coefficient_value b t < coefficient_value b (t + 1).
Proof.
  intros Hb Ht. pose proof (coefficient_step_ok b t Hb Ht) as H.
  unfold step_ok in H. cbn [fst snd] in H. unfold coefficient_value.
  destruct (coefficient t b); [| discriminate].
  destruct (coefficient (t + 1) b); [| discriminate].
  apply Z.ltb_lt. exact H.
Qed.

Lemma coefficient_value_increasing (b t1 t2 : Z) :
  0 <= b < 255 -> 0 <= t1 -> t1 < t2 -> t2 <= 255 ->
  coefficient_value b t1 < coefficient_value b t2.
Proof.
  intros Hb H1 H12 H2.
  replace t2 with (t1 + 1 + Z.of_nat (Z.to_nat (t2 - t1 - 1))) in * by lia.
  induction (Z.to_nat (t2 - t1 - 1)) as [| n IH].
  - rewrite Z.add_0_r. apply coefficient_value_step; lia.
  - transitivity (coefficient_value b (t1 + 1 + Z.of_nat n)).
    + apply IH; lia.
    + replace (t1 + 1 + Z.of_nat (S n)) with (t1 + 1 + Z.of_nat n + 1) by lia.
      apply coefficient_value_step; lia.
Qed.

(** ** Comparing canonical floats is comparing their values *)

Lemma canonical_digits (s : bool) (m : positive) (e : Z) :
  finite_canonical (S754_finite s m e) = true ->
  femin <= e /\ Zdigits2 (Z.pos m) <= prec /\
  (femin < e -> Zdigits2 (Z.pos m) = prec).
Proof.
  unfold finite_canonical, bounded, canonical_mantissa.
  intros H. apply andb_true_iff in H. destruct H as [H _].
  apply Z.eqb_eq in H. rewrite fexp_eq in H.
  change (Z.pos (digits2_pos m)) with (Zdigits2 (Z.pos m)) in H. lia.
Qed.

(** Of two canonical positive floats the one with the smaller exponent is
    the smaller. *)
Lemma canonical_exponent_lt (s1 s2 : bool) (m1 m2 : positive) (e1 e2 K : Z) :
  finite_canonical (S754_finite s1 m1 e1) = true ->
  finite_canonical (S754_finite s2 m2 e2) = true ->
  0 <= femin + K -> e1 < e2 ->
  Z.pos m1 * 2 ^ (e1 + K) < Z.pos m2 * 2 ^ (e2 + K).
Proof.
  intros H1 H2 HK He. pose proof prec_eq as Hprec.
  apply canonical_digits in H1, H2.
  destruct H1 as (Hf1 & Hd1 & _), H2 as (Hf2 & _ & Hd2).
  specialize (Hd2 ltac:(lia)).
  pose proof (Zdigits2_bounds m1) as [_ Hhi].
  pose proof (Zdigits2_bounds m2) as [Hlo _]. rewrite Hd2 in Hlo.
  assert (H2p : 2 ^ Zdigits2 (Z.pos m1) <= 2 ^ prec)
    by (apply Z.pow_le_mono_r; lia).
  pose proof (pow2_pos (e1 + K) ltac:(lia)) as Hp1.
  assert (Ha : Z.pos m1 * 2 ^ (e1 + K) < 2 ^ prec * 2 ^ (e1 + K)) by nia.
  assert (Hb : 2 ^ (prec - 1) * 2 ^ (e2 + K) <= Z.pos m2 * 2 ^ (e2 + K)).
  { apply Z.mul_le_mono_nonneg_r; [| exact Hlo].
    pose proof (pow2_pos (e2 + K) ltac:(lia)). lia. }
  assert (Hc : 2 ^ prec * 2 ^ (e1 + K) <= 2 ^ (prec - 1) * 2 ^ (e2 + K)).
  { rewrite <- !Z.pow_add_r by lia. apply Z.pow_le_mono_r; lia. }
  lia.
Qed.

Lemma flt_of_scaled (K : Z) (x y : float) :
  finite_canonical x = true -> finite_canonical y = true ->
  0 <= femin + K ->
  scaled K x < scaled K y -> flt x y = true.
Proof.
  intros Hx Hy HK Hlt. unfold flt, SFltb.
  destruct x as [sx | sx | | sx mx ex]; try discriminate;
    destruct y as [sy | sy | | sy my ey]; try discriminate.
  - pose proof (pow2_pos (ey + K)
                  ltac:(pose proof (canonical_exponent _ _ _ Hy); lia)).
    unfold scaled in Hlt. cbn [SFcompare]. destruct sy; [lia | reflexivity].
  - pose proof (pow2_pos (ex + K)
                  ltac:(pose proof (canonical_exponent _ _ _ Hx); lia)).
    unfold scaled in Hlt. cbn [SFcompare]. destruct sx; [reflexivity | lia].
  - pose proof (canonical_exponent _ _ _ Hx) as Hex.
    pose proof (canonical_exponent _ _ _ Hy) as Hey.
    pose proof (pow2_pos (ex + K) ltac:(lia)) as Hpx.
    pose proof (pow2_pos (ey + K) ltac:(lia)) as Hpy.
    unfold scaled in Hlt. cbn [SFcompare].
    destruct sx, sy; try reflexivity; try lia.
    + (* both negative *)
      destruct (Z.compare_spec ex ey) as [E | E | E].
      * subst ey.
        change (PosDef.Pos.compare_cont Eq mx my) with (Pos.compare mx my).
        assert (Hm : (my < mx)%positive) by (apply Pos2Z.pos_lt_pos; nia).
        apply Pos.compare_gt_iff in Hm. rewrite Hm. reflexivity.
      * pose proof (canonical_exponent_lt _ _ mx my ex ey K Hx Hy HK E). lia.
      * reflexivity.
    + (* both positive *)
      destruct (Z.compare_spec ex ey) as [E | E | E].
      * subst ey.
        change (PosDef.Pos.compare_cont Eq mx my) with (Pos.compare mx my).
        assert (Hm : (mx < my)%positive) by (apply Pos2Z.pos_lt_pos; nia).
        apply Pos.compare_lt_iff in Hm. rewrite Hm. reflexivity.
      * reflexivity.
      * pose proof (canonical_exponent_lt _ _ my mx ey ex K Hy Hx HK E). lia.
Qed.

Lemma coefficient_canonical (b t : Z) :
  0 <= b < 255 -> 0 <= t <= 255 ->
  exists c,
    coefficient t b = Ok c /\ finite_canonical c = true /\
    exponent_at_least (-64) c = true /\ coefficient_value b t = scaled 64 c.
Proof.
  intros Hb Ht. pose proof (coefficient_entry_ok b t Hb Ht) as H.
  unfold entry_ok in H. cbn [fst snd] in H. unfold coefficient_value.
  destruct (coefficient t b) as [c |]; [| discriminate].
  apply andb_true_iff in H. destruct H as [H _].
  apply andb_true_iff in H. destruct H as [H1 H2].
  exists c. auto.
Qed.

(** The coefficients of two thresholds, in the order of the thresholds. *)
Lemma coefficient_lt (b t1 t2 : Z) :
  0 <= b < 255 -> 0 <= t1 -> t1 < t2 -> t2 <= 255 ->
  exists c1 c2,
    coefficient t1 b = Ok c1 /\ coefficient t2 b = Ok c2 /\
    finite_canonical c1 = true /\ finite_canonical c2 = true /\
    scaled (- femin) c1 < scaled (- femin) c2.
Proof.
  intros Hb H1 H12 H2.
  destruct (coefficient_canonical b t1 Hb ltac:(lia)) as (c1 & E1 & F1 & X1 & V1).
  destruct (coefficient_canonical b t2 Hb ltac:(lia)) as (c2 & E2 & F2 & X2 & V2).
  pose proof (coefficient_value_increasing b t1 t2 Hb H1 H12 H2) as Hlt.
  rewrite V1, V2 in Hlt.
  exists c1, c2. repeat (split; [assumption |]).
  pose proof femin_eq as Hf.
  rewrite (scaled_rescale 64 (- femin) c1), (scaled_rescale 64 (- femin) c2)
    by (assumption || lia).
  pose proof (pow2_pos (- femin - 64) ltac:(lia)).
  apply Z.mul_lt_mono_pos_r; assumption.
Qed.




(** ** An all-black image *)

Lemma corner_peaks_all_zero (m : dmap) (min_distance : Z) (threshold_rel : float) :
  skimage.all_zero m = true ->
  skimage.corner_peaks m min_distance threshold_rel = Ok [].
Proof. intros H. unfold skimage.corner_peaks. rewrite H. reflexivity. Qed.

(** C6 at [back_threshold = 255].  The configuration is in its declared
    ranges, and on an all-black image [segment] raises, whatever the
    libraries return: on the test backend every stage returns, the peak
    finder finds no peak, and [_extract_circles] raises
    [ZeroDivisionError].  With the default [back_threshold] the same run
    returns the empty list, and the peak finder returns no peak on an
    all-zero map. *)
Theorem all_black_back_threshold_255 :
  Settings.in_declared_ranges
    (Examples.settings_with 255 150 30 Settings.default_peaks_rel_threshold) /\
  (forall (cv : cv2.external)
          (corner_peaks : dmap -> Z -> float -> result (list peak))
          (clahe : cv2.CLAHE cv) (rows cols : nat),
      exists e,
        fst (segment corner_peaks (Examples.black rows cols)
               (mk (Examples.settings_with 255 150 30
                      Settings.default_peaks_rel_threshold) clahe))
        = Raise e) /\
  fst (segment skimage.corner_peaks (Examples.black 8 8)
         (Examples.segmenter
            (Examples.settings_with 255 150 30
               Settings.default_peaks_rel_threshold)))
  = Raise ZeroDivisionError /\
  fst (segment skimage.corner_peaks (Examples.black 8 8)
         (Examples.segmenter
            (Examples.settings_with 100 150 30
               Settings.default_peaks_rel_threshold)))
  = Ok [] /\
  (forall (m : dmap) (min_distance : Z) (threshold_rel : float),
      skimage.all_zero m = true ->
      skimage.corner_peaks m min_distance threshold_rel = Ok []).
Proof.
  split; [apply example_settings_in_declared_ranges; lia |].
  split.
  { intros cv corner_peaks clahe rows cols.
    destruct (segment_run corner_peaks (Examples.black rows cols)
                (mk (Examples.settings_with 255 150 30
                       Settings.default_peaks_rel_threshold) clahe))
      as [e He | self1 self2 ? ? ? ? ? ? ? Hs1 Hs2].
    - exists e. reflexivity.
    - exists ZeroDivisionError. apply _extract_circles_255.
      rewrite Hs2. reflexivity. }
  split; [vm_compute; reflexivity |].
  split; [vm_compute; reflexivity |].
  exact corner_peaks_all_zero.
Qed.

(** ** The constructor of the configuration *)

Lemma int_field_if (d : Z) (ge le : option Z) (f : Z -> Z)
    (given : option Z) :
  Settings.int_field d ge le f given
  = if given_in (fun v => (match ge with Some lo => lo <=? v | None => true end)
                          && (match le with Some hi => v <=? hi | None => true end))
         given
    then Ok (match given with Some v => f v | None => d end)
    else Raise ValidationError.
Proof. destruct given as [v |]; reflexivity. Qed.

Lemma float_field_if (d : float) (ge le : option float)
    (given : option float) :
  Settings.float_field d ge le given
  = if given_in (fun v => (match ge with Some lo => fle lo v | None => true end)
                          && (match le with Some hi => fle v hi | None => true end))
         given
    then Ok (match given with Some v => v | None => d end)
    else Raise ValidationError.
Proof. destruct given as [v |]; reflexivity. Qed.

Lemma given_in_ext {A : Type} (p q : A -> bool) (given : option A) :
  (forall v, p v = q v) -> given_in p given = given_in q given.
Proof. intros H. destruct given; simpl; auto. Qed.

Lemma given_in_true {A : Type} (given : option A) :
  given_in (fun _ => true) given = true.
Proof. destruct given; reflexivity. Qed.

(** What [Settings.init] returns, field by field. *)
Lemma init_cases (c : Settings.configured) :
  (accepted c = true /\
   Settings.init c
   = Ok (Settings.mk
           (match Settings.back_threshold_in c with Some v => v | None => 100 end)
           (match Settings.threshold_in c with Some v => v | None => 150 end)
           (match Settings.min_diameter_in c with Some v => v | None => 30 end)
           (match Settings.peaks_rel_threshold_in c with
            | Some v => v
            | None => Settings.default_peaks_rel_threshold
            end)
           (match Settings.gaussian_kernel_size_in c with
            | Some v => Settings.validate_odd_kernel_size v
            | None => 5
            end)
           (match Settings.clahe_clip_limit_in c with
            | Some v => v
            | None => Settings.default_clahe_clip_limit
            end)
           (match Settings.clahe_tile_size_in c with Some v => v | None => 8 end)
           (match Settings.morphology_kernel_size_in c with
            | Some v => Settings.validate_odd_kernel_size v
            | None => 3
            end)
           (match Settings.center_color_in c with
            | Some v => v
            | None => (255, 0, 0)
            end)
           (match Settings.radius1_color_in c with
            | Some v => v
            | None => (0, 255, 0)
            end)
           (match Settings.radius2_color_in c with
            | Some v => v
            | None => (0, 0, 255)
            end)
           (match Settings.line_thickness_in c with Some v => v | None => 2 end)))
  \/ (accepted c = false /\ Settings.init c = Raise ValidationError).
Proof.
  unfold accepted, Settings.init, Settings.color_field, Settings.no_validator.
  rewrite !int_field_if, !float_field_if.
  rewrite !(given_in_ext (fun v => (1 <=? v) && true) (fun v => 1 <=? v))
    by (intros; apply andb_true_r).
  rewrite (given_in_ext (fun v => fle f0 v && true) (fun v => fle f0 v))
    by (intros; apply andb_true_r).
  rewrite (given_in_ext (fun v : Z => true && true) (fun _ => true))
    by reflexivity.
  rewrite given_in_true.
  repeat match goal with
         | |- context [given_in ?p ?g] => destruct (given_in p g)
         end;
    cbn [bind andb]; auto.
Qed.

(** X1. Every configuration object the constructor returns has each
    bounded field within its declared bounds, the morphology kernel and the
    line thickness at least 1, and both kernel sizes odd, whether they were
    configured or defaulted. *)
Theorem constructed_settings_in_ranges :
  forall (c : Settings.configured) (s : Settings.t),
    Settings.init c = Ok s ->
    Settings.in_declared_ranges s /\
    1 <= Settings.line_thickness s /\
    Z.odd (Settings.gaussian_kernel_size s) = true /\
    Z.odd (Settings.morphology_kernel_size s) = true.
Proof.
  intros c s H.
  split; [apply (init_in_declared_ranges c s H) |].
  destruct (init_cases c) as [[A E] | [_ E]]; [| congruence].
  rewrite E in H. apply Ok_inj in H. subst s.
  cbn [Settings.line_thickness Settings.gaussian_kernel_size
         Settings.morphology_kernel_size].
  unfold accepted in A. apply andb_true_iff in A. destruct A as [_ A].
  split; [| split].
  - destruct (Settings.line_thickness_in c) as [v |]; [| lia].
    apply Z.leb_le. exact A.
  - destruct (Settings.gaussian_kernel_size_in c);
      [apply validate_odd_kernel_size_is_odd | reflexivity].
  - destruct (Settings.morphology_kernel_size_in c);
      [apply validate_odd_kernel_size_is_odd | reflexivity].
Qed.

Lemma constructed_settings_in_ranges_witness :
  Settings.in_declared_ranges Examples.even_kernels_constructed /\
  1 <= Settings.line_thickness Examples.even_kernels_constructed /\
  Z.odd (Settings.gaussian_kernel_size Examples.even_kernels_constructed) = true /\
  Z.odd (Settings.morphology_kernel_size Examples.even_kernels_constructed)
  = true.
Proof.
  exact (constructed_settings_in_ranges Examples.even_kernels_configured
           Examples.even_kernels_constructed eq_refl).
Defined.

(** X2. The constructor returns an object exactly when every configured
    value lies within the bounds of its field, and raises
    [ValidationError], never another exception, when one does not.  No
    value of [gaussian_kernel_size] or of a colour is refused. *)
Theorem settings_accepted_or_validation_error :
  forall c : Settings.configured,
    if accepted c then exists s, Settings.init c = Ok s
    else Settings.init c = Raise ValidationError.
Proof.
  intros c. destruct (init_cases c) as [[-> E] | [-> E]];
    [eexists; exact E | exact E].
Qed.

(** X3. The constructed object holds every configured value as given and
    the declared default for every field left out; only a configured
    kernel size is first passed through [validate_odd_kernel_size]. *)
Theorem configured_values_kept :
  forall (c : Settings.configured) (s : Settings.t),
    Settings.init c = Ok s ->
    kept (Settings.back_threshold_in c) 100 (Settings.back_threshold s) /\
    kept (Settings.threshold_in c) 150 (Settings.threshold s) /\
    kept (Settings.min_diameter_in c) 30 (Settings.min_diameter s) /\
    kept (Settings.peaks_rel_threshold_in c)
      Settings.default_peaks_rel_threshold (Settings.peaks_rel_threshold s) /\
    kept (option_map Settings.validate_odd_kernel_size
            (Settings.gaussian_kernel_size_in c))
      5 (Settings.gaussian_kernel_size s) /\
    kept (Settings.clahe_clip_limit_in c) Settings.default_clahe_clip_limit
      (Settings.clahe_clip_limit s) /\
    kept (Settings.clahe_tile_size_in c) 8 (Settings.clahe_tile_size s) /\
    kept (option_map Settings.validate_odd_kernel_size
            (Settings.morphology_kernel_size_in c))
      3 (Settings.morphology_kernel_size s) /\
    kept (Settings.center_color_in c) (255, 0, 0) (Settings.center_color s) /\
    kept (Settings.radius1_color_in c) (0, 255, 0) (Settings.radius1_color s) /\
    kept (Settings.radius2_color_in c) (0, 0, 255) (Settings.radius2_color s) /\
    kept (Settings.line_thickness_in c) 2 (Settings.line_thickness s).
Proof.
  intros c s H.
  destruct (init_cases c) as [[_ E] | [_ E]]; [| congruence].
  rewrite E in H. apply Ok_inj in H. subst s. unfold kept. cbn.
  destruct (Settings.gaussian_kernel_size_in c),
    (Settings.morphology_kernel_size_in c); cbn; repeat split.
Qed.

Lemma configured_values_kept_witness :
  Settings.gaussian_kernel_size Examples.even_kernels_constructed = 5 /\
  Settings.back_threshold Examples.even_kernels_constructed = 100.
Proof.
  pose proof (configured_values_kept Examples.even_kernels_configured
                Examples.even_kernels_constructed eq_refl)
    as (Hb & _ & _ & _ & Hg & _).
  split; [exact Hg | exact Hb].
Defined.

(** X4. [validate_odd_kernel_size] changes nothing when applied a second
    time, returns its argument or the next integer, and keeps the order of
    two sizes. *)
Theorem validate_odd_kernel_size_idempotent :
  forall v w : Z,
    Settings.validate_odd_kernel_size (Settings.validate_odd_kernel_size v)
    = Settings.validate_odd_kernel_size v /\
    v <= Settings.validate_odd_kernel_size v <= v + 1 /\
    (v <= w ->
     Settings.validate_odd_kernel_size v
     <= Settings.validate_odd_kernel_size w).
Proof.
  intros v w. unfold Settings.validate_odd_kernel_size.
  rewrite !pymod_2_even.
  destruct (Z.even v) eqn:Ev.
  - change (v + 1) with (Z.succ v) at 1.
    rewrite Z.even_succ, <- Z.negb_even, Ev. cbn [negb].
    split; [reflexivity |]. split; [lia |].
    intros Hvw. destruct (Z.even w) eqn:Ew; [lia |].
    assert (v <> w) by (intros ->; congruence). lia.
  - rewrite Ev. split; [reflexivity |]. split; [lia |].
    intros Hvw. destruct (Z.even w); lia.
Qed.

(** ** Circles and the peaks they come from *)

Lemma subsequence_refl {A : Type} (l : list A) : subsequence l l.
Proof. induction l; constructor; assumption. Qed.

Lemma subsequence_length {A : Type} (l1 l2 : list A) :
  subsequence l1 l2 -> (length l1 <= length l2)%nat.
Proof. induction 1; simpl; lia. Qed.

Lemma subsequence_filter_map {A B : Type} (f : A -> B) (p : A -> bool)
    (l : list A) :
  subsequence (map f (filter p l)) (map f l).
Proof.
  induction l as [| a l IH]; simpl; [constructor |].
  destruct (p a); simpl; constructor; exact IH.
Qed.

Lemma circle_of_peak_centre (rounding : float -> result Z) (coeff : float)
    (raw_map equalized_map : dmap) (p : peak) (c : circle) :
  circle_of_peak rounding coeff raw_map equalized_map p = Ok c ->
  centre c = p /\ inside raw_map p = true /\ inside equalized_map p = true.
Proof.
  assert (Hin : forall (a : dmap) (y x : Z) (v : float),
             np.get2 a y x = Ok v -> inside a (y, x) = true).
  { intros a y x v H. unfold np.get2 in H.
    apply bind_Ok in H. destruct H as (i & Hi & H).
    apply bind_Ok in H. destruct H as (j & Hj & _).
    unfold inside. cbn [fst snd].
    unfold np.index in Hi, Hj.
    destruct ((0 <=? y) && (y <? Z.of_nat (length a))) eqn:Ey.
    - apply andb_true_iff in Ey. destruct Ey as [Ey1 Ey2].
      apply Z.leb_le in Ey1. apply Z.ltb_lt in Ey2.
      destruct ((0 <=? x) && (x <? Z.of_nat (length (hd [] a)))) eqn:Ex.
      + apply andb_true_iff in Ex. destruct Ex as [Ex1 Ex2].
        apply Z.leb_le in Ex1. apply Z.ltb_lt in Ex2.
        repeat (apply andb_true_iff; split);
          try (apply Z.leb_le; lia); apply Z.ltb_lt; lia.
      + destruct ((- Z.of_nat (length (hd [] a)) <=? x) && (x <? 0)) eqn:Ex';
          [| discriminate].
        apply andb_true_iff in Ex'. destruct Ex' as [Ex1 Ex2].
        apply Z.leb_le in Ex1. apply Z.ltb_lt in Ex2.
        repeat (apply andb_true_iff; split);
          try (apply Z.leb_le; lia); apply Z.ltb_lt; lia.
    - destruct ((- Z.of_nat (length a) <=? y) && (y <? 0)) eqn:Ey';
        [| discriminate].
      apply andb_true_iff in Ey'. destruct Ey' as [Ey1 Ey2].
      apply Z.leb_le in Ey1. apply Z.ltb_lt in Ey2.
      destruct ((0 <=? x) && (x <? Z.of_nat (length (hd [] a)))) eqn:Ex.
      + apply andb_true_iff in Ex. destruct Ex as [Ex1 Ex2].
        apply Z.leb_le in Ex1. apply Z.ltb_lt in Ex2.
        repeat (apply andb_true_iff; split);
          try (apply Z.leb_le; lia); apply Z.ltb_lt; lia.
      + destruct ((- Z.of_nat (length (hd [] a)) <=? x) && (x <? 0)) eqn:Ex';
          [| discriminate].
        apply andb_true_iff in Ex'. destruct Ex' as [Ex1 Ex2].
        apply Z.leb_le in Ex1. apply Z.ltb_lt in Ex2.
        repeat (apply andb_true_iff; split);
          try (apply Z.leb_le; lia); apply Z.ltb_lt; lia. }
  destruct p as [y x]. unfold circle_of_peak. intros H.
  apply bind_Ok in H. destruct H as (d1 & G1 & H).
  apply bind_Ok in H. destruct H as (r1 & _ & H).
  apply bind_Ok in H. destruct H as (d2 & G2 & H).
  apply bind_Ok in H. destruct H as (r2 & _ & H).
  apply Ok_inj in H. subst c.
  split; [reflexivity |]. split; [apply (Hin _ _ _ _ G1) | apply (Hin _ _ _ _ G2)].
Qed.

Lemma map_result_circles (rounding : float -> result Z) (coeff : float)
    (raw_map equalized_map : dmap) (peaks : list peak) :
  forall cs,
    map_result (circle_of_peak rounding coeff raw_map equalized_map) peaks
    = Ok cs ->
    map centre cs = peaks /\
    Forall (fun p => inside raw_map p = true /\ inside equalized_map p = true)
      peaks.
Proof.
  induction peaks as [| p peaks IH]; intros cs H; simpl in H.
  - apply Ok_inj in H. subst cs. split; [reflexivity | constructor].
  - apply bind_Ok in H. destruct H as (c & Hc & H).
    apply bind_Ok in H. destruct H as (cs' & Hcs & H).
    apply Ok_inj in H. subst cs.
    apply circle_of_peak_centre in Hc. destruct Hc as (Hc & Hi).
    destruct (IH _ Hcs) as [E F].
    split; [simpl; congruence | constructor; assumption].
Qed.

(** X5. The circles [_extract_circles] returns are centred at peaks it
    was given: their centres, read as (row, column), are the peaks with
    some left out and the others in their order, so there are never more
    circles than peaks. *)
Theorem circles_centred_at_peaks :
  forall (cv : cv2.external) (self : t cv) (peaks : list peak)
         (dist_map equalized_dist_map : dmap) (circles : list circle),
    _extract_circles self peaks dist_map equalized_dist_map = Ok circles ->
    subsequence (map centre circles) peaks /\
    (length circles <= length peaks)%nat.
Proof.
  intros cv self peaks dm edm circles H.
  rewrite _extract_circles_spec in H. unfold extract_circles_spec in H.
  apply bind_Ok in H. destruct H as (coeff & _ & H).
  apply bind_Ok in H. destruct H as (cs & Hcs & H).
  apply Ok_inj in H. subst circles.
  apply map_result_circles in Hcs. destruct Hcs as [E _].
  assert (S : subsequence
                (map centre
                   (filter (fun c => floordiv (Settings.min_diameter (settings self)) 2
                                     <=? radius1 c) cs))
                peaks)
    by (rewrite <- E; apply subsequence_filter_map).
  split; [exact S |].
  apply subsequence_length in S. rewrite length_map in S. exact S.
Qed.

Lemma circles_centred_at_peaks_witness :
  subsequence (map centre [(1, 1, 1, 1); (-2, -2, 1, 1)])
    [(1, 1); (-1, 2); (-2, -2)] /\
  (length [(1, 1, 1, 1)%Z; (-2, -2, 1, 1)%Z]
   <= length [(1, 1)%Z; (-1, 2)%Z; (-2, -2)%Z])%nat.
Proof.
  apply (circles_centred_at_peaks TestBackend.opencv
           (Examples.segmenter
              (Examples.settings_with 100 150 2 Settings.default_peaks_rel_threshold))
           [(1, 1); (-1, 2); (-2, -2)] (Examples.dot f1) (Examples.dot f1)).
  vm_compute. reflexivity.
Defined.

(** X6. [_extract_circles] returns only when every peak indexes inside
    both distance maps (from the start, or from the end with a negative
    index): a peak outside either map makes the call raise. *)
Theorem extracted_peaks_inside_maps :
  forall (cv : cv2.external) (self : t cv) (peaks : list peak)
         (dist_map equalized_dist_map : dmap) (circles : list circle),
    _extract_circles self peaks dist_map equalized_dist_map = Ok circles ->
    Forall (fun p => inside dist_map p = true /\
                     inside equalized_dist_map p = true) peaks.
Proof.
  intros cv self peaks dm edm circles H.
  rewrite _extract_circles_spec in H. unfold extract_circles_spec in H.
  apply bind_Ok in H. destruct H as (coeff & _ & H).
  apply bind_Ok in H. destruct H as (cs & Hcs & _).
  apply map_result_circles in Hcs. apply Hcs.
Qed.

Lemma extracted_peaks_inside_maps_witness :
  Forall (fun p => inside (Examples.dot f1) p = true /\
                   inside (Examples.dot f1) p = true) [(1, 1); (-1, 2)].
Proof.
  apply (extracted_peaks_inside_maps TestBackend.opencv
           (Examples.segmenter
              (Examples.settings_with 100 150 1 Settings.default_peaks_rel_threshold))
           [(1, 1); (-1, 2)] (Examples.dot f1) (Examples.dot f1)
           [(1, 1, 1, 1); (2, -1, 0, 0)]).
  vm_compute. reflexivity.
Defined.

(** ** The range of the coefficient *)

Lemma same_float_eq (x y : float) : same_float x y = true -> x = y.
Proof.
  destruct x as [s | s | | s m e], y as [s' | s' | | s' m' e']; simpl;
    try discriminate; try reflexivity.
  - intros H. apply eqb_prop in H. congruence.
  - intros H. apply eqb_prop in H. congruence.
  - intros H. apply andb_true_iff in H. destruct H as [H He].
    apply andb_true_iff in H. destruct H as [Hs Hm].
    apply eqb_prop in Hs. apply Pos.eqb_eq in Hm. apply Z.eqb_eq in He.
    congruence.
Qed.

Lemma coefficient_top_table : forallb coefficient_top (range 255) = true.
Proof. vm_cast_no_check (@eq_refl bool true). Qed.

Lemma coefficient_at_255 (b : Z) : 0 <= b < 255 -> coefficient 255 b = Ok f2.
Proof.
  intros Hb.
  assert (Hb' : 0 <= b < Z.of_nat 255) by lia.
  pose proof (range_forallb _ _ coefficient_top_table b Hb') as H.
  unfold coefficient_top, returns_float in H.
  destruct (coefficient 255 b) as [c |]; [| discriminate].
  apply same_float_eq in H. congruence.
Qed.

Lemma coefficient_at_back_threshold (b : Z) :
  0 <= b < 255 -> coefficient b b = Ok f1.
Proof.
  intros Hb. unfold coefficient, int_truediv.
  rewrite Z.sub_diag.
  destruct (255 - b) as [| p | p] eqn:E; try lia.
  reflexivity.
Qed.

Lemma flt_fle (x y : float) : flt x y = true -> fle x y = true.
Proof.
  unfold flt, fle, SFltb, SFleb.
  destruct (SFcompare x y) as [[| |] |]; congruence.
Qed.

(** X7. With [back_threshold <= threshold] (and [back_threshold < 255])
    the compensation coefficient is computed and lies between 1.0 and 2.0:
    it is 1.0 when the two thresholds are equal and 2.0 when [threshold]
    is 255. *)
Theorem coefficient_between_one_and_two :
  forall (cv : cv2.external) (self : t cv),
    0 <= Settings.back_threshold (settings self) < 255 ->
    Settings.back_threshold (settings self)
      <= Settings.threshold (settings self) <= 255 ->
    exists c,
      compensation_coefficient self = Ok c /\
      fle f1 c = true /\ fle c f2 = true /\
      (Settings.threshold (settings self)
       = Settings.back_threshold (settings self) -> c = f1) /\
      (Settings.threshold (settings self) = 255 -> c = f2).
Proof.
  intros cv self Hb Ht.
  rewrite compensation_coefficient_eq.
  set (b := Settings.back_threshold (settings self)) in *.
  set (t := Settings.threshold (settings self)) in *.
  destruct (coefficient_canonical b t Hb ltac:(lia)) as (c & Ec & Fc & _ & Vc).
  exists c. split; [exact Ec |].
  assert (Lo : t = b -> c = f1).
  { intros ->. rewrite (coefficient_at_back_threshold b Hb) in Ec.
    apply Ok_inj in Ec. congruence. }
  assert (Hi : t = 255 -> c = f2).
  { intros ->. rewrite (coefficient_at_255 b Hb) in Ec.
    apply Ok_inj in Ec. congruence. }
  pose proof femin_eq as Hf.
  split; [| split; [| split; assumption]].
  - destruct (Z.eq_dec t b) as [e | n]; [rewrite (Lo e); reflexivity |].
    destruct (coefficient_lt b b t Hb ltac:(lia) ltac:(lia) ltac:(lia))
      as (x & y & Ex & Ey & Fx & Fy & Hlt).
    rewrite (coefficient_at_back_threshold b Hb) in Ex. apply Ok_inj in Ex.
    rewrite Ec in Ey. apply Ok_inj in Ey. subst x y.
    apply flt_fle, (flt_of_scaled (- femin)); try assumption. lia.
  - destruct (Z.eq_dec t 255) as [e | n]; [rewrite (Hi e); reflexivity |].
    destruct (coefficient_lt b t 255 Hb ltac:(lia) ltac:(lia) ltac:(lia))
      as (x & y & Ex & Ey & Fx & Fy & Hlt).
    rewrite (coefficient_at_255 b Hb) in Ey. apply Ok_inj in Ey.
    rewrite Ec in Ex. apply Ok_inj in Ex. subst x y.
    apply flt_fle, (flt_of_scaled (- femin)); try assumption. lia.
Qed.

Lemma coefficient_between_one_and_two_witness :
  exists c,
    compensation_coefficient
      (Examples.segmenter
         (Examples.settings_with 100 150 30 Settings.default_peaks_rel_threshold))
    = Ok c /\
    fle f1 c = true /\ fle c f2 = true.
Proof.
  destruct (coefficient_between_one_and_two TestBackend.opencv
              (Examples.segmenter
                 (Examples.settings_with 100 150 30
                    Settings.default_peaks_rel_threshold)))
    as (c & E & Lo & Hi & _).
  - cbn. lia.
  - cbn. lia.
  - exists c. auto.
Defined.

(** ** The mask grows with the image *)

Lemma Forall2_mapi_from {A A' B B' : Type} (R : A -> A' -> Prop)
    (S : B -> B' -> Prop) (f : Z -> A -> B) (g : Z -> A' -> B')
    (l : list A) (l' : list A') :
  (forall i a a', R a a' -> S (f i a) (g i a')) ->
  Forall2 R l l' ->
  forall i, Forall2 S (mapi_from f i l) (mapi_from g i l').
Proof.
  intros Hfg H. induction H as [| a a' l l' Ha _ IH]; intros i; simpl;
    constructor; auto.
Qed.

Lemma Forall2_nth_error_cases {A B : Type} (R : A -> B -> Prop)
    (l : list A) (l' : list B) :
  Forall2 R l l' ->
  forall n,
    match nth_error l n, nth_error l' n with
    | Some a, Some b => R a b
    | None, None => True
    | _, _ => False
    end.
Proof.
  intros H. induction H as [| a b l l' Hab _ IH]; intros [| n]; simpl; auto.
  apply IH.
Qed.

Lemma sample_le (a b : image) (i j : Z) :
  image_le a b ->
  match sample a i j, sample b i j with
  | Some v, Some w => v <= w
  | None, None => True
  | _, _ => False
  end.
Proof.
  intros H. unfold sample.
  destruct ((0 <=? i) && (0 <=? j)); [| exact I].
  pose proof (Forall2_nth_error_cases _ _ _ H (Z.to_nat i)) as Hi.
  destruct (nth_error a (Z.to_nat i)) as [ra |],
           (nth_error b (Z.to_nat i)) as [rb |]; try contradiction;
    [| exact I].
  apply (Forall2_nth_error_cases _ _ _ Hi (Z.to_nat j)).
Qed.

Lemma forall2b_Forall2 {A B : Type} (p : A -> B -> bool) (R : A -> B -> Prop)
    (l : list A) :
  (forall a b, p a b = true -> R a b) ->
  forall l', forall2b p l l' = true -> Forall2 R l l'.
Proof.
  intros Hp. induction l as [| a l IH]; intros [| b l'] H; simpl in H;
    try discriminate; constructor.
  - apply Hp. apply andb_true_iff in H. apply H.
  - apply IH. apply andb_true_iff in H. apply H.
Qed.

Lemma image_leb_le (a b : image) : image_leb a b = true -> image_le a b.
Proof.
  apply forall2b_Forall2. intros ra rb. apply forall2b_Forall2.
  intros v w. apply Z.leb_le.
Qed.

Section Monotone.

Variable op : Z -> Z -> Z.
Variable border : Z.
Hypothesis op_mono : forall a a' b b', a <= a' -> b <= b' -> op a b <= op a' b'.

Lemma morph_sample_mono (a b : image) (offsets : list (Z * Z)) (i j : Z) :
  image_le a b ->
  cv2.morph_sample op border a offsets i j
  <= cv2.morph_sample op border b offsets i j.
Proof.
  intros H. unfold cv2.morph_sample.
  assert (G : forall acc acc',
             acc <= acc' ->
             fold_left (fun acc d =>
                          match sample a (i + fst d) (j + snd d) with
                          | Some v => op acc v
                          | None => acc
                          end) offsets acc
             <= fold_left (fun acc d =>
                             match sample b (i + fst d) (j + snd d) with
                             | Some v => op acc v
                             | None => acc
                             end) offsets acc').
  { induction offsets as [| d offsets IH]; intros acc acc' Hacc; simpl;
      [exact Hacc |].
    apply IH.
    pose proof (sample_le a b (i + fst d) (j + snd d) H) as Hs.
    destruct (sample a (i + fst d) (j + snd d)),
             (sample b (i + fst d) (j + snd d)); try contradiction;
      [apply op_mono; assumption | exact Hacc]. }
  apply G. lia.
Qed.

Lemma morph_pass_mono (kernel a b : image) :
  image_le a b ->
  image_le (cv2.morph_pass op border kernel a)
           (cv2.morph_pass op border kernel b).
Proof.
  intros H. unfold cv2.morph_pass, mapi, image_le.
  apply (Forall2_mapi_from (Forall2 Z.le)); [| exact H].
  intros i ra rb Hr.
  apply (Forall2_mapi_from Z.le); [| exact Hr].
  intros j v w _. apply morph_sample_mono. exact H.
Qed.

Lemma repeat_pass_mono (kernel : image) (n : nat) :
  forall a b,
    image_le a b ->
    image_le (cv2.repeat_pass n (cv2.morph_pass op border kernel) a)
             (cv2.repeat_pass n (cv2.morph_pass op border kernel) b).
Proof.
  induction n as [| n IH]; intros a b H; simpl; [exact H |].
  apply IH, morph_pass_mono, H.
Qed.

End Monotone.

Lemma threshold_mono (a b : image) (t t' : Z) (ty : cv2.threshold_type) :
  image_le a b -> t' <= t ->
  image_le (cv2.threshold a t 255 ty) (cv2.threshold b t' 255 ty).
Proof.
  intros H Ht. unfold cv2.threshold, image_le.
  induction H as [| ra rb a b Hr _ IH]; simpl; constructor; [| exact IH].
  induction Hr as [| v w ra rb Hvw _ IHr]; simpl; constructor; [| exact IHr].
  destruct (t <? v) eqn:E1, (t' <? w) eqn:E2; lia.
Qed.

Lemma erode_mono (a b kernel : image) (n : Z) :
  image_le a b -> image_le (cv2.erode a kernel n) (cv2.erode b kernel n).
Proof.
  apply repeat_pass_mono. intros; apply Z.min_le_compat; assumption.
Qed.

Lemma dilate_mono (a b kernel : image) (n : Z) :
  image_le a b -> image_le (cv2.dilate a kernel n) (cv2.dilate b kernel n).
Proof.
  apply repeat_pass_mono. intros; apply Z.max_le_compat; assumption.
Qed.

(** X8. The foreground mask grows with the image and shrinks with
    [back_threshold]: for two runs of [_remove_background] with the same
    kernel size and [min_diameter], on an image that is nowhere brighter
    and with a [back_threshold] that is not lower, the mask is nowhere
    brighter. *)
Theorem remove_background_monotone :
  forall (cv : cv2.external) (self self' : t cv) (img img' mask mask' : image),
    Settings.morphology_kernel_size (settings self)
    = Settings.morphology_kernel_size (settings self') ->
    Settings.min_diameter (settings self)
    = Settings.min_diameter (settings self') ->
    Settings.back_threshold (settings self')
    <= Settings.back_threshold (settings self) ->
    image_le img img' ->
    _remove_background self img = Ok mask ->
    _remove_background self' img' = Ok mask' ->
    image_le mask mask'.
Proof.
  intros cv self self' img img' mask mask' Hk Hd Hb Himg H H'.
  unfold _remove_background in H, H'. rewrite <- Hk, <- Hd in H'.
  destruct (np.ones _ _) as [kernel |]; [| discriminate].
  cbn [bind] in H, H'. apply Ok_inj in H. apply Ok_inj in H'. subst mask mask'.
  unfold cv2.morphologyEx.
  apply dilate_mono, dilate_mono, erode_mono, threshold_mono; assumption.
Qed.

Lemma remove_background_monotone_witness :
  exists mask mask',
    _remove_background
      (Examples.segmenter
         (Examples.settings_with 220 150 2 Settings.default_peaks_rel_threshold))
      (Examples.square 11 4 6 200 0) = Ok mask /\
    _remove_background
      (Examples.segmenter
         (Examples.settings_with 100 150 2 Settings.default_peaks_rel_threshold))
      (Examples.square 11 3 7 210 0) = Ok mask' /\
    image_le mask mask'.
Proof.
  eexists. eexists.
  split; [vm_compute; reflexivity |]. split; [vm_compute; reflexivity |].
  apply (remove_background_monotone TestBackend.opencv
           (Examples.segmenter
              (Examples.settings_with 220 150 2 Settings.default_peaks_rel_threshold))
           (Examples.segmenter
              (Examples.settings_with 100 150 2 Settings.default_peaks_rel_threshold))
           (Examples.square 11 4 6 200 0) (Examples.square 11 3 7 210 0));
    try reflexivity.
  - cbn. lia.
  - apply image_leb_le. vm_compute. reflexivity.
Defined.

(** ** Uniform images *)

Lemma In_concat_mapi_from {A B : Type} (f : Z -> A -> list B) (l : list A)
    (y : B) :
  forall i n a,
    nth_error l n = Some a -> In y (f (i + Z.of_nat n) a) ->
    In y (concat (mapi_from f i l)).
Proof.
  induction l as [| b l IH]; intros i [| n] a Hn Hy; simpl in *;
    try discriminate; apply in_or_app.
  - injection Hn as ->. rewrite Z.add_0_r in Hy. left. exact Hy.
  - right. apply (IH (i + 1) n a Hn).
    replace (i + 1 + Z.of_nat n) with (i + Z.pos (Pos.of_succ_nat n)) by lia.
    exact Hy.
Qed.

(** The anchor of a square kernel of ones is one of its offsets. *)
Lemma ones_anchor (k : Z) (kernel : image) :
  np.ones k k = Ok kernel -> In (0, 0) (cv2.kernel_offsets kernel).
Proof.
  unfold np.ones. destruct ((k <? 0) || (k <? 0)) eqn:E; [discriminate |].
  apply orb_false_iff in E. destruct E as [E _]. apply Z.ltb_ge in E.
  intros H. apply Ok_inj in H. subst kernel.
  destruct (Z.to_nat k) as [| n] eqn:En.
  - vm_compute. auto 10.
  - set (m := S n). set (row := repeat 1 m).
    assert (Hoff : cv2.kernel_offsets (repeat row m)
                   = concat (mapi (fun i r =>
                       concat (mapi (fun j v =>
                                 if v =? 0 then []
                                 else [(i - Z.of_nat m / 2, j - Z.of_nat m / 2)])
                               r)) (repeat row m))).
    { unfold cv2.kernel_offsets. subst m. cbn [repeat hd].
      fold (repeat row (S n)). change (row :: repeat row n) with (repeat row (S n)).
      rewrite repeat_length. subst row. rewrite repeat_length. reflexivity. }
    rewrite Hoff. subst row.
    set (a := Z.of_nat m / 2).
    assert (Ha : 0 <= a < Z.of_nat m).
    { subst a. split; [apply Z.div_pos; lia |].
      apply Z.div_lt_upper_bound; lia. }
    unfold mapi.
    apply (In_concat_mapi_from _ _ _ 0 (Z.to_nat a) (repeat 1 m)).
    + apply nth_error_repeat. lia.
    + apply (In_concat_mapi_from _ _ _ 0 (Z.to_nat a) 1).
      * apply nth_error_repeat. lia.
      * rewrite !Z.add_0_l, Z2Nat.id by lia. cbn [Z.eqb].
        rewrite Z.sub_diag. left. reflexivity.
Qed.

Section Uniform.

Variable op : Z -> Z -> Z.
Variables border z : Z.
Hypothesis op_z : op z z = z.
Hypothesis op_border : op border z = z.

Lemma morph_sample_uniform (src : image) (offsets : list (Z * Z)) (i j : Z) :
  Forall (Forall (fun v => v = z)) src ->
  (exists d, In d offsets /\ sample src (i + fst d) (j + snd d) <> None) ->
  cv2.morph_sample op border src offsets i j = z.
Proof.
  intros Hsrc Hhit. unfold cv2.morph_sample.
  assert (G : forall acc,
             acc = z \/
             (acc = border /\
              exists d, In d offsets /\
                        sample src (i + fst d) (j + snd d) <> None) ->
             fold_left (fun acc d =>
                          match sample src (i + fst d) (j + snd d) with
                          | Some v => op acc v
                          | None => acc
                          end) offsets acc = z).
  { clear Hhit. induction offsets as [| d offsets IH]; intros acc Hacc; simpl.
    - destruct Hacc as [-> | (_ & d & [] & _)]. reflexivity.
    - apply IH.
      destruct (sample src (i + fst d) (j + snd d)) as [v |] eqn:E.
      + left. apply (sample_Forall _ _ _ _ _ Hsrc) in E. subst v.
        destruct Hacc as [-> | [-> _]]; assumption.
      + destruct Hacc as [-> | (-> & d' & [<- | Hd'] & Hs)];
          [left; reflexivity | congruence |].
        right. split; [reflexivity |]. exists d'. auto. }
  apply G. right. split; [reflexivity | exact Hhit].
Qed.

Lemma morph_pass_uniform (kernel src : image) :
  In (0, 0) (cv2.kernel_offsets kernel) ->
  Forall (Forall (fun v => v = z)) src ->
  Forall (Forall (fun v => v = z)) (cv2.morph_pass op border kernel src).
Proof.
  intros Hk Hsrc. unfold cv2.morph_pass, mapi.
  apply Forall_forall. intros row' Hrow'.
  apply mapi_from_In in Hrow'. destruct Hrow' as (n & row & Hn & ->).
  apply Forall_forall. intros v' Hv'.
  apply mapi_from_In in Hv'. destruct Hv' as (m & v & Hm & ->).
  apply morph_sample_uniform; [exact Hsrc |].
  exists (0, 0). split; [exact Hk |]. cbn [fst snd].
  unfold sample. rewrite !Z.add_0_l, !Z.add_0_r.
  assert (E : (0 <=? Z.of_nat n) && (0 <=? Z.of_nat m) = true)
    by (apply andb_true_iff; split; apply Z.leb_le; lia).
  rewrite E, !Nat2Z.id, Hn, Hm. discriminate.
Qed.

Lemma repeat_pass_uniform (kernel : image) (n : nat) :
  In (0, 0) (cv2.kernel_offsets kernel) ->
  forall src,
    Forall (Forall (fun v => v = z)) src ->
    Forall (Forall (fun v => v = z))
      (cv2.repeat_pass n (cv2.morph_pass op border kernel) src).
Proof.
  intros Hk. induction n as [| n IH]; intros src Hsrc; simpl; [exact Hsrc |].
  apply IH, morph_pass_uniform; assumption.
Qed.

End Uniform.

Lemma uniform_image (a b : image) (z : Z) :
  dims a = dims b -> Forall (Forall (fun v => v = z)) a ->
  a = map (map (fun _ => z)) b.
Proof.
  revert b. induction a as [| ra a IH]; intros [| rb b] Hd Ha; simpl in *;
    try discriminate; [reflexivity |].
  injection Hd as Hr Hd. inversion Ha as [| ? ? Hra Ha']; subst.
  f_equal; [| apply IH; assumption].
  clear - Hr Hra. revert rb Hr.
  induction ra as [| v ra IH]; intros [| w rb] Hr; simpl in *;
    try discriminate; [reflexivity |].
  inversion Hra as [| ? ? Hv Hra']; subst. f_equal. apply IH; [assumption | lia].
Qed.

Lemma threshold_uniform (src : image) (t z : Z) (ty : cv2.threshold_type) :
  Forall (Forall (fun v => (if t <? v then 255 else 0) = z)) src ->
  Forall (Forall (fun v => v = z)) (cv2.threshold src t 255 ty).
Proof.
  intros H. unfold cv2.threshold.
  apply Forall_map. eapply Forall_impl; [| exact H].
  intros row Hrow. apply Forall_map. exact Hrow.
Qed.

Lemma _remove_background_constant {cv : cv2.external} (self : t cv)
    (img : image) (z : Z) :
  0 <= Settings.morphology_kernel_size (settings self) ->
  z = 0 \/ z = 255 ->
  Forall (Forall (fun v =>
            (if Settings.back_threshold (settings self) <? v then 255 else 0)
            = z)) img ->
  _remove_background self img = Ok (map (map (fun _ => z)) img).
Proof.
  intros Hk Hz Himg. unfold _remove_background.
  destruct (np.ones _ _) as [kernel | e] eqn:Ek.
  2: { unfold np.ones in Ek.
       assert (E : (Settings.morphology_kernel_size (settings self) <? 0)
                   = false) by (apply Z.ltb_ge; lia).
       rewrite E in Ek. discriminate. }
  apply ones_anchor in Ek. cbn [bind]. f_equal.
  apply uniform_image.
  - unfold cv2.morphologyEx. rewrite !dilate_dims, erode_dims.
    apply threshold_dims.
  - unfold cv2.morphologyEx, cv2.dilate, cv2.erode.
    apply (threshold_uniform _ _ _ cv2.THRESH_BINARY) in Himg.
    destruct Hz as [-> | ->].
    + apply repeat_pass_uniform; try reflexivity; try assumption.
      apply repeat_pass_uniform; try reflexivity; try assumption.
      apply repeat_pass_uniform; try reflexivity; assumption.
    + apply repeat_pass_uniform; try reflexivity; try assumption.
      apply repeat_pass_uniform; try reflexivity; try assumption.
      apply repeat_pass_uniform; try reflexivity; assumption.
Qed.

(** X9. On an image with no sample above [back_threshold] the
    foreground mask is 0 everywhere, and on an image whose samples are all
    above it the mask is 255 everywhere, whatever the kernel size and
    [min_diameter]. *)
Theorem remove_background_uniform :
  forall (cv : cv2.external) (self : t cv) (img : image),
    0 <= Settings.morphology_kernel_size (settings self) ->
    (Forall (Forall (fun v => v <= Settings.back_threshold (settings self)))
       img ->
     _remove_background self img = Ok (map (map (fun _ => 0)) img)) /\
    (Forall (Forall (fun v => Settings.back_threshold (settings self) < v))
       img ->
     _remove_background self img = Ok (map (map (fun _ => 255)) img)).
Proof.
  intros cv self img Hk. split; intros H.
  - apply _remove_background_constant; [exact Hk | left; reflexivity |].
    eapply Forall_impl; [| exact H]. intros row Hrow.
    eapply Forall_impl; [| exact Hrow]. cbn beta. intros v Hv.
    destruct (_ <? v) eqn:E; [lia | reflexivity].
  - apply _remove_background_constant; [exact Hk | right; reflexivity |].
    eapply Forall_impl; [| exact H]. intros row Hrow.
    eapply Forall_impl; [| exact Hrow]. cbn beta. intros v Hv.
    destruct (_ <? v) eqn:E; [reflexivity | lia].
Qed.

Lemma remove_background_uniform_witness :
  _remove_background
    (Examples.segmenter
       (Examples.settings_with 100 150 30 Settings.default_peaks_rel_threshold))
    (Examples.square 5 1 3 90 10)
  = Ok (map (map (fun _ => 0)) (Examples.square 5 1 3 90 10)).
Proof.
  apply (remove_background_uniform TestBackend.opencv
           (Examples.segmenter
              (Examples.settings_with 100 150 30
                 Settings.default_peaks_rel_threshold))
           (Examples.square 5 1 3 90 10)).
  - cbn. lia.
  - repeat (constructor; [repeat (constructor; [cbn; lia |]); constructor |]).
    constructor.
Defined.

(** ** Masking the preprocessed image *)

Lemma _remove_background_mask {cv : cv2.external} (self : t cv)
    (img mask : image) :
  _remove_background self img = Ok mask ->
  dims mask = dims img /\ Forall (Forall binary_sample) mask.
Proof.
  unfold _remove_background. intros H.
  destruct (np.ones _ _) as [kernel |]; [| discriminate].
  cbn [bind] in H. apply Ok_inj in H. subst mask. split.
  - unfold cv2.morphologyEx. rewrite !dilate_dims, erode_dims.
    apply threshold_dims.
  - apply dilate_binary. unfold cv2.morphologyEx.
    apply dilate_binary, erode_binary, threshold_binary.
Qed.

Lemma dims_nth_error {A B : Type} (a : list (list A)) (b : list (list B)) :
  dims a = dims b ->
  forall n row,
    nth_error a n = Some row ->
    exists row', nth_error b n = Some row' /\ length row' = length row.
Proof.
  revert b. induction a as [| ra a IH]; intros [| rb b] Hd [| n] row H;
    simpl in *; try discriminate.
  - injection H as <-. injection Hd as Hr _. exists rb. auto.
  - injection Hd as _ Hd. apply (IH b Hd n row H).
Qed.

Lemma sample_dims {A B : Type} (a : list (list A)) (b : list (list B))
    (i j : Z) (v : A) :
  dims a = dims b -> sample a i j = Some v -> exists w, sample b i j = Some w.
Proof.
  intros Hd. unfold sample.
  destruct ((0 <=? i) && (0 <=? j)); [| discriminate].
  destruct (nth_error a (Z.to_nat i)) as [row |] eqn:Ei; [| discriminate].
  destruct (dims_nth_error a b Hd _ _ Ei) as (row' & -> & Hl).
  intros Hj.
  assert (Hlt : (Z.to_nat j < length row')%nat).
  { rewrite Hl. apply nth_error_Some. congruence. }
  apply nth_error_Some in Hlt.
  destruct (nth_error row' (Z.to_nat j)) as [w |]; [| congruence].
  exists w. reflexivity.
Qed.

Lemma same_dims_true (a b : image) : dims a = dims b -> cv2.same_dims a b = true.
Proof.
  intros H. unfold cv2.same_dims.
  destruct (list_eq_dec Nat.eq_dec (dims a) (dims b)); congruence.
Qed.

(** X10. The masking step of [segment] cannot fail: the mask
    [_remove_background] returns for an image has its dimensions, so
    [cv2.bitwise_and(image, image, mask=mask)] returns, and the masked image
    holds the image's sample wherever the mask is 255 and 0 wherever the
    mask is 0. *)
Theorem masking_keeps_foreground :
  forall (cv : cv2.external) (self : t cv) (preprocessed mask : image),
    _remove_background self preprocessed = Ok mask ->
    exists masked_image,
      cv2.bitwise_and preprocessed preprocessed mask = Ok masked_image /\
      dims masked_image = dims preprocessed /\
      forall i j v,
        sample preprocessed i j = Some v ->
        (sample mask i j = Some 0 /\ sample masked_image i j = Some 0) \/
        (sample mask i j = Some 255 /\ sample masked_image i j = Some v).
Proof.
  intros cv self pre mask H.
  apply _remove_background_mask in H. destruct H as [Hd Hb].
  unfold cv2.bitwise_and.
  rewrite (same_dims_true pre pre eq_refl),
          (same_dims_true pre mask (eq_sym Hd)).
  cbn [andb]. eexists. split; [reflexivity |].
  split; [apply dims_mapi |].
  intros i j v Hv.
  rewrite (sample_mapi
             (fun i j v =>
                match sample pre i j, sample mask i j with
                | Some w, Some m => if m =? 0 then 0 else Z.land v w
                | _, _ => 0
                end)).
  rewrite Hv. cbn [option_map].
  destruct (sample_dims pre mask i j v (eq_sym Hd) Hv) as (m & Hm).
  rewrite Hm.
  destruct (sample_Forall _ _ _ _ _ Hb Hm) as [-> | ->]; [left | right];
    split; try reflexivity.
  cbn [Z.eqb]. rewrite Z.land_diag. reflexivity.
Qed.

Lemma masking_keeps_foreground_witness :
  exists mask masked_image,
    _remove_background
      (Examples.segmenter
         (Examples.settings_with 100 150 2 Settings.default_peaks_rel_threshold))
      (Examples.square 21 9 11 200 7) = Ok mask /\
    cv2.bitwise_and (Examples.square 21 9 11 200 7)
      (Examples.square 21 9 11 200 7) mask = Ok masked_image /\
    sample masked_image 10 10 = Some 200 /\
    sample masked_image 5 5 = Some 7 /\
    sample masked_image 0 0 = Some 0.
Proof.
  set (self := Examples.segmenter
                 (Examples.settings_with 100 150 2
                    Settings.default_peaks_rel_threshold)).
  set (img := Examples.square 21 9 11 200 7).
  set (mask := match _remove_background self img with
               | Ok m => m
               | Raise _ => []
               end).
  assert (Hmask : _remove_background self img = Ok mask)
    by (vm_compute; reflexivity).
  destruct (masking_keeps_foreground TestBackend.opencv self img mask Hmask)
    as (masked & E & _ & Hs).
  exists mask, masked. split; [exact Hmask |]. split; [exact E |].
  split; [| split].
  - destruct (Hs 10 10 200 eq_refl) as [[Hm _] | [_ Hv]];
      [vm_compute in Hm; discriminate | exact Hv].
  - destruct (Hs 5 5 7 eq_refl) as [[Hm _] | [_ Hv]];
      [vm_compute in Hm; discriminate | exact Hv].
  - destruct (Hs 0 0 7 eq_refl) as [[_ Hv] | [Hm _]];
      [exact Hv | vm_compute in Hm; discriminate].
Defined.

(** ** [validate_parameters] *)

Lemma float_of_int_unit (n : Z) :
  0 <= n <= 1 -> float_of_int n = Ok (if n =? 0 then f0 else f1).
Proof.
  intros H. assert (E : n = 0 \/ n = 1) by lia.
  destruct E as [-> | ->]; reflexivity.
Qed.

(** What [validate_parameters] returns. *)
Lemma validate_parameters_cases (settings : validators.dict) :
  validators.validate_parameters settings
  = if validators.all_valid settings then Ok (validators.selected settings)
    else Raise ValueError.
Proof.
  unfold validators.validate_parameters, validators.all_valid,
    validators.selected, validators.known_keys.
  cbn [for_each forallb flat_map].
  unfold validators.validate_threshold, validators.validate_min_diameter,
    validators.validate_peaks_rel_threshold, validators.valid,
    validators.stored.
  repeat first
    [ reflexivity
    | match goal with
      | |- context [validators.get ?k settings] =>
          destruct (validators.get k settings) as [[| [|] | ? | ? | ?] |]
      | |- context [(0 <=? ?n) && (?n <=? 255)] =>
          destruct ((0 <=? n) && (n <=? 255))
      | |- context [?n <? 1] =>
          rewrite (Z.leb_antisym n 1); destruct (n <? 1)
      | |- context [float_of_int ?n] =>
          let E := fresh "E" in
          destruct ((0 <=? n) && (n <=? 1)) eqn:E;
          [rewrite (float_of_int_unit n) by lia |]
      | |- context [fle f0 ?x && fle ?x f1] =>
          destruct (fle f0 x && fle x f1)
      end; cbn ].
Qed.

(** X11. [validate_parameters] returns exactly when each of the four keys
    it knows is absent or holds a valid value (an [int], or a [bool], in
    0..255 for the thresholds and at least 1 for [min_diameter]; a number
    in [0, 1] for [peaks_rel_threshold]); otherwise it raises
    [ValueError] and nothing else.  What it returns are the items of those
    keys in a fixed order, the values as given but [peaks_rel_threshold]
    converted to [float]; every other key is dropped. *)
Theorem validate_parameters_accepts :
  forall settings : validators.dict,
    validators.validate_parameters settings
    = if validators.all_valid settings
      then Ok (validators.selected settings)
      else Raise ValueError.
Proof.
  intros settings.
  unfold validators.validate_parameters, validators.all_valid,
    validators.selected, validators.known_keys.
  cbn [for_each forallb flat_map].
  unfold validators.validate_threshold, validators.validate_min_diameter,
    validators.validate_peaks_rel_threshold, validators.valid,
    validators.stored.
  repeat first
    [ reflexivity
    | match goal with
      | |- context [validators.get ?k settings] =>
          destruct (validators.get k settings) as [[| [|] | ? | ? | ?] |]
      | |- context [(0 <=? ?n) && (?n <=? 255)] =>
          destruct ((0 <=? n) && (n <=? 255))
      | |- context [?n <? 1] =>
          rewrite (Z.leb_antisym n 1); destruct (n <? 1)
      | |- context [float_of_int ?n] =>
          let E := fresh "E" in
          destruct ((0 <=? n) && (n <=? 1)) eqn:E;
          [rewrite (float_of_int_unit n) by lia |]
      | |- context [fle f0 ?x && fle ?x f1] =>
          destruct (fle f0 x && fle x f1)
      end; cbn ].
Qed.

Lemma selected_get (settings : validators.dict) (key : String.string)
    (v : validators.value) :
  validators.all_valid settings = true ->
  validators.get key (validators.selected settings) = Some v ->
  In key validators.known_keys /\
  exists w, validators.get key settings = Some w /\
            validators.valid key w = true /\ v = validators.stored key w.
Proof.
  unfold validators.all_valid, validators.selected, validators.known_keys.
  cbn [forallb flat_map]. intros Hv Hg.
  repeat (apply andb_true_iff in Hv;
          let H := fresh "V" in destruct Hv as [H Hv]).
  clear Hv.
  destruct (validators.get validators.back_threshold settings) eqn:G1,
    (validators.get validators.threshold settings) eqn:G2,
    (validators.get validators.min_diameter settings) eqn:G3,
    (validators.get validators.peaks_rel_threshold settings) eqn:G4;
    cbn [app validators.get] in Hg;
    repeat match type of Hg with
           | context [String.eqb ?k key] =>
               let E := fresh "K" in
               destruct (String.eqb k key) eqn:E;
               [apply String.eqb_eq in E; subst key;
                injection Hg as <-;
                split; [cbn; auto 6 | eexists; eauto] |]
           end;
    discriminate.
Qed.

(** X12. In a dictionary [validate_parameters] returns, every key is one
    of the four it knows and was a key of the input; a threshold is the
    input's value, an integer in 0..255; [min_diameter] is the input's
    value, an integer of at least 1; [peaks_rel_threshold] is a [float]
    between 0.0 and 1.0. *)
Theorem validated_parameters_in_ranges :
  forall (settings validated : validators.dict) (key : String.string)
         (v : validators.value),
    validators.validate_parameters settings = Ok validated ->
    validators.get key validated = Some v ->
    (key = validators.back_threshold \/ key = validators.threshold ->
     validators.get key settings = Some v /\
     exists n, validators.as_int v = Some n /\ 0 <= n <= 255) /\
    (key = validators.min_diameter ->
     validators.get key settings = Some v /\
     exists n, validators.as_int v = Some n /\ 1 <= n) /\
    (key = validators.peaks_rel_threshold ->
     exists x, v = validators.VFloat x /\
               fle f0 x = true /\ fle x f1 = true) /\
    In key validators.known_keys /\
    exists w, validators.get key settings = Some w.
Proof.
  intros settings validated key v H Hg.
  rewrite validate_parameters_cases in H.
  destruct (validators.all_valid settings) eqn:Hv; [| discriminate].
  apply Ok_inj in H. subst validated.
  destruct (selected_get settings key v Hv Hg) as (Hin & w & Gw & Vw & ->).
  split; [| split; [| split; [| split; [exact Hin | eauto]]]].
  - intros [-> | ->]; (split; [exact Gw |]);
      unfold validators.valid in Vw; cbn in Vw;
      unfold validators.stored; cbn;
      (destruct (validators.as_int w) as [n |]; [| discriminate]);
      exists n; split; [reflexivity | lia | reflexivity | lia].
  - intros ->. split; [exact Gw |].
    unfold validators.valid in Vw. cbn in Vw.
    unfold validators.stored. cbn.
    destruct (validators.as_int w) as [n |]; [| discriminate].
    exists n. split; [reflexivity | lia].
  - intros ->. unfold validators.valid in Vw. cbn in Vw.
    unfold validators.stored. cbn.
    destruct (validators.as_int w) as [n |].
    + eexists. split; [reflexivity |].
      destruct (n =? 0); split; reflexivity.
    + destruct w as [| b | m | x | s]; try discriminate.
      exists x. split; [reflexivity |].
      apply andb_true_iff in Vw. exact Vw.
Qed.

Lemma validated_parameters_in_ranges_witness :
  exists n, validators.as_int (validators.VBool true) = Some n /\ 1 <= n.
Proof.
  destruct (validated_parameters_in_ranges
              [(validators.min_diameter, validators.VBool true);
               (validators.threshold, validators.VInt 7)]
              [(validators.threshold, validators.VInt 7);
               (validators.min_diameter, validators.VBool true)]
              validators.min_diameter (validators.VBool true)
              eq_refl eq_refl) as (_ & H & _).
  destruct (H eq_refl) as [_ Hn]. exact Hn.
Defined.

(** X13. Validating a validated dictionary changes nothing:
    [validate_parameters] returns its argument when that is a dictionary
    it returned before. *)
Theorem validate_parameters_idempotent :
  forall settings validated : validators.dict,
    validators.validate_parameters settings = Ok validated ->
    validators.validate_parameters validated = Ok validated.
Proof.
  intros settings validated H.
  rewrite validate_parameters_cases in H.
  destruct (validators.all_valid settings) eqn:Hv; [| discriminate].
  apply Ok_inj in H. subst validated.
  rewrite validate_parameters_cases.
  revert Hv.
  unfold validators.all_valid, validators.selected, validators.known_keys.
  cbn [forallb flat_map]. intros Hv.
  repeat (apply andb_true_iff in Hv;
          let H := fresh "V" in destruct Hv as [H Hv]).
  clear Hv.
  repeat match goal with
         | H : context [validators.get ?k settings] |- _ =>
             destruct (validators.get k settings) as [[| [|] | ? | ? | ?] |]
         end;
    cbn in *; try discriminate;
    repeat match goal with
           | H : ?c = true |- context [?c] => rewrite H
           | |- context [?n =? 0] => destruct (n =? 0)
           end;
    cbn; try reflexivity.
Qed.

Lemma validate_parameters_idempotent_witness :
  validators.validate_parameters
    [(validators.threshold, validators.VInt 7);
     (validators.peaks_rel_threshold, validators.VFloat f1)]
  = Ok [(validators.threshold, validators.VInt 7);
        (validators.peaks_rel_threshold, validators.VFloat f1)].
Proof.
  apply (validate_parameters_idempotent
           [(validators.peaks_rel_threshold, validators.VInt 1);
            (validators.threshold, validators.VInt 7);
            (String.EmptyString, validators.VNone)]).
  reflexivity.
Defined.

(** ** The CSV file holds the circles *)

Section CsvText.

Import String Ascii.

Lemma append_assoc (a b c : string) :
  ((a ++ b) ++ c)%string = (a ++ (b ++ c))%string.
Proof. induction a as [| x a IH]; simpl; [reflexivity | rewrite IH; reflexivity]. Qed.

Lemma append_empty_r (a : string) : (a ++ EmptyString)%string = a.
Proof. induction a as [| x a IH]; simpl; [reflexivity | rewrite IH; reflexivity]. Qed.

Lemma without_app (c : ascii) (s t : string) :
  csv.without c (s ++ t)%string = csv.without c s && csv.without c t.
Proof.
  induction s as [| a s IH]; simpl; [reflexivity |].
  rewrite IH, andb_assoc. reflexivity.
Qed.

Lemma split_without (c : ascii) (s : string) :
  csv.without c s = true -> csv.split c s = [s].
Proof.
  induction s as [| a s IH]; simpl; [reflexivity |].
  intros H. apply andb_true_iff in H. destruct H as [Ha Hs].
  apply negb_true_iff in Ha. rewrite Ha, (IH Hs). reflexivity.
Qed.

Lemma split_app (c : ascii) (s t : string) :
  csv.without c s = true ->
  csv.split c (s ++ String c t)%string = s :: csv.split c t.
Proof.
  induction s as [| a s IH]; simpl.
  - intros _. rewrite Ascii.eqb_refl. reflexivity.
  - intros H. apply andb_true_iff in H. destruct H as [Ha Hs].
    apply negb_true_iff in Ha. rewrite Ha, (IH Hs). reflexivity.
Qed.

Lemma chop_app (c : ascii) (s : string) :
  csv.chop c (s ++ String c EmptyString)%string = Some s.
Proof.
  induction s as [| a s IH]; simpl.
  - rewrite Ascii.eqb_refl. reflexivity.
  - rewrite IH. destruct s; reflexivity.
Qed.

(** A decimal numeral holds digits and at most a minus sign. *)
Lemma digits_without (c : ascii) (d : Decimal.uint) :
  (c = csv.comma \/ c = csv.CR \/ c = csv.LF) ->
  csv.without c (DecimalString.NilEmpty.string_of_uint d) = true.
Proof.
  intros [-> | [-> | ->]]; induction d; simpl; auto.
Qed.

Lemma str_without (c : ascii) (n : Z) :
  (c = csv.comma \/ c = csv.CR \/ c = csv.LF) ->
  csv.without c (csv.str n) = true.
Proof.
  intros Hc. unfold csv.str, DecimalString.NilZero.string_of_int.
  assert (U : forall d, csv.without c (DecimalString.NilZero.string_of_uint d)
                        = true).
  { intros d. unfold DecimalString.NilZero.string_of_uint.
    destruct d; try apply (digits_without c _ Hc).
    destruct Hc as [-> | [-> | ->]]; reflexivity. }
  destruct (Z.to_int n) as [d | d]; [apply U |].
  cbn [csv.without]. rewrite U.
  destruct Hc as [-> | [-> | ->]]; reflexivity.
Qed.

Lemma read_int_str (n : Z) : csv.read_int (csv.str n) = Some n.
Proof.
  unfold csv.read_int, csv.str.
  rewrite DecimalString.NilZero.isi.
  - cbn [option_map]. rewrite DecimalZ.of_to. reflexivity.
  - destruct n as [| p | p]; simpl; try discriminate.
    intros H. injection H as H.
    apply (DecimalPos.Unsigned.to_uint_nonnil p H).
  - destruct n as [| p | p]; simpl; try discriminate.
    intros H. injection H as H.
    apply (DecimalPos.Unsigned.to_uint_nonnil p H).
Qed.

Lemma read_row_of_circle (c : circle) :
  csv.read_row (csv.join (csv.row_of_circle c) ++ String csv.CR EmptyString)%string
  = Some c.
Proof.
  destruct c as [[[x y] r1] r2]. unfold csv.read_row.
  rewrite chop_app. cbn [csv.row_of_circle csv.join].
  rewrite !split_app by (apply str_without; auto).
  rewrite split_without by (apply str_without; auto).
  cbn [List.map]. rewrite !read_int_str. reflexivity.
Qed.

Lemma row_without_LF (c : circle) :
  csv.without csv.LF
    (csv.join (csv.row_of_circle c) ++ String csv.CR EmptyString)%string = true.
Proof.
  destruct c as [[[x y] r1] r2]. cbn [csv.row_of_circle csv.join].
  rewrite !without_app. cbn [csv.without].
  rewrite !without_app. cbn [csv.without].
  rewrite !without_app. cbn [csv.without].
  rewrite !str_without by auto. reflexivity.
Qed.

Lemma writerow_line (fields : list string) (rest : string) :
  csv.without csv.LF (csv.join fields ++ String csv.CR EmptyString)%string
  = true ->
  csv.split csv.LF (csv.writerow fields ++ rest)%string
  = (csv.join fields ++ String csv.CR EmptyString)%string
    :: csv.split csv.LF rest.
Proof.
  intros H. unfold csv.writerow.
  replace (csv.join fields ++ String csv.CR (String csv.LF EmptyString))%string
    with ((csv.join fields ++ String csv.CR EmptyString)
          ++ String csv.LF EmptyString)%string
    by (rewrite append_assoc; reflexivity).
  rewrite append_assoc. cbn [append]. apply split_app. exact H.
Qed.

Lemma read_rows_writerows (circles : list circle) :
  csv.read_rows (csv.split csv.LF (csv.writerows circles)) = Some circles.
Proof.
  unfold csv.writerows.
  induction circles as [| c circles IH]; [reflexivity |].
  cbn [List.map String.concat].
  assert (E : (match List.map (fun c => csv.writerow (csv.row_of_circle c)) circles with
               | [] => csv.writerow (csv.row_of_circle c)
               | _ :: _ =>
                   csv.writerow (csv.row_of_circle c)
                   ++ EmptyString
                   ++ String.concat EmptyString
                        (List.map (fun c => csv.writerow (csv.row_of_circle c))
                           circles)
               end)%string
              = (csv.writerow (csv.row_of_circle c)
                 ++ String.concat EmptyString
                      (List.map (fun c => csv.writerow (csv.row_of_circle c))
                         circles))%string).
  { destruct circles; [cbn; rewrite append_empty_r |]; reflexivity. }
  rewrite E. rewrite writerow_line by apply row_without_LF.
  destruct (csv.split csv.LF _) as [| l ls] eqn:S; [discriminate |].
  cbn [csv.read_rows]. cbn [csv.read_rows] in IH.
  rewrite read_row_of_circle, IH. reflexivity.
Qed.

(** X14. The text [to_csv] writes for a list of circles, with or without
    the header row, is read back as that list by a reader that splits it
    at line feeds and commas and reads decimal integers: negative radii
    included, nothing is lost, and two lists with the same text are the
    same list. *)
Theorem csv_text_round_trip :
  forall (circles circles' : list circle) (header : bool),
    csv.read_csv (csv.to_csv_text circles header) header = Some circles /\
    (csv.to_csv_text circles header = csv.to_csv_text circles' header ->
     circles = circles').
Proof.
  assert (R : forall circles header,
             csv.read_csv (csv.to_csv_text circles header) header
             = Some circles).
  { intros circles header. unfold csv.read_csv, csv.to_csv_text.
    destruct header.
    - rewrite writerow_line by reflexivity.
      rewrite String.eqb_refl. apply read_rows_writerows.
    - cbn [append]. pose proof (read_rows_writerows circles) as H.
      destruct (csv.split csv.LF _); exact H. }
  intros circles circles' header. split; [apply R |].
  intros E. pose proof (R circles header) as H.
  rewrite E, R in H. congruence.
Qed.

End CsvText.

(** ** Paths and images *)

Lemma validate_image_path_cases (os : host.external) (s : String.string)
    (w : host.world os) :
  snd (host.validate_image_path os s w) = w /\
  forall p,
    fst (host.validate_image_path os s w) = host.Returned p ->
    p = host.Path os s /\
    host.path_exists os p (host.outside w) = true /\
    host.path_is_file os p (host.outside w) = true /\
    existsb (String.eqb (host.suffix_lower os p)) host.valid_extensions = true.
Proof.
  unfold host.validate_image_path, host.and_then, host.inspect, host.raise,
    host.ret.
  destruct (host.path_exists os (host.Path os s) (host.outside w)) eqn:E1;
    cbn [negb]; [| split; [reflexivity | discriminate]].
  destruct (host.path_is_file os (host.Path os s) (host.outside w)) eqn:E2;
    cbn [negb]; [| split; [reflexivity | discriminate]].
  destruct (existsb _ host.valid_extensions) eqn:E; cbn [negb];
    [| split; [reflexivity | discriminate]].
  split; [reflexivity |]. intros p [= <-]. auto.
Qed.

Lemma load_image_cases (os : host.external) (p : host.path os)
    (w : host.world os) :
  snd (host.load_image os p w) = w /\
  forall image,
    fst (host.load_image os p w) = host.Returned image ->
    host.imread os (host.str os p) (host.outside w) = Some image.
Proof.
  unfold host.load_image, host.and_then, host.inspect, host.raise, host.ret.
  destruct (existsb _ host.SUPPORTED_FORMATS); cbn [negb];
    [| split; [reflexivity | discriminate]].
  destruct (host.imread os _ _) as [image |];
    [| split; [reflexivity | discriminate]].
  split; [reflexivity |]. intros ? [= <-]. reflexivity.
Qed.

(** X15. A path [validate_image_path] accepts exists, is a file and has
    a supported extension, and the validation changes nothing; so
    [ImageIO.load_image] on it never raises [ValueError]: it returns the
    image [cv2.imread] reads, or raises [RuntimeError] when there is
    none. *)
Theorem validated_path_loads :
  forall (os : host.external) (s : String.string) (w w' : host.world os)
         (p : host.path os),
    host.validate_image_path os s w = (host.Returned p, w') ->
    w' = w /\ p = host.Path os s /\
    host.path_exists os p (host.outside w) = true /\
    host.path_is_file os p (host.outside w) = true /\
    host.load_image os p w
    = (match host.imread os (host.str os p) (host.outside w) with
       | Some image => host.Returned image
       | None => host.Raised host.RuntimeError
       end, w).
Proof.
  intros os s w w' p H.
  destruct (validate_image_path_cases os s w) as [Hw Hp].
  rewrite H in Hw, Hp. cbn [fst snd] in Hw, Hp.
  destruct (Hp p eq_refl) as (-> & E1 & E2 & E).
  repeat (split; [assumption || reflexivity |]).
  unfold host.load_image, host.and_then, host.inspect, host.raise, host.ret.
  change host.SUPPORTED_FORMATS with host.valid_extensions.
  rewrite E. cbn [negb].
  destruct (host.imread os _ _); reflexivity.
Qed.

Lemma validated_path_loads_witness :
  host.load_image TestHost.os TestHost.picture_file TestHost.start
  = (host.Returned TestHost.picture, TestHost.start).
Proof.
  apply (validated_path_loads TestHost.os TestHost.picture_file
           TestHost.start TestHost.start TestHost.picture_file).
  reflexivity.
Defined.

(** ** The settings of a run of the command *)

Lemma Settings_from_environment_world (os : host.external)
    (w : host.world os) :
  snd (host.Settings_from_environment os w) = w.
Proof. reflexivity. Qed.

Lemma cli_settings_cases (os : host.external) (config : option String.string)
    (bt t md : Z) (pr : float) (w : host.world os) :
  snd (host.cli_settings os config bt t md pr w) = w /\
  forall s,
    fst (host.cli_settings os config bt t md pr w) = host.Returned s ->
    exists c s0, Settings.init c = Ok s0 /\ s = host.override s0 bt t md pr.
Proof.
  unfold host.cli_settings, host.and_then, host.Settings_from_environment,
    host.Settings_from_file, host.lift, host.ret.
  destruct (Settings.init (host.environ os (host.outside w))) as [s0 |] eqn:E0;
    [| split; [reflexivity | discriminate]].
  destruct (host.truthy config), config as [file |];
    try (split; [reflexivity |]; intros s [= <-]; eauto).
  destruct (Settings.init (host.environ_with_file os file (host.outside w)))
    as [s1 |] eqn:E1; [| split; [reflexivity | discriminate]].
  split; [reflexivity |]. intros s [= <-]. eauto.
Qed.



(** ** What a run of the command writes *)

Section Logs.

Context {os : host.external}.

Lemma added_app (w w' : host.world os) (events : list (host.event os)) :
  host.log w' = host.log w ++ events -> host.added w w' = events.
Proof.
  intros H. unfold host.added. rewrite H. clear H.
  induction (host.log w) as [| e l IH]; [reflexivity | exact IH].
Qed.

Lemma logs_ret {A : Type} (P : host.event os -> bool) (a : A) :
  host.logs P (host.ret os a).
Proof. intros w. exists []. rewrite app_nil_r. auto. Qed.

Lemma logs_raise {A : Type} (P : host.event os -> bool) (e : host.exception) :
  host.logs P (@host.raise os A e).
Proof. intros w. exists []. rewrite app_nil_r. auto. Qed.

Lemma logs_lift {A : Type} (P : host.event os -> bool) (r : result A) :
  host.logs P (host.lift os r).
Proof. intros w. exists []. rewrite app_nil_r. auto. Qed.

Lemma logs_perform {A : Type} (P : host.event os -> bool) (e : host.event os)
    (call : host.state os -> host.outcome A * host.state os) :
  P e = true -> host.logs P (host.perform os e call).
Proof.
  intros He w. exists [e]. unfold host.perform.
  destruct (call (host.outside w)). cbn. rewrite He. auto.
Qed.

Lemma logs_and_then {A B : Type} (P : host.event os -> bool)
    (m : host.io os A) (k : A -> host.io os B) :
  host.logs P m -> (forall a, host.logs P (k a)) ->
  host.logs P (host.and_then os m k).
Proof.
  intros Hm Hk w. unfold host.and_then.
  destruct (Hm w) as (ev1 & E1 & P1).
  destruct (m w) as [[a | e] w1]; cbn [snd] in *.
  - destruct (Hk a w1) as (ev2 & E2 & P2).
    exists (ev1 ++ ev2). rewrite E2, E1, app_assoc, forallb_app, P1, P2. auto.
  - exists ev1. auto.
Qed.

Lemma logs_Settings_from_environment (P : host.event os -> bool) :
  host.logs P (host.Settings_from_environment os).
Proof. intros w. exists []. rewrite app_nil_r. auto. Qed.

Lemma logs_save_image (image : bgr_image) (p : host.path os) :
  host.logs (fun e => negb (host.writes_file e)) (host.save_image os image p).
Proof.
  unfold host.save_image.
  apply logs_and_then; [apply logs_perform; reflexivity |]. intros _.
  apply logs_and_then; [apply logs_perform; reflexivity |]. intros success.
  destruct (negb success); [apply logs_raise | apply logs_ret].
Qed.

Lemma logs_display (image : bgr_image) (name : String.string) (wait : bool) :
  host.logs (fun e => negb (host.writes_file e))
    (host.display os image name wait).
Proof.
  unfold host.display.
  apply logs_and_then; [apply logs_perform; reflexivity |]. intros _.
  destruct wait; [| apply logs_ret].
  apply logs_and_then; [apply logs_perform; reflexivity |]. intros _.
  apply logs_perform. reflexivity.
Qed.

Lemma logs_cli_visualization (image : bgr_image) (results : list circle)
    (visualize : bool) (save_visualization : option String.string) :
  host.logs (fun e => negb (host.writes_file e))
    (host.cli_visualization os image results visualize save_visualization).
Proof.
  unfold host.cli_visualization.
  destruct (visualize || host.truthy save_visualization); [| apply logs_ret].
  apply logs_and_then; [apply logs_Settings_from_environment |].
  intros visualizer.
  apply logs_and_then; [apply logs_lift |]. intros annotated.
  apply logs_and_then.
  - destruct (host.truthy save_visualization), save_visualization;
      try apply logs_ret. apply logs_save_image.
  - intros _. destruct visualize; [apply logs_display | apply logs_ret].
Qed.

Lemma validate_output_path_cases (s : String.string) (w : host.world os) :
  host.log (snd (host.validate_output_path os s w))
  = host.log w ++ [host.MkdirParent (host.Path os s)] /\
  forall p,
    fst (host.validate_output_path os s w) = host.Returned p ->
    p = host.Path os s.
Proof.
  unfold host.validate_output_path, host.perform.
  destruct (host.mkdir_parent os (host.Path os s) (host.outside w))
    as [[u | e] st]; cbn; split; try reflexivity; congruence.
Qed.

End Logs.

Lemma segment_raises_255 {cv : cv2.external}
    (corner_peaks : dmap -> Z -> float -> result (list peak))
    (img : bgr_image) (self : t cv) :
  Settings.back_threshold (settings self) = 255 ->
  exists e, fst (segment corner_peaks img self) = Raise e.
Proof.
  intros Hb.
  destruct (segment_run corner_peaks img self)
    as [e He | self1 self2 ? ? ? ? ? ? ? Hs1 Hs2].
  - exists e. reflexivity.
  - exists ZeroDivisionError. apply _extract_circles_255. congruence.
Qed.

(** How a run of the body of [cli] ends and what it adds to the log:
    either it raises having created directories at most, or the settings
    were built, the image was read, [segment] returned, and the CSV of
    its circles was written before anything else. *)
Lemma cli_body_log (os : host.external) (cv : cv2.external)
    (corner_peaks : dmap -> Z -> float -> result (list peak))
    (input_image output_csv : String.string) (visualize : bool)
    (save_visualization config : option String.string)
    (bt t md : Z) (pr : float) (w : host.world os)
    (r : host.outcome unit * host.world os) :
  host.cli_body os cv corner_peaks input_image output_csv visualize
    save_visualization config bt t md pr w = r ->
  (exists e events,
     fst r = host.Raised e /\
     host.log (snd r) = host.log w ++ events /\
     forallb host.creates_directory events = true) \/
  (exists s st image circles events,
     fst (host.cli_settings os config bt t md pr w) = host.Returned s /\
     host.imread os (host.str os (host.Path os input_image)) st = Some image /\
     fst (segment corner_peaks image (__init__ cv s)) = Ok circles /\
     host.log (snd r)
     = host.log w
       ++ [host.MkdirParent (host.Path os output_csv);
           host.MkdirParent (host.Path os output_csv);
           host.WriteFile (host.Path os output_csv)
             (csv.to_csv_text circles true)]
       ++ events /\
     forallb (fun e => negb (host.writes_file e)) events = true).
Proof.
  intros Hr. unfold host.cli_body in Hr. unfold host.and_then at 1 in Hr.
  destruct (cli_settings_cases os config bt t md pr w) as [Hw1 _].
  destruct (host.cli_settings os config bt t md pr w) as [[s | e] w1] eqn:E1;
    cbn [snd] in Hw1; subst w1.
  2: { subst r. left. exists e, []. rewrite app_nil_r. auto. }
  unfold host.and_then at 1 in Hr.
  destruct (validate_image_path_cases os input_image w) as [Hw2 Hp2].
  destruct (host.validate_image_path os input_image w) as [[ip | e] w2];
    cbn [fst snd] in Hw2, Hp2; subst w2.
  2: { subst r. left. exists e, []. rewrite app_nil_r. auto. }
  destruct (Hp2 ip eq_refl) as (-> & _). clear Hp2.
  unfold host.and_then at 1 in Hr.
  destruct (validate_output_path_cases output_csv w) as [Hl3 Hp3].
  destruct (host.validate_output_path os output_csv w) as [[op | e] w3];
    cbn [fst snd] in Hl3, Hp3.
  2: { subst r. left.
       exists e, [host.MkdirParent (host.Path os output_csv)]. auto. }
  rewrite (Hp3 op eq_refl) in Hr. clear Hp3 op.
  unfold host.and_then at 1 in Hr.
  destruct (load_image_cases os (host.Path os input_image) w3) as [Hw4 Hi4].
  destruct (host.load_image os (host.Path os input_image) w3)
    as [[image | e] w4]; cbn [fst snd] in Hw4, Hi4; subst w4.
  2: { subst r. left.
       exists e, [host.MkdirParent (host.Path os output_csv)]. auto. }
  specialize (Hi4 image eq_refl).
  unfold host.and_then at 1 in Hr. unfold host.lift at 1 in Hr.
  destruct (fst (segment corner_peaks image (__init__ cv s)))
    as [circles | e] eqn:E5.
  2: { subst r. left.
       exists (host.Builtin e), [host.MkdirParent (host.Path os output_csv)].
       auto. }
  unfold host.and_then at 1 in Hr.
  unfold host.to_csv, host.and_then, host.perform in Hr.
  destruct (host.mkdir_parent os (host.Path os output_csv) (host.outside w3))
    as [[u | e] st1].
  2: { subst r. left.
       exists e, [host.MkdirParent (host.Path os output_csv);
                  host.MkdirParent (host.Path os output_csv)].
       cbn [fst snd host.log]. rewrite Hl3, <- app_assoc. auto. }
  cbn [host.outside host.log] in Hr.
  destruct (host.write_file os (host.Path os output_csv)
              (csv.to_csv_text circles true) st1) as [[u' | e] st2].
  - right.
    destruct (logs_cli_visualization image circles visualize save_visualization
                (host.mk_world st2
                   ((host.log w3 ++ [host.MkdirParent (host.Path os output_csv)])
                    ++ [host.WriteFile (host.Path os output_csv)
                          (csv.to_csv_text circles true)])))
      as (events & El & Pl).
    exists s, (host.outside w3), image, circles, events.
    repeat (split; [assumption || reflexivity |]).
    split; [| exact Pl].
    subst r. rewrite El. cbn [host.log]. rewrite Hl3, <- !app_assoc.
    reflexivity.
  - right. exists s, (host.outside w3), image, circles, [].
    repeat (split; [assumption || reflexivity |]).
    split; [| reflexivity].
    subst r. cbn [snd host.log]. rewrite Hl3, <- !app_assoc. reflexivity.
Qed.

(** X17. With [--back-threshold 255], a value the command line accepts,
    every run of [cli] ends in [sys.exit(1)], whatever the image, the
    other options and the world are; the run writes no file and shows no
    window: all it may have done is create the directory of the output
    file. *)
Theorem cli_back_threshold_255_exits :
  forall (os : host.external) (cv : cv2.external)
         (corner_peaks : dmap -> Z -> float -> result (list peak))
         (input_image output_csv : String.string) (visualize : bool)
         (save_visualization config : option String.string)
         (threshold min_diameter : Z) (peaks_threshold : float)
         (w : host.world os),
    fst (host.cli os cv corner_peaks input_image output_csv visualize
           save_visualization config 255 threshold min_diameter
           peaks_threshold w) = host.Exited 1 /\
    forallb host.creates_directory
      (host.added w
         (snd (host.cli os cv corner_peaks input_image output_csv visualize
                 save_visualization config 255 threshold min_diameter
                 peaks_threshold w))) = true.
Proof.
  intros os cv cp input output visualize save config t md pr w.
  unfold host.cli.
  destruct (cli_body_log os cv cp input output visualize save config 255 t md
              pr w _ eq_refl)
    as [(e & events & Hr & Hl & Hp)
       | (s & st & image & circles & events & Hs & _ & Hseg & _)].
  - destruct (host.cli_body _ _ _ _ _ _ _ _ _ _ _ _ w) as [[u | e'] wf];
      cbn [fst snd] in *; [discriminate |].
    split; [reflexivity |]. rewrite (added_app _ _ _ Hl). exact Hp.
  - exfalso.
    destruct (cli_settings_cases os config 255 t md pr w) as [_ Hc].
    destruct (Hc s Hs) as (c & s0 & _ & ->).
    destruct (segment_raises_255 cp image
                (__init__ cv (host.override s0 255 t md pr)) eq_refl)
      as (e & He).
    congruence.
Qed.

(** X18. The only text file a run of [cli] writes is the CSV of the
    circles: when the log of a run holds the writing of a file, the
    settings were built, the input image was read, [segment] returned for
    that image under those settings, and the file is the output path with
    the header row and the rows of the circles [segment] returned; it is
    written once, before any visualisation, whether or not the run then
    ends in [sys.exit(1)]. *)
Theorem cli_writes_the_circles :
  forall (os : host.external) (cv : cv2.external)
         (corner_peaks : dmap -> Z -> float -> result (list peak))
         (input_image output_csv : String.string) (visualize : bool)
         (save_visualization config : option String.string)
         (back_threshold threshold min_diameter : Z) (peaks_threshold : float)
         (w : host.world os) (p : host.path os) (text : String.string),
    In (host.WriteFile p text)
      (host.added w
         (snd (host.cli os cv corner_peaks input_image output_csv visualize
                 save_visualization config back_threshold threshold
                 min_diameter peaks_threshold w))) ->
    exists s st image circles,
      fst (host.cli_settings os config back_threshold threshold min_diameter
             peaks_threshold w) = host.Returned s /\
      host.imread os (host.str os (host.Path os input_image)) st = Some image /\
      fst (segment corner_peaks image (__init__ cv s)) = Ok circles /\
      p = host.Path os output_csv /\
      text = csv.to_csv_text circles true /\
      filter host.writes_file
        (host.added w
           (snd (host.cli os cv corner_peaks input_image output_csv visualize
                   save_visualization config back_threshold threshold
                   min_diameter peaks_threshold w)))
      = [host.WriteFile p text].
Proof.
  intros os cv cp input output visualize save config bt t md pr w p text.
  assert (Ew : snd (host.cli os cv cp input output visualize save config bt t
                      md pr w)
               = snd (host.cli_body os cv cp input output visualize save config
                        bt t md pr w)).
  { unfold host.cli. destruct (host.cli_body _ _ _ _ _ _ _ _ _ _ _ _ w)
      as [[u | e] wf]; reflexivity. }
  rewrite Ew. clear Ew.
  destruct (cli_body_log os cv cp input output visualize save config bt t md
              pr w _ eq_refl)
    as [(e & events & _ & Hl & Hp)
       | (s & st & image & circles & events & Hs & Hi & Hseg & Hl & Hp)];
    rewrite (added_app _ _ _ Hl); intros Hin.
  - exfalso. rewrite forallb_forall in Hp. specialize (Hp _ Hin). discriminate.
  - assert (Hf : filter host.writes_file events = []).
    { clear - Hp. induction events as [| e events IH]; [reflexivity |].
      cbn in Hp. apply andb_true_iff in Hp. destruct Hp as [He Hp].
      cbn. apply negb_true_iff in He. rewrite He. apply IH, Hp. }
    assert (Hpt : host.WriteFile p text
                  = host.WriteFile (host.Path os output)
                      (csv.to_csv_text circles true)).
    { cbn [app] in Hin. destruct Hin as [Hin | [Hin | [Hin | Hin]]];
        try discriminate; [congruence |].
      exfalso. rewrite forallb_forall in Hp. specialize (Hp _ Hin).
      discriminate. }
    injection Hpt as -> ->.
    exists s, st, image, circles.
    repeat (split; [assumption || reflexivity |]).
    cbn [app filter host.writes_file]. rewrite Hf. reflexivity.
Qed.

Lemma cli_writes_the_circles_witness :
  exists circles,
    fst (segment skimage.corner_peaks TestHost.picture
           (__init__ TestBackend.opencv
              (Examples.settings_with 100 150 2
                 Settings.default_peaks_rel_threshold))) = Ok circles /\
    csv.to_csv_text [(5, 5, 2, 2)] true = csv.to_csv_text circles true.
Proof.
  destruct (cli_writes_the_circles TestHost.os TestBackend.opencv
              skimage.corner_peaks TestHost.picture_file
              TestHost.picture_file true None None 100 150 2
              Settings.default_peaks_rel_threshold TestHost.start
              TestHost.picture_file (csv.to_csv_text [(5, 5, 2, 2)] true))
    as (s & st & image & circles & Hs & Hi & Hseg & _ & Ht & _).
  - vm_compute. auto.
  - exists circles. split; [| exact Ht].
    vm_compute in Hs. injection Hs as <-.
    vm_compute in Hi. injection Hi as <-.
    exact Hseg.
Defined.

(** X19. A run of [cli] that returns instead of leaving through
    [sys.exit(1)] has read the input image, has run [segment] on it to
    the end under the settings of the run, and has written the CSV of the
    circles [segment] returned to the output path. *)
Theorem cli_completed_has_written :
  forall (os : host.external) (cv : cv2.external)
         (corner_peaks : dmap -> Z -> float -> result (list peak))
         (input_image output_csv : String.string) (visualize : bool)
         (save_visualization config : option String.string)
         (back_threshold threshold min_diameter : Z) (peaks_threshold : float)
         (w : host.world os),
    fst (host.cli os cv corner_peaks input_image output_csv visualize
           save_visualization config back_threshold threshold min_diameter
           peaks_threshold w) = host.Completed ->
    exists s st image circles,
      fst (host.cli_settings os config back_threshold threshold min_diameter
             peaks_threshold w) = host.Returned s /\
      host.imread os (host.str os (host.Path os input_image)) st = Some image /\
      fst (segment corner_peaks image (__init__ cv s)) = Ok circles /\
      In (host.WriteFile (host.Path os output_csv)
            (csv.to_csv_text circles true))
        (host.added w
           (snd (host.cli os cv corner_peaks input_image output_csv visualize
                   save_visualization config back_threshold threshold
                   min_diameter peaks_threshold w))).
Proof.
  intros os cv cp input output visualize save config bt t md pr w.
  unfold host.cli.
  destruct (cli_body_log os cv cp input output visualize save config bt t md
              pr w _ eq_refl)
    as [(e & events & Hr & _)
       | (s & st & image & circles & events & Hs & Hi & Hseg & Hl & _)];
    destruct (host.cli_body _ _ _ _ _ _ _ _ _ _ _ _ w) as [[u | e'] wf];
    cbn [fst snd] in *; try discriminate.
  intros _. exists s, st, image, circles.
  repeat (split; [assumption |]).
  rewrite (added_app _ _ _ Hl). cbn. auto.
Qed.

Lemma cli_completed_has_written_witness :
  exists s st image circles,
    fst (host.cli_settings TestHost.os None 100 150 2
           Settings.default_peaks_rel_threshold TestHost.start)
    = host.Returned s /\
    host.imread TestHost.os TestHost.picture_file st = Some image /\
    fst (segment skimage.corner_peaks image (__init__ TestBackend.opencv s))
    = Ok circles /\
    In (host.WriteFile (os := TestHost.os) TestHost.picture_file
          (csv.to_csv_text circles true))
      (host.added TestHost.start
         (snd (host.cli TestHost.os TestBackend.opencv skimage.corner_peaks
                 TestHost.picture_file TestHost.picture_file false None None
                 100 150 2 Settings.default_peaks_rel_threshold
                 TestHost.start))).
Proof.
  apply (cli_completed_has_written TestHost.os TestBackend.opencv
           skimage.corner_peaks TestHost.picture_file TestHost.picture_file
           false None None 100 150 2 Settings.default_peaks_rel_threshold
           TestHost.start).
  vm_compute. reflexivity.
Defined.

(** ** Constructing the configuration again *)

(** X21. Constructing the configuration again from the values of a
    constructed object returns the same object: every value the
    constructor returns is one it accepts, and an odd kernel size stays as
    it is. *)
Theorem settings_round_trip :
  forall (c : Settings.configured) (s : Settings.t),
    Settings.init c = Ok s -> Settings.init (as_configured s) = Ok s.
Proof.
  intros c s H.
  pose proof (init_in_declared_ranges c s H) as R.
  destruct (init_cases c) as [[A E] | [_ E]]; [| congruence].
  assert (Hl : 1 <= Settings.line_thickness s /\
               Z.odd (Settings.gaussian_kernel_size s) = true /\
               Z.odd (Settings.morphology_kernel_size s) = true).
  { rewrite E in H. apply Ok_inj in H. subst s. cbn.
    unfold accepted in A. apply andb_true_iff in A. destruct A as [_ A].
    split; [| split].
    - destruct (Settings.line_thickness_in c) as [v |]; [| lia].
      apply Z.leb_le. exact A.
    - destruct (Settings.gaussian_kernel_size_in c);
        [apply validate_odd_kernel_size_is_odd | reflexivity].
    - destruct (Settings.morphology_kernel_size_in c);
        [apply validate_odd_kernel_size_is_odd | reflexivity]. }
  clear E A H c.
  destruct Hl as (Hl & Hg & Hm).
  destruct R as (Hb & Ht & Hd & Hp0 & Hp1 & Hc & Hts & Hk).
  destruct (init_cases (as_configured s)) as [[_ E] | [A _]].
  - rewrite E. cbn.
    rewrite (validate_odd_kernel_size_odd _ Hg),
            (validate_odd_kernel_size_odd _ Hm).
    destruct s; reflexivity.
  - exfalso. unfold accepted in A. cbn in A.
    rewrite Hp0, Hp1, Hc in A.
    repeat match type of A with
           | context [?a <=? ?b] =>
               replace (a <=? b) with true in A by (symmetry; apply Z.leb_le; lia)
           end.
    discriminate.
Qed.

Lemma settings_round_trip_witness :
  Settings.init (as_configured Examples.even_kernels_constructed)
  = Ok Examples.even_kernels_constructed.
Proof.
  exact (settings_round_trip Examples.even_kernels_configured
           Examples.even_kernels_constructed eq_refl).
Defined.

(** ** Circles lie in the foreground *)

Lemma get2_sample {A : Type} (a : list (list A)) (y x : Z) (v : A) :
  0 <= y -> 0 <= x -> np.get2 a y x = Ok v -> sample a y x = Some v.
Proof.
  intros Hy Hx H. unfold np.get2 in H.
  apply bind_Ok in H. destruct H as (i & Hi & H).
  apply bind_Ok in H. destruct H as (j & Hj & H).
  assert (Ei : i = Z.to_nat y).
  { unfold np.index in Hi.
    destruct ((0 <=? y) && (y <? Z.of_nat (length a)));
      [apply Ok_inj in Hi; congruence |].
    destruct ((- Z.of_nat (length a) <=? y) && (y <? 0)) eqn:E;
      [| discriminate].
    apply andb_true_iff in E. destruct E as [_ E]. apply Z.ltb_lt in E. lia. }
  assert (Ej : j = Z.to_nat x).
  { unfold np.index in Hj.
    destruct ((0 <=? x) && (x <? Z.of_nat (length (hd [] a))));
      [apply Ok_inj in Hj; congruence |].
    destruct ((- Z.of_nat (length (hd [] a)) <=? x) && (x <? 0)) eqn:E;
      [| discriminate].
    apply andb_true_iff in E. destruct E as [_ E]. apply Z.ltb_lt in E. lia. }
  subst i j. unfold sample.
  assert (E : (0 <=? y) && (0 <=? x) = true)
    by (apply andb_true_iff; split; apply Z.leb_le; assumption).
  rewrite E.
  destruct (nth_error a (Z.to_nat y)) as [row |]; [| discriminate].
  destruct (nth_error row (Z.to_nat x)) as [w |]; [| discriminate].
  congruence.
Qed.

Lemma feq_f0_zero (z : float) : feq z f0 = true -> exists s, z = S754_zero s.
Proof.
  destruct z as [s | s | | s m e]; [eauto | | |];
    try destruct s; discriminate.
Qed.

Lemma int_of_zero_product (s : bool) (c : float) (r : Z) :
  int_of_float (fmul (S754_zero s) c) = Ok r -> r = 0.
Proof.
  destruct c as [s' | s' | | s' m e]; cbv beta iota delta [fmul SFmul int_of_float];
    intros H; try discriminate; apply Ok_inj in H; congruence.
Qed.

Lemma map_result_Forall {A B : Type} (f : A -> result B) (l : list A) :
  forall bs,
    map_result f l = Ok bs ->
    Forall (fun b => exists a, In a l /\ f a = Ok b) bs.
Proof.
  induction l as [| a l IH]; intros bs H; simpl in H.
  - apply Ok_inj in H. subst bs. constructor.
  - apply bind_Ok in H. destruct H as (b & Hb & H).
    apply bind_Ok in H. destruct H as (bs' & Hbs & H).
    apply Ok_inj in H. subst bs. constructor.
    + exists a. split; [left; reflexivity | exact Hb].
    + eapply Forall_impl; [| apply (IH _ Hbs)].
      intros c (a' & Ha' & Hc). exists a'. split; [right; exact Ha' | exact Hc].
Qed.

(** What [_extract_circles] says of each circle it returns. *)
Lemma _extract_circles_each {cv : cv2.external} (self : t cv)
    (peaks : list peak) (dist_map equalized_dist_map : dmap)
    (circles : list circle) :
  _extract_circles self peaks dist_map equalized_dist_map = Ok circles ->
  exists coeff,
    Forall (fun c =>
              In (centre c) peaks /\
              floordiv (Settings.min_diameter (settings self)) 2 <= radius1 c /\
              exists d1,
                np.get2 dist_map (fst (centre c)) (snd (centre c)) = Ok d1 /\
                int_of_float (fmul d1 coeff) = Ok (radius1 c)) circles.
Proof.
  intros H. rewrite _extract_circles_spec in H.
  unfold extract_circles_spec in H.
  apply bind_Ok in H. destruct H as (coeff & _ & H).
  apply bind_Ok in H. destruct H as (cs & Hcs & H).
  apply Ok_inj in H. subst circles. exists coeff.
  apply map_result_Forall in Hcs.
  apply Forall_forall. intros c Hc. apply filter_In in Hc.
  destruct Hc as [Hc Hr]. apply Z.leb_le in Hr.
  rewrite Forall_forall in Hcs. destruct (Hcs c Hc) as ([y x] & Hp & Hcp).
  unfold circle_of_peak in Hcp.
  apply bind_Ok in Hcp. destruct Hcp as (d1 & G1 & Hcp).
  apply bind_Ok in Hcp. destruct Hcp as (r1 & R1 & Hcp).
  apply bind_Ok in Hcp. destruct Hcp as (d2 & G2 & Hcp).
  apply bind_Ok in Hcp. destruct Hcp as (r2 & R2 & Hcp).
  apply Ok_inj in Hcp. subst c. cbn [centre radius1 fst snd] in *.
  split; [exact Hp |]. split; [exact Hr |]. exists d1. auto.
Qed.

Lemma threshold_sample (src : image) (t : Z) (ty : cv2.threshold_type)
    (i j : Z) :
  sample (cv2.threshold src t 255 ty) i j
  = option_map (fun v => if t <? v then 255 else 0) (sample src i j).
Proof.
  unfold sample, cv2.threshold.
  destruct ((0 <=? i) && (0 <=? j)); [| reflexivity].
  rewrite nth_error_map.
  destruct (nth_error src (Z.to_nat i)) as [row |]; [| reflexivity].
  cbn [option_map]. apply nth_error_map.
Qed.

(** X20. With [min_diameter >= 2], every circle [segment] returns is
    centred at a pixel of the foreground: the mask [_remove_background]
    computed in that run is 255 at the centre, and [radius1] is at least
    1.  (A pixel outside the mask is 0 in the masked image, so its
    distance is 0 and its [radius1] is 0.)  The distance transform is
    taken to return a map of the image's dimensions that is 0 on the zero
    samples, and the peak finder to return positions counted from the
    start. *)
Theorem circles_inside_foreground :
  forall (cv : cv2.external)
         (corner_peaks : dmap -> Z -> float -> result (list peak))
         (self : t cv) (img : bgr_image) (circles : list circle),
    background_maps_to_zero cv ->
    distance_map_has_dims cv ->
    peaks_not_negative corner_peaks ->
    2 <= Settings.min_diameter (settings self) ->
    0 <= Settings.threshold (settings self) ->
    fst (segment corner_peaks img self) = Ok circles ->
    exists self1 preprocessed mask,
      _preprocess_image img self = (Ok preprocessed, self1) /\
      _remove_background self1 preprocessed = Ok mask /\
      Forall (fun c =>
                sample mask (fst (centre c)) (snd (centre c)) = Some 255 /\
                1 <= radius1 c) circles.
Proof.
  intros cv cp self img circles Hzero Hdims Hpeaks Hmd Ht Hseg.
  pose proof (segment_run cp img self) as Hrun. rewrite Hseg in Hrun.
  inversion Hrun
    as [| self1 self2 pre mask masked equalized dm edm peaks
          Hs1 Hs2 E1 E2 E3 E4 E5 E6 E7 Hres].
  exists self1, pre, mask. split; [exact E1 |]. split; [exact E2 |].
  apply _extract_circles_each in Hres.
  destruct Hres as (coeff & Hall).
  unfold _find_local_maxima in E7. apply Hpeaks in E7.
  rewrite Forall_forall in E7.
  destruct (_remove_background_mask self1 pre mask E2) as [Hmd' Hbin].
  unfold cv2.bitwise_and in E3.
  rewrite (same_dims_true pre pre eq_refl),
          (same_dims_true pre mask (eq_sym Hmd')) in E3.
  cbn [andb] in E3. apply Ok_inj in E3.
  unfold _compute_distance_transform in E4.
  set (binary := if 2 <? Z.of_nat (length (np.unique masked))
                 then cv2.threshold masked
                        (Settings.threshold (settings self1)) 255
                        cv2.THRESH_BINARY
                 else masked) in E4.
  assert (Hbd : dims binary = dims masked).
  { subst binary. destruct (2 <? _); [apply threshold_dims | reflexivity]. }
  assert (Hmasked : dims masked = dims pre).
  { subst masked. apply dims_mapi. }
  pose proof (Hdims _ _ _ _ E4) as Hdm.
  eapply Forall_impl; [| exact Hall].
  intros c (Hin & Hr & d1 & G1 & R1).
  rewrite Hs2 in Hr.
  assert (Hr1 : 1 <= radius1 c).
  { unfold floordiv in Hr.
    assert (1 <= Settings.min_diameter (settings self) / 2)
      by (apply Z.div_le_lower_bound; lia).
    lia. }
  split; [| exact Hr1].
  destruct (E7 _ Hin) as [Hy Hx].
  set (y := fst (centre c)) in *. set (x := snd (centre c)) in *.
  apply (get2_sample _ _ _ _ Hy Hx) in G1.
  destruct (sample_dims dm pre y x d1) as (v & Hv);
    [congruence | exact G1 |].
  destruct (sample_dims pre mask y x v (eq_sym Hmd') Hv) as (m & Hm).
  destruct (sample_Forall _ _ _ _ _ Hbin Hm) as [-> | ->]; [| exact Hm].
  exfalso.
  assert (Hmasked0 : sample masked y x = Some 0).
  { subst masked.
    rewrite (sample_mapi
               (fun i j v =>
                  match sample pre i j, sample mask i j with
                  | Some w, Some m => if m =? 0 then 0 else Z.land v w
                  | _, _ => 0
                  end)).
    rewrite Hv, Hm. reflexivity. }
  assert (Hbinary0 : sample binary y x = Some 0).
  { subst binary. destruct (2 <? _); [| exact Hmasked0].
    rewrite threshold_sample, Hmasked0. cbn [option_map].
    rewrite Hs1.
    destruct (Settings.threshold (settings self) <? 0) eqn:E; [lia |].
    reflexivity. }
  destruct (Hzero _ _ _ _ E4 y x Hbinary0) as (z & Hz & Hz0).
  assert (z = d1) by congruence. subst z.
  apply feq_f0_zero in Hz0. destruct Hz0 as (s & ->).
  apply int_of_zero_product in R1. lia.
Qed.

Lemma test_backend_distance_map_has_dims :
  distance_map_has_dims TestBackend.opencv.
Proof.
  intros img dt k m. simpl. unfold TestBackend.distance_transform.
  destruct (concat img); [discriminate |].
  intros H. apply Ok_inj in H. subst m. apply dims_mapi.
Qed.

Lemma corner_peaks_not_negative : peaks_not_negative skimage.corner_peaks.
Proof.
  intros m d t peaks. unfold skimage.corner_peaks.
  destruct (skimage.all_zero m).
  - intros H. apply Ok_inj in H. subst peaks. constructor.
  - intros H. apply Ok_inj in H. subst peaks.
    apply Forall_forall. intros p Hp.
    apply suppress_incl in Hp. destruct Hp as [[] | Hp].
    apply in_map_iff in Hp. destruct Hp as ([q v] & <- & Hq).
    apply by_value_In in Hq. apply filter_In in Hq. destruct Hq as [Hq _].
    destruct q as [i j]. apply positions_sample in Hq.
    unfold sample in Hq. cbn [fst snd].
    destruct ((0 <=? i) && (0 <=? j)) eqn:E; [| discriminate].
    apply andb_true_iff in E. destruct E as [Ei Ej].
    apply Z.leb_le in Ei. apply Z.leb_le in Ej. auto.
Qed.

Lemma circles_inside_foreground_witness :
  exists self1 preprocessed mask,
    _preprocess_image TestHost.picture
      (Examples.segmenter
         (Examples.settings_with 100 150 2 Settings.default_peaks_rel_threshold))
    = (Ok preprocessed, self1) /\
    _remove_background self1 preprocessed = Ok mask /\
    Forall (fun c =>
              sample mask (fst (centre c)) (snd (centre c)) = Some 255 /\
              1 <= radius1 c) [(5, 5, 2, 2)].
Proof.
  apply (circles_inside_foreground TestBackend.opencv skimage.corner_peaks
           (Examples.segmenter
              (Examples.settings_with 100 150 2
                 Settings.default_peaks_rel_threshold))
           TestHost.picture [(5, 5, 2, 2)]
           test_backend_background_maps_to_zero
           test_backend_distance_map_has_dims
           corner_peaks_not_negative).
  - cbn. lia.
  - cbn. lia.
  - vm_compute. reflexivity.
Defined.

(** ** The extractor returns on well-formed input *)











(** ** Where [ZeroDivisionError] comes from *)

Lemma get2_raises {A : Type} (a : list (list A)) (y x : Z) (e : exn) :
  np.get2 a y x = Raise e -> e = IndexError.
Proof.
  unfold np.get2, np.index.
  destruct ((0 <=? y) && (y <? Z.of_nat (length a)));
    [| destruct ((- Z.of_nat (length a) <=? y) && (y <? 0));
       [| cbn; congruence]];
    cbn [bind];
    (destruct ((0 <=? x) && (x <? Z.of_nat (length (hd [] a))));
     [| destruct ((- Z.of_nat (length (hd [] a)) <=? x) && (x <? 0));
        [| cbn; congruence]]);
    cbn [bind];
    repeat match goal with
           | |- context [nth_error ?l ?n] => destruct (nth_error l n)
           end; congruence.
Qed.

Lemma int_of_float_raises (x : float) (e : exn) :
  int_of_float x = Raise e -> e = ValueError \/ e = OverflowError.
Proof. destruct x; simpl; intros H; try discriminate; injection H; auto. Qed.

Lemma circle_of_peak_raises (coeff : float) (raw_map equalized_map : dmap)
    (p : peak) (e : exn) :
  circle_of_peak int_of_float coeff raw_map equalized_map p = Raise e ->
  e <> ZeroDivisionError.
Proof.
  destruct p as [y x]. unfold circle_of_peak.
  destruct (np.get2 raw_map y x) as [d1 |] eqn:G1; cbn [bind];
    [| intros [= <-]; apply get2_raises in G1; congruence].
  destruct (int_of_float (fmul d1 coeff)) as [r1 |] eqn:R1; cbn [bind];
    [| intros [= <-]; apply int_of_float_raises in R1;
       destruct R1; congruence].
  destruct (np.get2 equalized_map y x) as [d2 |] eqn:G2; cbn [bind];
    [| intros [= <-]; apply get2_raises in G2; congruence].
  destruct (int_of_float (fmul d2 coeff)) as [r2 |] eqn:R2; cbn [bind];
    [discriminate |].
  intros [= <-]. apply int_of_float_raises in R2. destruct R2; congruence.
Qed.

Lemma map_result_raises {A B : Type} (f : A -> result B) (l : list A)
    (e : exn) :
  map_result f l = Raise e -> exists a, In a l /\ f a = Raise e.
Proof.
  induction l as [| a l IH]; simpl; [discriminate |].
  destruct (f a) as [b |] eqn:Ea; cbn [bind].
  - destruct (map_result f l) as [bs |]; cbn [bind]; [discriminate |].
    intros H. destruct (IH H) as (a' & Ha' & Hf). eauto.
  - intros [= <-]. eauto.
Qed.

(** X23. For a configuration in its declared ranges, [_extract_circles]
    raises [ZeroDivisionError] exactly when [back_threshold] is 255:
    below 255 the coefficient is computed, and whatever else the call
    raises ([IndexError] for a peak outside a map, [ValueError] or
    [OverflowError] from [int]) is another exception. *)
Theorem zero_division_only_at_255 :
  forall (cv : cv2.external) (self : t cv) (peaks : list peak)
         (dist_map equalized_dist_map : dmap),
    0 <= Settings.back_threshold (settings self) <= 255 ->
    0 <= Settings.threshold (settings self) <= 255 ->
    (_extract_circles self peaks dist_map equalized_dist_map
     = Raise ZeroDivisionError <->
     Settings.back_threshold (settings self) = 255).
Proof.
  intros cv self peaks dm edm Hb Ht. split; [| apply _extract_circles_255].
  intros H.
  destruct (Z.eq_dec (Settings.back_threshold (settings self)) 255) as [| n];
    [assumption | exfalso].
  rewrite _extract_circles_spec in H. unfold extract_circles_spec in H.
  assert (Hb' : 0 <= Settings.back_threshold (settings self) < 255) by lia.
  destruct (coefficient_canonical _ _ Hb' Ht) as (c & Ec & _).
  rewrite Ec in H. cbn [bind] in H.
  destruct (map_result _ peaks) as [cs |] eqn:E; [discriminate |].
  cbn [bind] in H. injection H as ->.
  apply map_result_raises in E. destruct E as (p & _ & Hp).
  apply circle_of_peak_raises in Hp. congruence.
Qed.

Lemma zero_division_only_at_255_witness :
  _extract_circles
    (Examples.segmenter
       (Examples.settings_with 255 150 30 Settings.default_peaks_rel_threshold))
    [] [] [] = Raise ZeroDivisionError.
Proof.
  apply (zero_division_only_at_255 TestBackend.opencv
           (Examples.segmenter
              (Examples.settings_with 255 150 30
                 Settings.default_peaks_rel_threshold)) [] [] []).
  - cbn. lia.
  - cbn. lia.
  - reflexivity.
Defined.

(** ** The filter of the extractor *)

Lemma subsequence_filter_filter {A : Type} (p q : A -> bool) (l : list A) :
  (forall a, q a = true -> p a = true) ->
  subsequence (filter q l) (filter p l).
Proof.
  intros H. induction l as [| a l IH]; simpl; [constructor |].
  destruct (q a) eqn:Eq.
  - rewrite (H a Eq). apply subsequence_keep. exact IH.
  - destruct (p a); [apply subsequence_skip |]; exact IH.
Qed.

(** X24. For the same peaks and distance maps and the same thresholds, a
    larger [min_diameter] only removes circles from what
    [_extract_circles] returns: the circles of the larger [min_diameter]
    are those of the smaller one with some left out, in the same order and
    with the same radii. *)
Theorem larger_min_diameter_fewer_circles :
  forall (cv : cv2.external) (self self' : t cv) (peaks : list peak)
         (dist_map equalized_dist_map : dmap) (circles circles' : list circle),
    Settings.threshold (settings self) = Settings.threshold (settings self') ->
    Settings.back_threshold (settings self)
    = Settings.back_threshold (settings self') ->
    Settings.min_diameter (settings self)
    <= Settings.min_diameter (settings self') ->
    _extract_circles self peaks dist_map equalized_dist_map = Ok circles ->
    _extract_circles self' peaks dist_map equalized_dist_map = Ok circles' ->
    subsequence circles' circles.
Proof.
  intros cv self self' peaks dm edm circles circles' Ht Hb Hmd H H'.
  rewrite _extract_circles_spec in H, H'.
  unfold extract_circles_spec in H, H'. rewrite <- Ht, <- Hb in H'.
  destruct (coefficient _ _) as [coeff |]; [| discriminate].
  cbn [bind] in H, H'.
  destruct (map_result _ peaks) as [cs |]; [| discriminate].
  cbn [bind] in H, H'. apply Ok_inj in H. apply Ok_inj in H'.
  subst circles circles'.
  apply subsequence_filter_filter. intros c Hc.
  apply Z.leb_le in Hc. apply Z.leb_le. unfold floordiv in *.
  assert (Settings.min_diameter (settings self) / 2
          <= Settings.min_diameter (settings self') / 2)
    by (apply Z.div_le_mono; lia).
  lia.
Qed.

Lemma larger_min_diameter_fewer_circles_witness :
  subsequence [(1, 1, 1, 1)] [(1, 1, 1, 1); (2, -1, 0, 0); (0, 0, 0, 0)].
Proof.
  apply (larger_min_diameter_fewer_circles TestBackend.opencv
           (Examples.segmenter
              (Examples.settings_with 100 150 1 Settings.default_peaks_rel_threshold))
           (Examples.segmenter
              (Examples.settings_with 100 150 2 Settings.default_peaks_rel_threshold))
           [(1, 1); (-1, 2); (0, 0)] (Examples.dot f1) (Examples.dot f1));
    try reflexivity.
  cbn. lia.
Defined.

(** ** The fields the pipeline does not read *)

(** X25. [segment] does not read the visualisation settings: two
    segmenters constructed from configurations that agree on the eight
    processing fields, whatever their colours and line thickness, return
    the same result (the same circles or the same exception) for every
    image. *)
Theorem visualization_settings_ignored :
  forall (cv : cv2.external)
         (corner_peaks : dmap -> Z -> float -> result (list peak))
         (s s' : Settings.t) (img : bgr_image),
    same_processing s s' ->
    fst (segment corner_peaks img (__init__ cv s))
    = fst (segment corner_peaks img (__init__ cv s')).
Proof.
  intros cv cp s s' img (Hb & Ht & Hm & Hp & Hg & Hc & Hts & Hk).
  destruct s, s'. cbn in Hb, Ht, Hm, Hp, Hg, Hc, Hts, Hk. subst.
  unfold __init__, segment, _preprocess_image, _remove_background,
    _compute_distance_transform, _find_local_maxima, _extract_circles,
    compensation_coefficient, extract_step.
  unfold and_then, reading, ret, _clahe_apply.
  cbn [settings _clahe fst snd Settings.back_threshold Settings.threshold
         Settings.min_diameter Settings.peaks_rel_threshold
         Settings.gaussian_kernel_size Settings.clahe_clip_limit
         Settings.clahe_tile_size Settings.morphology_kernel_size].
  repeat (match goal with
          | |- context [match ?x with _ => _ end] =>
              lazymatch x with
              | context [match _ with _ => _ end] => fail
              | _ => destruct x
              end
          end;
          cbn [settings _clahe fst snd bind Settings.back_threshold
                 Settings.threshold Settings.min_diameter
                 Settings.peaks_rel_threshold Settings.gaussian_kernel_size
                 Settings.clahe_clip_limit Settings.clahe_tile_size
                 Settings.morphology_kernel_size]);
    try reflexivity;
    match goal with
    | |- fst (match ?x with _ => _ end) = _ => destruct x; reflexivity
    end.
Qed.

Lemma visualization_settings_ignored_witness :
  fst (segment skimage.corner_peaks TestHost.picture
         (__init__ TestBackend.opencv
            (Examples.settings_with 100 150 2
               Settings.default_peaks_rel_threshold)))
  = fst (segment skimage.corner_peaks TestHost.picture
           (__init__ TestBackend.opencv
              (Settings.mk 100 150 2 Settings.default_peaks_rel_threshold 1
                 Settings.default_clahe_clip_limit 8 3
                 (1, 2, 3) (4, 5, 6) (7, 8, 9) 5))).
Proof.
  apply (visualization_settings_ignored TestBackend.opencv
           skimage.corner_peaks).
  repeat split.
Defined.

(** ** A radius is at least the distance *)





